(** * The cleaning pass of [notebooks/togo_eda.ipynb]

    A shallow embedding of the data-transformation cells of the notebook
    (missing-value report, z-score outlier detection, imputation, row
    removal, removal of the derived columns, export), and the properties
    of that pass; then the cells that read the cleaned frame for the
    group means of [Cleaning] and for the time series.

    Numbers.  A float64 that is a number is taken exactly, as a rational;
    [None] is NaN.  A z-score [(x - mean) / std] is in general not
    rational: it is kept as the pair of its numerator and of the variance
    under the square root ([root]), and the test [abs() > 3] is decided on
    the squares ([RealFacts.abs_gt_3_real]).  scipy computes the mean,
    the standard deviation and the quotient in float64, each rounded: its
    test and the exact one can differ for a z-score within rounding of 3,
    for a variance that overflows and for a column whose spread is lost
    in rounding.  What is proved of the pass below either holds for
    whichever way such a test falls, or stays away from the threshold;
    the datasets are chosen away from it.

    Frames.  A frame is the list of its columns, each with its dtype; the
    frame of the notebook is one mutable object, threaded here through
    the cells, and an exception is an [error].  [describe], [display],
    [head] and the drawing of the plots are left out. *)

From Stdlib Require Import String Ascii Bool Arith ZArith QArith List.
From Stdlib Require Import Lia Lqa Permutation Sorted SetoidList.
From Stdlib Require Reals Qreals Lra.
Import ListNotations.

Set Implicit Arguments.

(** ** Column statistics (numpy / scipy / pandas reductions) *)

Module Stats.

Local Open Scope Q_scope.

Definition Qlt_bool (a b : Q) : bool := negb (Qle_bool b a).

Fixpoint Qsum (xs : list Q) : Q :=
  match xs with
  | [] => 0
  | x :: r => x + Qsum r
  end.

Definition Qlen (xs : list Q) : Q := inject_Z (Z.of_nat (length xs)).

(** [nan_policy='omit'] and pandas' [skipna]: the values that are numbers. *)
Fixpoint omit (xs : list (option Q)) : list Q :=
  match xs with
  | [] => []
  | Some q :: r => q :: omit r
  | None :: r => omit r
  end.

Definition mean (ys : list Q) : Q := Qsum ys / Qlen ys.

Definition sq (x : Q) : Q := x * x.

(** Population variance ([ddof=0], scipy's default in [zscore]). *)
Definition var (ys : list Q) : Q :=
  Qsum (map (fun y => sq (y - mean ys)) ys) / Qlen ys.

(** The real number [num / sqrt rad], for [0 < rad]. *)
Record root : Type := Root { num : Q; rad : Q }.

(** [scipy.stats.zscore(a, nan_policy='omit')]: NaN stays NaN; a column
    without values, or of standard deviation 0, gives NaN everywhere.
    The mean and the variance are the exact ones of the values, where
    scipy has their float64 roundings. *)
Definition zscore (xs : list (option Q)) : list (option root) :=
  let ys := omit xs in
  let m := mean ys in
  let v := var ys in
  map (fun x =>
         match x with
         | Some q => if Qlt_bool 0 v then Some (Root (q - m) v) else None
         | None => None
         end) xs.

(** [z.abs() > 3] for one entry; a comparison with NaN is False.  The
    test is on the exact z-score, [9 * v < d * d]; pandas compares the
    rounded one, which can fall on the other side of 3 when the exact
    one is within rounding of it. *)
Definition abs_gt_3 (z : option root) : bool :=
  match z with
  | Some (Root d v) => Qlt_bool (9 * v) (sq d)
  | None => false
  end.

Fixpoint insert (x : Q) (s : list Q) : list Q :=
  match s with
  | [] => [x]
  | y :: r => if Qle_bool x y then x :: s else y :: insert x r
  end.

Definition sort (ys : list Q) : list Q := fold_right insert [] ys.

(** [Series.median()] over the values that are numbers: the middle of the
    sorted values, the mean of the two middle ones when their number is
    even, NaN when there is none. *)
Definition median (ys : list Q) : option Q :=
  let s := sort ys in
  let n := length s in
  match n with
  | O => None
  | _ =>
      if Nat.even n
      then Some ((nth (n / 2 - 1) s 0 + nth (n / 2) s 0) / 2)
      else Some (nth (n / 2) s 0)
  end.

(** [Series.fillna(value)]; filling with NaN changes nothing. *)
Definition fillna (value : option Q) (xs : list (option Q)) : list (option Q) :=
  match value with
  | Some m => map (fun x => match x with Some q => Some q | None => Some m end) xs
  | None => xs
  end.

Definition isna {A : Type} (xs : list (option A)) : list bool :=
  map (fun x => match x with Some _ => false | None => true end) xs.

Definition count_true (bs : list bool) : nat := length (filter (fun b => b) bs).

End Stats.

(** ** Data frames *)

Module Frame.

Import Stats.

(** A column with its dtype.  [Floats] is float64 (an integer column is a
    float column without NaN), [Bools] is bool, [Stamps] is datetime64
    ([None] is NaT, an instant is taken exactly), the dtype [read_csv]
    gives the parsed [Timestamp].  Columns of text are not modelled. *)
Inductive series : Type :=
| Floats (xs : list (option Q))
| Bools (bs : list bool)
| Stamps (ts : list (option Q)).

(** A frame as it is read and as it is exported: its columns in order.
    All columns of a pandas frame have the same length, and [read_csv]
    gives them distinct names; the operations below are total on columns
    of any length and look a name up at its first column. *)
Definition frame : Type := list (string * series).

(** The frame while the pass runs also holds the [_zscore] columns. *)
Inductive wseries : Type :=
| Col (s : series)
| ZScores (zs : list (option root)).

Definition wframe : Type := list (string * wseries).

Definition of_frame (df : frame) : wframe :=
  map (fun c => (fst c, Col (snd c))) df.

(** What a step can raise.  [Unmodelled] stands for arithmetic on a
    [_zscore] column, which has no rational result; the pass never does
    it ([ErrorFacts.clean_error_kinds]). *)
Inductive error : Type :=
| KeyError (absent : list string)
| TypeError (col : string)
| Unmodelled (col : string).

Definition result (A : Type) : Type := (error + A)%type.

Definition ok {A : Type} (a : A) : result A := inr a.

Definition bind {A B : Type} (r : result A) (k : A -> result B) : result B :=
  match r with
  | inl e => inl e
  | inr a => k a
  end.

Notation "x <- r ;; k" := (bind r (fun x => k))
  (at level 61, r at next level, right associativity).

(** A loop whose body can raise. *)
Fixpoint foldM {A B : Type} (f : A -> B -> result A) (l : list B) (a : A)
  : result A :=
  match l with
  | [] => ok a
  | b :: r => a' <- f a b ;; foldM f r a'
  end.

(** [df.columns] *)
Definition columns {S : Type} (df : list (string * S)) : list string :=
  map fst df.

(** [df[col]]; [None] when [col not in df.columns]. *)
Fixpoint get {S : Type} (col : string) (df : list (string * S)) : option S :=
  match df with
  | [] => None
  | (n, s) :: r => if String.eqb col n then Some s else get col r
  end.

(** [col in df.columns] *)
Definition has {S : Type} (col : string) (df : list (string * S)) : bool :=
  match get col df with
  | Some _ => true
  | None => false
  end.

(** [df[col] = s]: the column is replaced where it is, or added last. *)
Fixpoint set_col {S : Type} (col : string) (s : S) (df : list (string * S))
  : list (string * S) :=
  match df with
  | [] => [(col, s)]
  | (n, s0) :: r =>
      if String.eqb col n then (n, s) :: r else (n, s0) :: set_col col s r
  end.

Definition slen (s : series) : nat :=
  match s with
  | Floats xs => length xs
  | Bools bs => length bs
  | Stamps ts => length ts
  end.

(** [len(df)] *)
Definition nrows (df : frame) : nat :=
  match df with
  | [] => O
  | (_, s) :: _ => slen s
  end.

(** [s.isna()] *)
Definition sisna (s : series) : list bool :=
  match s with
  | Floats xs => isna xs
  | Bools bs => map (fun _ => false) bs
  | Stamps ts => isna ts
  end.

Definition wisna (s : wseries) : list bool :=
  match s with
  | Col s => sisna s
  | ZScores zs => isna zs
  end.

(** Row removal: the entries whose mask bit is set are removed.  The mask
    has one bit per row; an entry past the end of the mask is kept. *)
Fixpoint drop {A : Type} (m : list bool) (xs : list A) : list A :=
  match m, xs with
  | b :: m', x :: xs' => if b then drop m' xs' else x :: drop m' xs'
  | _, _ => xs
  end.

Definition sdrop (m : list bool) (s : series) : series :=
  match s with
  | Floats xs => Floats (drop m xs)
  | Bools bs => Bools (drop m bs)
  | Stamps ts => Stamps (drop m ts)
  end.

Definition wdrop (m : list bool) (s : wseries) : wseries :=
  match s with
  | Col s => Col (sdrop m s)
  | ZScores zs => ZScores (drop m zs)
  end.

Definition drop_rows (m : list bool) (w : wframe) : wframe :=
  map (fun c => (fst c, wdrop m (snd c))) w.

(** Row-wise "or" of two masks. *)
Fixpoint or_mask (a b : list bool) : list bool :=
  match a, b with
  | [], _ => b
  | _, [] => a
  | x :: a', y :: b' => (x || y) :: or_mask a' b'
  end.

(** [str.endswith] *)
Fixpoint is_prefix (p l : list ascii) : bool :=
  match p, l with
  | [], _ => true
  | _ :: _, [] => false
  | a :: p', b :: l' => Ascii.eqb a b && is_prefix p' l'
  end.

Definition endswith (s suffix : string) : bool :=
  is_prefix (rev (list_ascii_of_string suffix)) (rev (list_ascii_of_string s)).

End Frame.

(** ** The cells of the notebook *)

Module Notebook.

Import Stats Frame.

Local Open Scope string_scope.

(** *** Cell 7ad52592: missing value report *)

Definition count_na (s : series) : nat := count_true (sisna s).

(** [100 * missing_count / len(df)] *)
Definition missing_pct (df : frame) (missing_count : nat) : Q :=
  (100 * inject_Z (Z.of_nat missing_count) / inject_Z (Z.of_nat (nrows df)))%Q.

(** One line per column that has a missing value: its name, the count and
    the percentage. *)
Definition missing_report (df : frame) : list (string * (nat * Q)) :=
  filter (fun line => Nat.ltb 0 (fst (snd line)))
    (map (fun c => (fst c, (count_na (snd c), missing_pct df (count_na (snd c)))))
       df).

(** [missing_report[missing_report['missing_pct'] > 5]] *)
Definition high_null_cols (df : frame) : list (string * (nat * Q)) :=
  filter (fun line => Qlt_bool 5 (snd (snd line))) (missing_report df).

(** *** Cell bf5f2149: outlier detection *)

Definition key_cols : list string :=
  ["GHI"; "DNI"; "DHI"; "ModA"; "ModB"; "WS"; "WSgust"].

(** [s.astype(float)]: True is 1.0, False is 0.0; a datetime64 column
    cannot be cast. *)
Definition as_float (s : series) : option (list (option Q)) :=
  match s with
  | Floats xs => Some xs
  | Bools bs => Some (map (fun b : bool => Some (if b then 1 else 0)%Q) bs)
  | Stamps _ => None
  end.

Definition astype_float (col : string) (s : wseries)
  : result (list (option Q)) :=
  match s with
  | Col s =>
      match as_float s with
      | Some xs => ok xs
      | None => inl (TypeError col)
      end
  | ZScores _ => inl (Unmodelled col)
  end.

(** The body of the loop: the two derived columns of [col].  The flags
    are those of the [_zscore] column just assigned. *)
Definition zscore_col (w : wframe) (col : string) : result wframe :=
  match get col w with
  | Some s =>
      xs <- astype_float col s ;;
      let z := zscore xs in
      let w1 := set_col (col ++ "_zscore") (ZScores z) w in
      ok (set_col (col ++ "_outlier") (Col (Bools (map abs_gt_3 z))) w1)
  | None => ok w
  end.

Definition zscore_cell (w : wframe) : result wframe :=
  foldM zscore_col key_cols w.

(** [s.sum()] *)
Definition col_sum (col : string) (s : wseries) : result Q :=
  match s with
  | Col (Floats xs) => ok (Qsum (omit xs))
  | Col (Bools bs) => ok (inject_Z (Z.of_nat (count_true bs)))
  | Col (Stamps _) => inl (TypeError col)
  | ZScores _ => inl (Unmodelled col)
  end.

(** [{col: df[col + '_outlier'].sum() for col in cols
      if col + '_outlier' in df.columns}] *)
Fixpoint outlier_counts_of (cols : list string) (w : wframe)
  : result (list (string * Q)) :=
  match cols with
  | [] => ok []
  | col :: r =>
      match get (col ++ "_outlier") w with
      | Some s =>
          n <- col_sum (col ++ "_outlier") s ;;
          rest <- outlier_counts_of r w ;;
          ok ((col, n) :: rest)
      | None => outlier_counts_of r w
      end
  end.

Definition outlier_counts (w : wframe) : result (list (string * Q)) :=
  outlier_counts_of key_cols w.

(** *** Cell 35dd3e22: imputation, row removal, derived columns *)

(** [median_val = df[col].median(); df[col].fillna(median_val)] *)
Definition fill (s : series) : series :=
  match s with
  | Floats xs => Floats (fillna (median (omit xs)) xs)
  | Bools bs => Bools bs
  | Stamps ts => Stamps (fillna (median (omit ts)) ts)
  end.

Definition fill_median (col : string) (s : wseries) : result wseries :=
  match s with
  | Col s => ok (Col (fill s))
  | ZScores _ => inl (Unmodelled col)
  end.

Definition impute_col (w : wframe) (col : string) : result wframe :=
  match get col w with
  | Some s =>
      if Nat.ltb 0 (count_true (wisna s))
      then s' <- fill_median col s ;; ok (set_col col s' w)
      else ok w
  | None => ok w
  end.

Definition impute (w : wframe) : result wframe :=
  foldM impute_col key_cols w.

(** The rows with a missing value in a column of [subset]. *)
Fixpoint na_mask (subset : list string) (w : wframe) : list bool :=
  match subset with
  | [] => []
  | col :: r =>
      match get col w with
      | Some s => or_mask (wisna s) (na_mask r w)
      | None => na_mask r w
      end
  end.

(** [df.dropna(subset=subset)]: a label of [subset] that is not a column
    is a [KeyError]. *)
Definition dropna (subset : list string) (w : wframe) : result wframe :=
  match filter (fun col => negb (has col w)) subset with
  | [] => ok (drop_rows (na_mask subset w) w)
  | absent => inl (KeyError absent)
  end.

(** The rows that [df[~s]] removes; [~] is defined on a bool column. *)
Definition flags (col : string) (s : wseries) : result (list bool) :=
  match s with
  | Col (Bools bs) => ok bs
  | _ => inl (TypeError col)
  end.

Definition remove_outliers_col (w : wframe) (col : string) : result wframe :=
  match get (col ++ "_outlier") w with
  | Some s => m <- flags (col ++ "_outlier") s ;; ok (drop_rows m w)
  | None => ok w
  end.

Definition remove_outliers (w : wframe) : result wframe :=
  foldM remove_outliers_col key_cols w.

Definition derived (c : string) : bool :=
  endswith c "_zscore" || endswith c "_outlier".

(** [df.drop(columns=[c for c in df.columns
                      if c.endswith('_zscore') or c.endswith('_outlier')])] *)
Definition drop_derived (w : wframe) : wframe :=
  filter (fun c => negb (derived (fst c))) w.

(** The frame that is left holds no [_zscore] column. *)
Fixpoint to_frame (w : wframe) : result frame :=
  match w with
  | [] => ok []
  | (n, Col s) :: r => df <- to_frame r ;; ok ((n, s) :: df)
  | (n, ZScores _) :: _ => inl (Unmodelled n)
  end.

Record report : Type := Report {
  missing : list (string * (nat * Q));
  outliers : list (string * Q)
}.

(** The cells in sequence.  [reset_index(drop=True)] renumbers the rows,
    which are kept here by position. *)
Definition clean (df : frame) : result (frame * report) :=
  w1 <- zscore_cell (of_frame df) ;;
  counts <- outlier_counts w1 ;;
  w2 <- impute w1 ;;
  w3 <- dropna key_cols w2 ;;
  w4 <- remove_outliers w3 ;;
  out <- to_frame (drop_derived w4) ;;
  ok (out, Report (missing_report df) counts).

(** *** Cell 07f72b2d: export.  [df.to_csv(clean_path, index=False)]
    writes the header, the column names in order, then the rows. *)
Definition clean_path : string := "../data/togo_clean.csv".

Definition to_csv_header (df : frame) : list string := columns df.

End Notebook.

(** ** The pass as the specification describes it

    The five steps of the specification, on the frame as a whole: the
    flags come from the data before imputation, the missing rows from the
    data after it. *)

Module Reference.

Import Stats Frame Notebook.

Definition is_key (c : string) : bool := existsb (String.eqb c) key_cols.

(** Step 1: the outlier flags of a target column. *)
Definition outlier_flags (s : series) : list bool :=
  match as_float s with
  | Some xs => map abs_gt_3 (zscore xs)
  | None => []
  end.

(** The rows flagged in any of the columns [cols] that are present. *)
Fixpoint outlier_rows_of (cols : list string) (df : frame) : list bool :=
  match cols with
  | [] => []
  | col :: r =>
      match get col df with
      | Some s => or_mask (outlier_flags s) (outlier_rows_of r df)
      | None => outlier_rows_of r df
      end
  end.

Definition outlier_rows (df : frame) : list bool :=
  outlier_rows_of key_cols df.

(** Step 2: every target column has its missing values replaced by its
    median. *)
Definition imputed (df : frame) : frame :=
  map (fun c => if is_key (fst c) then (fst c, fill (snd c)) else c) df.

(** Step 3: the rows with a missing value in any of the columns [cols]. *)
Fixpoint missing_rows_of (cols : list string) (df : frame) : list bool :=
  match cols with
  | [] => []
  | col :: r =>
      match get col df with
      | Some s => or_mask (sisna s) (missing_rows_of r df)
      | None => missing_rows_of r df
      end
  end.

Definition missing_rows (df : frame) : list bool :=
  missing_rows_of key_cols df.

Definition without_rows (m : list bool) (df : frame) : frame :=
  map (fun c => (fst c, sdrop m (snd c))) df.

(** Step 5: the columns that do not carry a derived name. *)
Definition without_derived (df : frame) : frame :=
  filter (fun c => negb (derived (fst c))) df.

(** Steps 3 and 4: the rows with a value still missing after imputation,
    and the rows flagged before it. *)
Definition removed_rows (df : frame) : list bool :=
  or_mask (missing_rows (imputed df)) (outlier_rows df).

Definition cleaned (df : frame) : frame :=
  without_derived (without_rows (removed_rows df) (imputed df)).

(** Column names are distinct, as [read_csv] makes them. *)
Fixpoint distinct (names : list string) : bool :=
  match names with
  | [] => true
  | n :: r => negb (existsb (String.eqb n) r) && distinct r
  end.

Definition unique_columns (df : frame) : bool := distinct (columns df).

(** Every target column is present, with a dtype that casts to float. *)
Definition castable (df : frame) (col : string) : bool :=
  match get col df with
  | Some s => match as_float s with Some _ => true | None => false end
  | None => false
  end.

Definition targets_ready (df : frame) : bool := forallb (castable df) key_cols.

(** The names of the target columns are distinct, and none is a derived
    name. *)
Definition good_keys (ks : list string) : Prop :=
  NoDup ks /\ Forall (fun k => derived k = false) ks.

(** The flags of a target column, by its name. *)
Definition flags_of (df : frame) (col : string) : list bool :=
  match get col df with
  | Some s => outlier_flags s
  | None => []
  end.

Definition or_masks (ms : list (list bool)) : list bool :=
  fold_right or_mask [] ms.

(** The outlier counts of the report: the number of flags set, for each
    target column. *)
Definition counts (df : frame) : list (string * Q) :=
  map (fun col => (col, inject_Z (Z.of_nat (count_true (flags_of df col)))))
    key_cols.

(** Imputation on a column of the working frame. *)
Definition wfill (s : wseries) : wseries :=
  match s with
  | Col s => Col (fill s)
  | ZScores zs => ZScores zs
  end.

Definition fill_keys (ks : list string) (c : string * wseries)
  : string * wseries :=
  if existsb (String.eqb (fst c)) ks then (fst c, wfill (snd c)) else c.

(** The columns of z-scores are where the pass put them. *)
Definition zscores_named (w : wframe) : Prop :=
  forall n zs, In (n, ZScores zs) w -> endswith n "_zscore" = true.

(** The errors of pandas. *)
Definition raised (e : error) : Prop :=
  (exists absent, e = KeyError absent) \/ (exists col, e = TypeError col).

End Reference.

(** ** Rows *)

Module Rows.

Import Stats Frame.

(** An entry of a column, with its dtype. *)
Inductive cell : Type :=
| Num (x : option Q)
| Flag (b : bool)
| Instant (t : option Q).

Definition cells (s : series) : list cell :=
  match s with
  | Floats xs => map Num xs
  | Bools bs => map Flag bs
  | Stamps ts => map Instant ts
  end.

(** A row: the entry of every column, under the name of the column. *)
Definition row : Type := list (string * cell).

Fixpoint add_column (name : string) (cs : list cell) (rs : list row)
  : list row :=
  match cs, rs with
  | c :: cs', r :: rs' => ((name, c) :: r) :: add_column name cs' rs'
  | _, _ => []
  end.

Definition rows_from (base : list row) (df : frame) : list row :=
  fold_right (fun c rs => add_column (fst c) (cells (snd c)) rs) base df.

(** The rows of a frame, in order. *)
Definition rows (df : frame) : list row :=
  rows_from (repeat [] (nrows df)) df.

(** [l] is [l'] without some of its entries. *)
Inductive subseq {A : Type} : list A -> list A -> Prop :=
| subseq_nil : subseq [] []
| subseq_keep (x : A) (l l' : list A) : subseq l l' -> subseq (x :: l) (x :: l')
| subseq_skip (x : A) (l l' : list A) : subseq l l' -> subseq l (x :: l').

End Rows.

(** ** Datasets used below *)

Module Examples.

Import Stats Frame Notebook.

Local Open Scope string_scope.
Local Open Scope Q_scope.

Definition zeros (n : nat) : series := Floats (repeat (Some 0) n).

(** The target columns other than GHI, without missing value or outlier. *)
Definition others (n : nat) : frame :=
  [("DNI", zeros n); ("DHI", zeros n); ("ModA", zeros n); ("ModB", zeros n);
   ("WS", zeros n); ("WSgust", zeros n)].

(** The scenario of the specification: [GHI = [10, 12, 11, 1000, NaN]]. *)
Definition ghi_scenario : list (option Q) :=
  [Some 10; Some 12; Some 11; Some 1000; None].

Definition scenario : frame := ("GHI", Floats ghi_scenario) :: others 5.

(** A frame whose output still has an outlier: once 1000 is removed, 10
    is more than three standard deviations from the new mean. *)
Definition twice : frame :=
  ("GHI", Floats (repeat (Some 0) 10 ++ [Some 10; Some 1000])%list)
    :: others 12.

(** A frame with the target columns and no row. *)
Definition no_rows : frame := ("GHI", Floats []) :: others 0.

(** A frame without six of the target columns. *)
Definition only_ghi : frame :=
  [("Timestamp", Stamps [Some 0; Some 60; Some 120]);
   ("GHI", Floats [Some 10; Some 12; Some 11])].

(** The scenario with a column of the input whose name ends in
    [_outlier]. *)
Definition with_flag_column : frame :=
  (scenario ++ [("rain_outlier", Bools [false; true; false; false; false])])%list.

(** Thirteen rows with a timestamp, a flag that is not a target, a missing
    value in two target columns and an outlier. *)
Definition sample : frame :=
  [("Timestamp",
    Stamps [Some 0; Some 60; Some 120; Some 180; Some 240; Some 300;
            Some 360; Some 420; Some 480; Some 540; Some 600; Some 660;
            Some 720]);
   ("GHI", Floats (repeat (Some 0) 10 ++ [Some 10; Some 1000; None])%list);
   ("DNI", Floats (None :: repeat (Some 5) 12));
   ("DHI", zeros 13); ("ModA", zeros 13); ("ModB", zeros 13);
   ("Cleaning",
    Bools [false; false; true; false; false; false; false; false; false;
           false; false; false; false]);
   ("WS", zeros 13); ("WSgust", zeros 13)].

(** What the pass returns on a frame on which it completes. *)
Definition run (df : frame) : frame * report :=
  match clean df with
  | inr r => r
  | inl _ => ([], Report [] [])
  end.

End Examples.

(** ** Conditions on the input *)

Module Checks.

Import Stats Frame Notebook Reference.

(** All columns have the length of the frame. *)
Definition rectangular (df : frame) : bool :=
  forallb (fun c => Nat.eqb (slen (snd c)) (nrows df)) df.

(** No column of the frame is named like a derived column. *)
Definition plain_names (df : frame) : bool :=
  forallb (fun c => negb (derived c)) (columns df).

(** The column is present with a dtype that [astype(float)] refuses. *)
Definition uncastable (df : frame) (col : string) : bool :=
  match get col df with
  | Some s => match as_float s with Some _ => false | None => true end
  | None => false
  end.

(** The labels of [key_cols] that are not columns of the frame. *)
Definition absent_targets (df : frame) : list string :=
  filter (fun col => negb (has col df)) key_cols.

(** The number of non-missing values of a column. *)
Definition count_values (xs : list (option Q)) : nat := length (omit xs).

(** The target column is present, casts to float and has a value. *)
Definition has_value (df : frame) (col : string) : bool :=
  match get col df with
  | Some s =>
      match as_float s with
      | Some xs => Nat.ltb 0 (count_values xs)
      | None => false
      end
  | None => false
  end.

Definition targets_valued (df : frame) : bool :=
  forallb (has_value df) key_cols.

(** The target column is present and misses no value. *)
Definition is_full (df : frame) (col : string) : bool :=
  match get col df with
  | Some s => Nat.eqb (count_na s) 0
  | None => false
  end.

Definition targets_full (df : frame) : bool := forallb (is_full df) key_cols.

(** No row is flagged in a target column. *)
Definition no_outlier (df : frame) : bool :=
  forallb negb (outlier_rows df).

(** Every column named [_outlier] is a column of flags. *)
Definition flags_only (w : wframe) : Prop :=
  forall k, get (k ++ "_outlier")%string w = None \/
            exists bs, get (k ++ "_outlier")%string w = Some (Col (Bools bs)).

(** No target column has more than nine values. *)
Definition few_values (df : frame) : bool :=
  forallb
    (fun col =>
       match get col df with
       | Some s =>
           match as_float s with
           | Some xs => Nat.leb (count_values xs) 9
           | None => true
           end
       | None => true
       end) key_cols.

(** *** The median, as the specification words it *)

(** The number of values below [v], and of values not above it. *)
Definition count_lt (v : Q) (ys : list Q) : nat :=
  length (filter (fun y => Qlt_bool y v) ys).

Definition count_le (v : Q) (ys : list Q) : nat :=
  length (filter (fun y => Qle_bool y v) ys).

(** [v] is the [j]-th smallest value of [ys], counted from 1. *)
Definition is_rank (j : nat) (v : Q) (ys : list Q) : Prop :=
  In v ys /\ (count_lt v ys < j)%nat /\ (j <= count_le v ys)%nat.

(** The median of the values: the middle one, the mean of the two middle
    ones when their number is even. *)
Definition is_median (m : Q) (ys : list Q) : Prop :=
  exists a b,
    is_rank ((length ys + 1) / 2) a ys /\
    is_rank (length ys / 2 + 1) b ys /\
    (m == (a + b) / 2)%Q.

End Checks.

(** ** Cell 0b34f52a: average ModA and ModB by cleaning flag *)

Module Impact.

Import Stats Frame Notebook.

Local Open Scope string_scope.

(** The entries of a column as numbers: what [groupby] compares and what
    [mean] averages (False is 0, True is 1). *)
Definition numbers (s : series) : list (option Q) :=
  match s with
  | Floats xs => xs
  | Bools bs => map (fun b : bool => Some (if b then 1 else 0)%Q) bs
  | Stamps ts => ts
  end.

(** The distinct values, each at its first occurrence. *)
Fixpoint uniques (l : list Q) : list Q :=
  match l with
  | [] => []
  | x :: r => x :: filter (fun y => negb (Qeq_bool x y)) (uniques r)
  end.

(** The group labels: the distinct keys, sorted; a row whose key is
    missing is in no group. *)
Definition labels (keys : list (option Q)) : list Q :=
  sort (uniques (omit keys)).

(** The values of the group of [label] that are not missing. *)
Fixpoint group (label : Q) (keys vals : list (option Q)) : list Q :=
  match keys, vals with
  | Some k :: ks, Some v :: vs =>
      if Qeq_bool k label then v :: group label ks vs else group label ks vs
  | _ :: ks, _ :: vs => group label ks vs
  | _, _ => []
  end.

(** The values that are in a group: those of the rows with a key. *)
Fixpoint grouped (keys vals : list (option Q)) : list Q :=
  match keys, vals with
  | Some _ :: ks, Some v :: vs => v :: grouped ks vs
  | _ :: ks, _ :: vs => grouped ks vs
  | _, _ => []
  end.

(** The mean of a group; NaN when it has no value. *)
Definition group_mean (label : Q) (keys vals : list (option Q)) : option Q :=
  match group label keys vals with
  | [] => None
  | g => Some (mean g)
  end.

(** The column of the group labels has the dtype of the key column. *)
Definition label_column (key : series) (ls : list Q) : series :=
  match key with
  | Floats _ => Floats (map Some ls)
  | Bools _ => Bools (map (fun l => negb (Qeq_bool l 0)) ls)
  | Stamps _ => Stamps (map Some ls)
  end.

(** The column of the group means: float64, datetime64 for instants. *)
Definition mean_column (key value : series) : series :=
  let means :=
    map (fun l => group_mean l (numbers key) (numbers value))
      (labels (numbers key)) in
  match value with
  | Stamps _ => Stamps means
  | _ => Floats means
  end.

(** [df.groupby(name)[cols].mean().reset_index()]: a label that is not a
    column is a [KeyError]. *)
Definition groupby_mean (name : string) (cols : list string) (df : frame)
  : result frame :=
  match get name df with
  | None => inl (KeyError [name])
  | Some key =>
      match filter (fun col => negb (has col df)) cols with
      | [] =>
          ok ((name, label_column key (labels (numbers key)))
                :: flat_map
                     (fun col =>
                        match get col df with
                        | Some value => [(col, mean_column key value)]
                        | None => []
                        end) cols)
      | absent => inl (KeyError absent)
      end
  end.

(** The cell: [None] when it prints that there is no [Cleaning] column. *)
Definition cleaning_group (df : frame) : option (result frame) :=
  if has "Cleaning" df
  then Some (groupby_mean "Cleaning" ["ModA"; "ModB"] df)
  else None.

End Impact.

(** ** More datasets *)

Module MoreExamples.

Import Stats Frame Notebook Examples.

Local Open Scope string_scope.
Local Open Scope Q_scope.

(** A target column of instants. *)
Definition stamped : frame :=
  [("GHI", Floats [Some 1; Some 2]); ("DNI", Stamps [Some 0; Some 60])].

(** A target column without any value. *)
Definition hollow : frame :=
  ("GHI", Floats [None; None; None]) :: others 3.

(** Nothing to clean. *)
Definition tidy : frame :=
  ("Timestamp", Stamps [Some 0; Some 60; Some 120])
    :: ("GHI", Floats [Some 1; Some 2; Some 3]) :: others 3.

(** A column with a missing value and a value in every target column. *)
Definition gappy : frame :=
  ("GHI", Floats [None; Some 4; Some 2]) :: others 3.


(** A column whose values are not in order, with a missing entry; an
    outlier in another column. *)
Definition unsorted : frame :=
  [("GHI",
    Floats [Some 7; None; Some 1; Some 4; Some 3; Some 9; Some 2; Some 8;
            Some 6; Some 5; Some 10; Some 0]);
   ("DNI", Floats (repeat (Some 0) 10 ++ [Some 1000; Some 0])%list);
   ("DHI", zeros 12); ("ModA", zeros 12); ("ModB", zeros 12);
   ("WS", zeros 12); ("WSgust", zeros 12)].

(** A column of one value, with a missing entry; an outlier in another
    column. *)
Definition steady : frame :=
  [("GHI", Floats (Some 5 :: None :: repeat (Some 5) 10));
   ("DNI", Floats (repeat (Some 0) 10 ++ [Some 1000; Some 0])%list);
   ("DHI", zeros 12); ("ModA", zeros 12); ("ModB", zeros 12);
   ("WS", zeros 12); ("WSgust", zeros 12)].

End MoreExamples.

(** ** Cell b6e1a1da: the time series *)

Module Plots.

Import Stats Frame Notebook.

Local Open Scope string_scope.

Definition plot_cols : list string := ["GHI"; "DNI"; "DHI"; "Tamb"].

(** A curve of the figure: its label, the abscissas and the ordinates. *)
Record curve : Type := Curve {
  label : string;
  xdata : series;
  ydata : series
}.

(** The body of the loop: [axs[i].plot(df['Timestamp'], df[col])] for a
    column of the frame; [df['Timestamp']] is a [KeyError] when there is
    no such column. *)
Definition plot_col (df : frame) (drawn : list curve) (col : string)
  : result (list curve) :=
  if has col df
  then
    match get "Timestamp" df with
    | Some t =>
        match get col df with
        | Some s => ok (drawn ++ [Curve col t s])%list
        | None => ok drawn
        end
    | None => inl (KeyError ["Timestamp"])
    end
  else ok drawn.

(** The curves of the figure, in the order of the subplots. *)
Definition time_series (df : frame) : result (list curve) :=
  foldM (plot_col df) plot_cols [].

End Plots.

(** * Properties *)

(** ** Masks and row removal *)

Module MaskFacts.

Import Frame.

Lemma drop_nil (A : Type) (m : list bool) : drop m (@nil A) = [].
Proof. destruct m; reflexivity. Qed.

Lemma or_mask_nil_r (a : list bool) : or_mask a [] = a.
Proof. destruct a; reflexivity. Qed.

Lemma drop_map (A B : Type) (f : A -> B) (m : list bool) (xs : list A) :
  drop m (map f xs) = map f (drop m xs).
Proof.
  revert xs; induction m as [|b m IH]; intros [|x xs]; simpl; trivial.
  destruct b; rewrite IH; reflexivity.
Qed.

(** Removing rows twice, the second mask having lost the rows removed
    first, is removing the rows of either mask. *)
Lemma drop_drop (A : Type) (m1 m2 : list bool) (xs : list A) :
  drop (drop m1 m2) (drop m1 xs) = drop (or_mask m1 m2) xs.
Proof.
  revert m2 xs; induction m1 as [|a m1 IH]; intros m2 xs.
  - reflexivity.
  - destruct m2 as [|b m2].
    + simpl. destruct xs as [|x xs]; [reflexivity|].
      destruct a; reflexivity.
    + destruct xs as [|x xs].
      * simpl. rewrite !drop_nil. destruct a; reflexivity.
      * simpl. destruct a; simpl.
        -- apply IH.
        -- destruct b; simpl; rewrite IH; reflexivity.
Qed.

Lemma drop_or_mask (m a b : list bool) :
  drop m (or_mask a b) = or_mask (drop m a) (drop m b).
Proof.
  revert a b; induction m as [|c m IH]; intros a b.
  - reflexivity.
  - destruct a as [|x a].
    + reflexivity.
    + destruct b as [|y b].
      * simpl or_mask at 1. rewrite (@drop_nil bool (c :: m)), or_mask_nil_r.
        reflexivity.
      * simpl. destruct c; simpl; rewrite IH; reflexivity.
Qed.

Lemma drop_all_false (A : Type) (m : list bool) (xs : list A) :
  Forall (fun b => b = false) m -> drop m xs = xs.
Proof.
  intros H; revert xs; induction H as [|b m Hb _ IH]; intros [|x xs];
    simpl; trivial.
  subst b. rewrite IH. reflexivity.
Qed.

Lemma nth_or_mask (a b : list bool) (i : nat) :
  nth i (or_mask a b) false = nth i a false || nth i b false.
Proof.
  revert b i; induction a as [|x a IH]; intros b i.
  - simpl. destruct i; reflexivity.
  - destruct b as [|y b].
    + simpl or_mask. destruct (nth i (x :: a) false), i; reflexivity.
    + destruct i; simpl; [reflexivity | apply IH].
Qed.

(** What is left after a removal was at a position the mask leaves. *)
Lemma In_drop (A : Type) (m : list bool) (xs : list A) (x : A) :
  In x (drop m xs) ->
  exists i, nth_error xs i = Some x /\ nth i m false = false.
Proof.
  revert xs; induction m as [|b m IH]; intros xs H.
  - simpl in H. apply In_nth_error in H. destruct H as [i H].
    exists i; split; [exact H | destruct i; reflexivity].
  - destruct xs as [|y xs]; [contradiction|].
    simpl in H. destruct b.
    + apply IH in H. destruct H as (i & H1 & H2). exists (S i); auto.
    + destruct H as [H | H].
      * exists O; subst; auto.
      * apply IH in H. destruct H as (i & H1 & H2). exists (S i); auto.
Qed.

End MaskFacts.

(** ** Columns by name *)

Module FrameFacts.

Import Frame MaskFacts.

Section Columns.

Variable S : Type.
Implicit Types (w : list (string * S)) (s : S) (n col : string).

Lemma get_set_same col s w : get col (set_col col s w) = Some s.
Proof.
  induction w as [|[n s0] w IH]; simpl.
  - rewrite String.eqb_refl. reflexivity.
  - destruct (String.eqb col n) eqn:E; simpl; rewrite E; auto.
Qed.

Lemma get_set_other n col s w :
  n <> col -> get n (set_col col s w) = get n w.
Proof.
  intros Hn. induction w as [|[n0 s0] w IH]; simpl.
  - apply String.eqb_neq in Hn. rewrite Hn. reflexivity.
  - destruct (String.eqb col n0) eqn:E; simpl.
    + apply String.eqb_eq in E. subst n0.
      apply String.eqb_neq in Hn. rewrite Hn. reflexivity.
    + rewrite IH. reflexivity.
Qed.

Lemma get_In col s w : get col w = Some s -> In (col, s) w.
Proof.
  induction w as [|[n s0] w IH]; simpl; [discriminate|].
  destruct (String.eqb col n) eqn:E.
  - apply String.eqb_eq in E. intros [= ->]. subst. auto.
  - auto.
Qed.

Lemma get_None_columns col w : get col w = None <-> ~ In col (columns w).
Proof.
  induction w as [|[n s0] w IH]; simpl.
  - tauto.
  - destruct (String.eqb col n) eqn:E.
    + apply String.eqb_eq in E. subst. split; [discriminate | tauto].
    + apply String.eqb_neq in E. rewrite IH. split.
      * intros H [H1 | H1]; [congruence | tauto].
      * tauto.
Qed.

(** Assigning a column that is present keeps the columns and their
    order. *)
Lemma columns_set_present col s s0 w :
  get col w = Some s0 -> columns (set_col col s w) = columns w.
Proof.
  induction w as [|[n s1] w IH]; simpl; [discriminate|].
  destruct (String.eqb col n) eqn:E; simpl; [reflexivity|].
  intros H. rewrite (IH H). reflexivity.
Qed.

Lemma columns_set_absent col s w :
  get col w = None -> columns (set_col col s w) = columns w ++ [col].
Proof.
  induction w as [|[n s1] w IH]; simpl; [reflexivity|].
  destruct (String.eqb col n) eqn:E; simpl; [discriminate|].
  intros H. rewrite (IH H). reflexivity.
Qed.

(** With distinct names, assigning a present column rewrites the one
    column of that name. *)
Lemma set_col_map col s s0 w :
  NoDup (columns w) -> get col w = Some s0 ->
  set_col col s w =
  map (fun c => if String.eqb (fst c) col then (fst c, s) else c) w.
Proof.
  induction w as [|[n s1] w IH]; simpl; [discriminate|].
  intros Hnd. inversion Hnd as [|? ? Hn Hw]; subst.
  rewrite (String.eqb_sym n col).
  destruct (String.eqb col n) eqn:E.
  - apply String.eqb_eq in E. subst n. intros _. f_equal.
    clear IH Hnd Hw. induction w as [|[n2 s2] w IH2]; simpl; [reflexivity|].
    simpl in Hn. destruct (String.eqb n2 col) eqn:E2.
    + apply String.eqb_eq in E2. tauto.
    + f_equal. apply IH2. tauto.
  - intros H. f_equal. apply IH; assumption.
Qed.

End Columns.

Lemma get_map_snd (S T : Type) (f : S -> T) (n : string)
  (w : list (string * S)) :
  get n (map (fun c => (fst c, f (snd c))) w) = option_map f (get n w).
Proof.
  induction w as [|[n0 s0] w IH]; simpl; [reflexivity|].
  destruct (String.eqb n n0); auto.
Qed.

Lemma columns_map_snd (S T : Type) (f : S -> T) (w : list (string * S)) :
  columns (map (fun c => (fst c, f (snd c))) w) = columns w.
Proof.
  unfold columns. rewrite map_map. reflexivity.
Qed.

Lemma get_of_frame (n : string) (df : frame) :
  get n (of_frame df) = option_map Col (get n df).
Proof. apply get_map_snd. Qed.

Lemma get_drop_rows (n : string) (m : list bool) (w : wframe) :
  get n (drop_rows m w) = option_map (wdrop m) (get n w).
Proof. apply get_map_snd. Qed.

Lemma wdrop_wdrop (m1 m2 : list bool) (s : wseries) :
  wdrop (drop m1 m2) (wdrop m1 s) = wdrop (or_mask m1 m2) s.
Proof.
  destruct s as [[xs|bs|ts]|zs]; simpl; rewrite drop_drop; reflexivity.
Qed.

Lemma drop_rows_drop_rows (m1 m2 : list bool) (w : wframe) :
  drop_rows (drop m1 m2) (drop_rows m1 w) = drop_rows (or_mask m1 m2) w.
Proof.
  unfold drop_rows. rewrite map_map. apply map_ext.
  intros [n s]; simpl. rewrite wdrop_wdrop. reflexivity.
Qed.

Lemma drop_rows_nil_mask (w : wframe) : drop_rows [] w = w.
Proof.
  unfold drop_rows. rewrite <- (map_id w) at 2. apply map_ext.
  intros [n [[xs|bs|ts]|zs]]; reflexivity.
Qed.

End FrameFacts.

(** ** Column names *)

Module NameFacts.

Import Frame Notebook Reference.

Local Open Scope string_scope.

Lemma list_ascii_app (a b : string) :
  list_ascii_of_string (a ++ b) =
  (list_ascii_of_string a ++ list_ascii_of_string b)%list.
Proof. induction a as [|c a IH]; simpl; [reflexivity | now rewrite IH]. Qed.

Lemma is_prefix_app (p l : list ascii) : is_prefix p (p ++ l)%list = true.
Proof.
  induction p as [|a p IH]; simpl; [reflexivity|].
  rewrite Ascii.eqb_refl. exact IH.
Qed.

Lemma endswith_append (k suffix : string) : endswith (k ++ suffix) suffix = true.
Proof.
  unfold endswith. rewrite list_ascii_app, rev_app_distr. apply is_prefix_app.
Qed.

Lemma derived_zscore (k : string) : derived (k ++ "_zscore") = true.
Proof. unfold derived. rewrite endswith_append. reflexivity. Qed.

Lemma derived_outlier (k : string) : derived (k ++ "_outlier") = true.
Proof. unfold derived. rewrite endswith_append. apply orb_true_r. Qed.

Lemma zscore_not_outlier (k k' : string) : k ++ "_zscore" <> k' ++ "_outlier".
Proof.
  intros H.
  assert (E : endswith (k ++ "_zscore") "_outlier" = true)
    by (rewrite H; apply endswith_append).
  unfold endswith in E. rewrite list_ascii_app, rev_app_distr in E.
  simpl in E. discriminate.
Qed.

Lemma list_ascii_inj (a b : string) :
  list_ascii_of_string a = list_ascii_of_string b -> a = b.
Proof.
  intros H. rewrite <- (string_of_list_ascii_of_string a),
    <- (string_of_list_ascii_of_string b), H. reflexivity.
Qed.

Lemma append_inv_suffix (a b suffix : string) :
  a ++ suffix = b ++ suffix -> a = b.
Proof.
  intros H. apply list_ascii_inj.
  apply (f_equal list_ascii_of_string) in H.
  rewrite !list_ascii_app in H. eapply app_inv_tail; eauto.
Qed.

Lemma distinct_NoDup (names : list string) :
  distinct names = true -> NoDup names.
Proof.
  induction names as [|n r IH]; simpl; intros H; constructor.
  - apply andb_prop in H. destruct H as [H _].
    apply negb_true_iff in H. intros Hin.
    assert (existsb (String.eqb n) r = true); [|congruence].
    apply existsb_exists. exists n. split; [exact Hin | apply String.eqb_refl].
  - apply andb_prop in H. tauto.
Qed.

Lemma NoDup_distinct (names : list string) :
  NoDup names -> distinct names = true.
Proof.
  induction 1 as [|n r Hn _ IH]; simpl; [reflexivity|].
  rewrite IH, andb_true_r. apply negb_true_iff.
  destruct (existsb (String.eqb n) r) eqn:E; [|reflexivity].
  apply existsb_exists in E. destruct E as (x & Hx & E).
  apply String.eqb_eq in E. subst. contradiction.
Qed.

Lemma is_key_In (c : string) : is_key c = true <-> In c key_cols.
Proof.
  unfold is_key. rewrite existsb_exists. split.
  - intros (x & Hx & E). apply String.eqb_eq in E. subst. exact Hx.
  - intros H. exists c. split; [exact H | apply String.eqb_refl].
Qed.

Lemma key_cols_good : good_keys key_cols.
Proof.
  split.
  - apply distinct_NoDup. reflexivity.
  - repeat constructor.
Qed.

Lemma good_keys_tail (k : string) (ks : list string) :
  good_keys (k :: ks) -> good_keys ks.
Proof.
  intros [H1 H2]. inversion H1; inversion H2; subst. split; assumption.
Qed.

Lemma key_not_derived (k : string) : In k key_cols -> derived k = false.
Proof.
  intros H. destruct key_cols_good as [_ F].
  rewrite Forall_forall in F. auto.
Qed.

End NameFacts.

(** ** The steps of the pass, one at a time *)

Module PassFacts.

Import Stats Frame Notebook Reference MaskFacts FrameFacts NameFacts.

Local Open Scope string_scope.

Lemma bind_inr (A B : Type) (r : result A) (k : A -> result B) (b : B) :
  bind r k = inr b -> exists a, r = inr a /\ k a = inr b.
Proof. destruct r as [e|a]; simpl; [discriminate | eauto]. Qed.

Ltac bind_inv H :=
  let a := fresh "a" in
  let Ha := fresh "Ha" in
  apply bind_inr in H; destruct H as (a & Ha & H).

Lemma drop_derived_set (c : string) (s : wseries) (w : wframe) :
  derived c = true -> drop_derived (set_col c s w) = drop_derived w.
Proof.
  intros Hc. induction w as [|[n s0] w IH]; simpl.
  - rewrite Hc. reflexivity.
  - destruct (String.eqb c n) eqn:E; simpl.
    + apply String.eqb_eq in E. subst n. rewrite Hc. reflexivity.
    + rewrite IH. reflexivity.
Qed.

Lemma NoDup_set_col (S : Type) (c : string) (s : S) (w : list (string * S)) :
  NoDup (columns w) -> NoDup (columns (set_col c s w)).
Proof.
  intros H. destruct (get c w) eqn:E.
  - erewrite columns_set_present; eauto.
  - rewrite columns_set_absent by assumption.
    apply get_None_columns in E.
    apply NoDup_rev in H. rewrite <- (rev_involutive (columns w ++ [c])).
    apply NoDup_rev. rewrite rev_app_distr. simpl. constructor; [|assumption].
    rewrite <- in_rev. assumption.
Qed.

(** *** Cell bf5f2149 *)

Lemma zscore_col_inv (w w1 : wframe) (k : string) :
  zscore_col w k = inr w1 ->
  (get k w = None /\ w1 = w) \/
  (exists s xs, get k w = Some s /\ astype_float k s = ok xs /\
     w1 = set_col (k ++ "_outlier") (Col (Bools (map abs_gt_3 (zscore xs))))
            (set_col (k ++ "_zscore") (ZScores (zscore xs)) w)).
Proof.
  unfold zscore_col. destruct (get k w) as [s|].
  - intros H. right. bind_inv H. injection H as <-. eauto.
  - intros [= <-]. auto.
Qed.

Lemma zscore_col_get (w w1 : wframe) (k n : string) :
  zscore_col w k = inr w1 ->
  n <> k ++ "_zscore" -> n <> k ++ "_outlier" -> get n w1 = get n w.
Proof.
  intros H N1 N2. apply zscore_col_inv in H.
  destruct H as [[_ ->] | (s & xs & _ & _ & ->)]; [reflexivity|].
  rewrite !get_set_other by assumption. reflexivity.
Qed.

Lemma zscore_col_flags (w w1 : wframe) (k : string) (s : wseries) :
  zscore_col w k = inr w1 -> get k w = Some s ->
  exists xs, astype_float k s = ok xs /\
    get (k ++ "_outlier") w1 = Some (Col (Bools (map abs_gt_3 (zscore xs)))).
Proof.
  intros H G. apply zscore_col_inv in H.
  destruct H as [[G' _] | (s' & xs & G' & C & ->)]; [congruence|].
  assert (s' = s) by congruence. subst s'.
  exists xs. split; [assumption | apply get_set_same].
Qed.

Lemma zscore_col_derived (w w1 : wframe) (k : string) :
  zscore_col w k = inr w1 -> drop_derived w1 = drop_derived w.
Proof.
  intros H. apply zscore_col_inv in H.
  destruct H as [[_ ->] | (s & xs & _ & _ & ->)]; [reflexivity|].
  rewrite !drop_derived_set;
    [reflexivity | apply derived_zscore | apply derived_outlier].
Qed.

Lemma zscore_col_NoDup (w w1 : wframe) (k : string) :
  zscore_col w k = inr w1 -> NoDup (columns w) -> NoDup (columns w1).
Proof.
  intros H. apply zscore_col_inv in H.
  destruct H as [[_ ->] | (s & xs & _ & _ & ->)]; [trivial|].
  intros Hw. repeat apply NoDup_set_col. assumption.
Qed.

(** A name that is not derived is neither of the two names a step
    assigns. *)
Lemma not_derived_names (n k : string) :
  derived n = false -> n <> k ++ "_zscore" /\ n <> k ++ "_outlier".
Proof.
  intros H. split; intros ->.
  - rewrite derived_zscore in H. discriminate.
  - rewrite derived_outlier in H. discriminate.
Qed.

Lemma zscore_fold_get (ks : list string) (w w' : wframe) (n : string) :
  foldM zscore_col ks w = inr w' ->
  (forall k, In k ks -> n <> k ++ "_zscore" /\ n <> k ++ "_outlier") ->
  get n w' = get n w.
Proof.
  revert w; induction ks as [|k ks IH]; simpl; intros w H Hn.
  - injection H as <-. reflexivity.
  - bind_inv H. rewrite (IH _ H) by auto.
    destruct (Hn k) as [N1 N2]; auto.
    eapply zscore_col_get; eauto.
Qed.

Lemma zscore_fold_derived (ks : list string) (w w' : wframe) :
  foldM zscore_col ks w = inr w' -> drop_derived w' = drop_derived w.
Proof.
  revert w; induction ks as [|k ks IH]; simpl; intros w H.
  - injection H as <-. reflexivity.
  - bind_inv H. rewrite (IH _ H). eapply zscore_col_derived; eauto.
Qed.

Lemma zscore_fold_NoDup (ks : list string) (w w' : wframe) :
  foldM zscore_col ks w = inr w' -> NoDup (columns w) -> NoDup (columns w').
Proof.
  revert w; induction ks as [|k ks IH]; simpl; intros w H Hw.
  - injection H as <-. assumption.
  - bind_inv H. eapply IH; eauto. eapply zscore_col_NoDup; eauto.
Qed.

(** After the loop, every target column that is present has been cast,
    and its flags are those of its z-scores. *)
Lemma zscore_fold_flags (ks : list string) (w w' : wframe) (k : string)
  (s : wseries) :
  good_keys ks -> foldM zscore_col ks w = inr w' ->
  In k ks -> get k w = Some s ->
  exists xs, astype_float k s = ok xs /\
    get (k ++ "_outlier") w' = Some (Col (Bools (map abs_gt_3 (zscore xs)))).
Proof.
  revert w; induction ks as [|k0 ks IH]; simpl; intros w Hg H Hin G;
    [contradiction|].
  bind_inv H. pose proof (good_keys_tail Hg) as Hg'.
  destruct Hg as [Hnd Hder]. inversion Hnd as [|? ? Hk0 _]; subst.
  inversion Hder as [|? ? Hd0 Hdr]; subst.
  destruct Hin as [-> | Hin].
  - destruct (zscore_col_flags _ _ Ha G) as (xs & C & F).
    exists xs. split; [assumption|].
    rewrite (zscore_fold_get _ _ H); [assumption|].
    intros k' Hk'. split.
    + intros E. symmetry in E. revert E. apply zscore_not_outlier.
    + intros E. apply append_inv_suffix in E. subst. contradiction.
  - apply (IH a); auto.
    rewrite Forall_forall in Hdr.
    destruct (@not_derived_names k k0 (Hdr k Hin)).
    rewrite (zscore_col_get _ _ Ha); assumption.
Qed.

(** *** Cell 35dd3e22: imputation *)

Lemma In_get (S : Type) (n : string) (s : S) (w : list (string * S)) :
  NoDup (columns w) -> In (n, s) w -> get n w = Some s.
Proof.
  induction w as [|[n0 s0] w IH]; simpl; [contradiction|].
  intros Hnd [E | Hin]; inversion Hnd as [|? ? Hn0 Hw]; subst.
  - injection E as -> ->. rewrite String.eqb_refl. reflexivity.
  - destruct (String.eqb n n0) eqn:E.
    + apply String.eqb_eq in E. subst n0. exfalso. apply Hn0.
      change n with (fst (n, s)). apply in_map. assumption.
    + auto.
Qed.

Lemma fillna_noop (value : option Q) (xs : list (option Q)) :
  count_true (isna xs) = O -> fillna value xs = xs.
Proof.
  destruct value as [m|]; [|reflexivity]. simpl.
  induction xs as [|[q|] xs IH]; simpl; intros H.
  - reflexivity.
  - rewrite IH; [reflexivity | exact H].
  - discriminate.
Qed.

Lemma wfill_noop (s : wseries) : count_true (wisna s) = O -> wfill s = s.
Proof.
  destruct s as [[xs|bs|ts]|zs]; simpl; intros H; try reflexivity;
    rewrite fillna_noop; auto.
Qed.

Lemma fill_keys_names (ks : list string) (c : string * wseries) :
  fst (fill_keys ks c) = fst c.
Proof. unfold fill_keys. destruct (existsb _ ks); reflexivity. Qed.

Lemma columns_fill_keys (ks : list string) (w : wframe) :
  columns (map (fill_keys ks) w) = columns w.
Proof.
  unfold columns. rewrite map_map. apply map_ext. apply fill_keys_names.
Qed.

Lemma impute_col_map (w w1 : wframe) (k : string) :
  NoDup (columns w) -> impute_col w k = inr w1 -> w1 = map (fill_keys [k]) w.
Proof.
  intros Hnd. unfold impute_col.
  assert (Hid : forall s, (forall c, In c w -> fst c = k -> wfill (snd c) = s
                                     /\ snd c = s) ->
                w = map (fill_keys [k]) w).
  { intros s Hs. rewrite <- (map_id w) at 1. apply map_ext_in.
    intros [n s0] Hin. unfold fill_keys. simpl.
    destruct (String.eqb n k) eqn:E; simpl; [|reflexivity].
    apply String.eqb_eq in E. subst n.
    destruct (Hs _ Hin eq_refl) as [E1 E2]. simpl in *. congruence. }
  destruct (get k w) as [s|] eqn:G.
  - assert (Hk : forall c, In c w -> fst c = k -> snd c = s).
    { intros [n s0] Hin E. simpl in *. subst n.
      apply In_get in Hin; congruence. }
    destruct (Nat.ltb 0 (count_true (wisna s))) eqn:L.
    + intros H. bind_inv H. injection H as <-.
      assert (a = wfill s).
      { destruct s as [cs|zs]; simpl in Ha; [|discriminate].
        injection Ha as <-. reflexivity. }
      subst a. erewrite set_col_map by eauto. apply map_ext_in.
      intros [n s0] Hin. unfold fill_keys. simpl.
      destruct (String.eqb n k) eqn:E; simpl; [|reflexivity].
      apply String.eqb_eq in E. pose proof (Hk _ Hin E) as E2.
      simpl in E2. subst. reflexivity.
    + intros [= <-]. apply Hid with (s := s).
      intros c Hin E. rewrite (Hk c Hin E). split; [|reflexivity].
      apply wfill_noop. apply Nat.ltb_ge in L. lia.
  - intros [= <-]. apply Hid with (s := Col (Bools [])).
    intros [n s0] Hin E. simpl in E. subst n. exfalso.
    apply get_None_columns in G. apply G.
    change k with (fst (k, s0)). apply in_map. assumption.
Qed.

Lemma fill_keys_cons (k : string) (ks : list string) (c : string * wseries) :
  ~ In k ks -> fill_keys ks (fill_keys [k] c) = fill_keys (k :: ks) c.
Proof.
  intros Hk. destruct c as [n s]. unfold fill_keys. simpl.
  destruct (String.eqb n k) eqn:E; simpl; [|reflexivity].
  apply String.eqb_eq in E. subst n.
  destruct (existsb (String.eqb k) ks) eqn:X; [|reflexivity].
  apply existsb_exists in X. destruct X as (x & Hx & E).
  apply String.eqb_eq in E. subst. contradiction.
Qed.

(** The loop fills the target columns and leaves the other columns. *)
Lemma impute_fold_map (ks : list string) (w w' : wframe) :
  NoDup ks -> NoDup (columns w) ->
  foldM impute_col ks w = inr w' -> w' = map (fill_keys ks) w.
Proof.
  revert w; induction ks as [|k ks IH]; simpl; intros w Hks Hw H.
  - injection H as <-. rewrite <- (map_id w) at 1. apply map_ext.
    intros [n s]. reflexivity.
  - bind_inv H. inversion Hks as [|? ? Hk Hks']; subst.
    apply impute_col_map in Ha; [|assumption]. subst a.
    apply IH in H; [|assumption|rewrite columns_fill_keys; assumption].
    subst w'. rewrite map_map. apply map_ext.
    intros c. apply fill_keys_cons. assumption.
Qed.

(** *** Cell 35dd3e22: row removal *)

Lemma dropna_inv (ks : list string) (w w' : wframe) :
  dropna ks w = inr w' ->
  (forall k, In k ks -> has k w = true) /\
  w' = drop_rows (na_mask ks w) w.
Proof.
  unfold dropna.
  destruct (filter (fun col => negb (has col w)) ks) as [|a l] eqn:F;
    [|discriminate].
  intros [= <-]. split; [|reflexivity].
  intros k Hk. destruct (has k w) eqn:E; [reflexivity|].
  assert (Hin : In k (filter (fun col => negb (has col w)) ks))
    by (apply filter_In; rewrite E; auto).
  rewrite F in Hin. contradiction.
Qed.

Lemma dropna_present (ks : list string) (w : wframe) :
  (forall k, In k ks -> has k w = true) ->
  dropna ks w = inr (drop_rows (na_mask ks w) w).
Proof.
  intros H. unfold dropna.
  destruct (filter (fun col => negb (has col w)) ks) as [|a l] eqn:F;
    [reflexivity|].
  assert (Hin : In a (filter (fun col => negb (has col w)) ks))
    by (rewrite F; left; reflexivity).
  apply filter_In in Hin. destruct Hin as [Hin Hn].
  rewrite (H a Hin) in Hn. discriminate.
Qed.

Lemma or_masks_drop (m : list bool) (f : string -> list bool)
  (ks : list string) :
  or_masks (map (fun k => drop m (f k)) ks) = drop m (or_masks (map f ks)).
Proof.
  induction ks as [|k ks IH]; simpl.
  - rewrite drop_nil. reflexivity.
  - rewrite IH, drop_or_mask. reflexivity.
Qed.

(** The loop over the flag columns removes the rows flagged in any of
    them: each flag column has lost the rows removed before its turn. *)
Lemma remove_fold (ks : list string) (w : wframe) (f : string -> list bool) :
  (forall k, In k ks -> get (k ++ "_outlier") w = Some (Col (Bools (f k)))) ->
  foldM remove_outliers_col ks w = inr (drop_rows (or_masks (map f ks)) w).
Proof.
  revert w f; induction ks as [|k ks IH]; simpl; intros w f Hf.
  - rewrite drop_rows_nil_mask. reflexivity.
  - unfold remove_outliers_col at 1. rewrite (Hf k) by auto. simpl.
    rewrite (IH _ (fun k' => drop (f k) (f k'))).
    + rewrite or_masks_drop, drop_rows_drop_rows. reflexivity.
    + intros k' Hk'. rewrite get_drop_rows, (Hf k') by auto. reflexivity.
Qed.

Lemma outlier_counts_flags (ks : list string) (w : wframe)
  (f : string -> list bool) :
  (forall k, In k ks -> get (k ++ "_outlier") w = Some (Col (Bools (f k)))) ->
  outlier_counts_of ks w =
  inr (map (fun k => (k, inject_Z (Z.of_nat (count_true (f k))))) ks).
Proof.
  induction ks as [|k ks IH]; simpl; intros Hf; [reflexivity|].
  rewrite (Hf k) by auto. simpl. rewrite IH by auto. reflexivity.
Qed.

(** *** The working frame and the frame *)

Lemma to_frame_of_frame (df : frame) : to_frame (of_frame df) = inr df.
Proof.
  induction df as [|[n s] df IH]; simpl; [reflexivity|].
  fold (of_frame df). rewrite IH. reflexivity.
Qed.

Lemma drop_rows_of_frame (m : list bool) (df : frame) :
  drop_rows m (of_frame df) = of_frame (without_rows m df).
Proof.
  unfold drop_rows, of_frame, without_rows. rewrite !map_map. reflexivity.
Qed.

Lemma fill_keys_of_frame (df : frame) :
  map (fill_keys key_cols) (of_frame df) = of_frame (imputed df).
Proof.
  unfold of_frame, imputed. rewrite !map_map. apply map_ext.
  intros [n s]. unfold fill_keys, is_key. cbn [fst snd].
  destruct (existsb (String.eqb n) key_cols); reflexivity.
Qed.

Lemma drop_derived_of_frame (df : frame) :
  drop_derived (of_frame df) = of_frame (without_derived df).
Proof.
  unfold drop_derived, of_frame, without_derived.
  induction df as [|[n s] df IH]; simpl; [reflexivity|].
  destruct (derived n); simpl; rewrite IH; reflexivity.
Qed.

Lemma filter_map_names (S : Type) (p : string -> bool)
  (g : string * S -> string * S) (w : list (string * S)) :
  (forall c, fst (g c) = fst c) ->
  filter (fun c => p (fst c)) (map g w) = map g (filter (fun c => p (fst c)) w).
Proof.
  intros Hg. induction w as [|c w IH]; simpl; [reflexivity|].
  rewrite Hg. destruct (p (fst c)); simpl; rewrite IH; reflexivity.
Qed.

Lemma drop_derived_drop_rows (m : list bool) (w : wframe) :
  drop_derived (drop_rows m w) = drop_rows m (drop_derived w).
Proof.
  unfold drop_derived, drop_rows.
  apply (filter_map_names (fun n => negb (derived n))). reflexivity.
Qed.

Lemma drop_derived_fill_keys (ks : list string) (w : wframe) :
  drop_derived (map (fill_keys ks) w) = map (fill_keys ks) (drop_derived w).
Proof.
  unfold drop_derived.
  apply (filter_map_names (fun n => negb (derived n))).
  apply fill_keys_names.
Qed.

Lemma without_derived_without_rows (m : list bool) (df : frame) :
  without_derived (without_rows m df) = without_rows m (without_derived df).
Proof.
  unfold without_derived, without_rows.
  apply (filter_map_names (fun n => negb (derived n))). reflexivity.
Qed.

Lemma without_derived_imputed (df : frame) :
  without_derived (imputed df) = imputed (without_derived df).
Proof.
  unfold without_derived, imputed.
  apply (filter_map_names (fun n => negb (derived n))).
  intros [n s]. simpl. destruct (is_key n); reflexivity.
Qed.

Lemma cleaned_eq (df : frame) :
  cleaned df = without_rows (removed_rows df) (imputed (without_derived df)).
Proof.
  unfold cleaned.
  rewrite without_derived_without_rows, without_derived_imputed. reflexivity.
Qed.

(** *** Lookups after imputation *)

Lemma get_fill_keys (ks : list string) (n : string) (w : wframe) :
  get n (map (fill_keys ks) w) =
  option_map (fun s => if existsb (String.eqb n) ks then wfill s else s)
    (get n w).
Proof.
  induction w as [|[n0 s0] w IH]; simpl; [reflexivity|].
  unfold fill_keys at 1. cbn [fst snd].
  destruct (existsb (String.eqb n0) ks) eqn:X; simpl;
    destruct (String.eqb n n0) eqn:E; try exact IH;
    apply String.eqb_eq in E; subst n0; simpl; rewrite X; reflexivity.
Qed.

Lemma get_imputed (n : string) (df : frame) :
  get n (imputed df) =
  option_map (fun s => if is_key n then fill s else s) (get n df).
Proof.
  unfold imputed. induction df as [|[n0 s0] df IH]; simpl; [reflexivity|].
  destruct (String.eqb n n0) eqn:E.
  - apply String.eqb_eq in E. subst n0.
    destruct (is_key n); simpl; rewrite String.eqb_refl; reflexivity.
  - destruct (is_key n0); simpl; rewrite E; exact IH.
Qed.

Lemma existsb_keys_derived (ks : list string) (n : string) :
  Forall (fun k => derived k = false) ks -> derived n = true ->
  existsb (String.eqb n) ks = false.
Proof.
  intros Hks Hn. destruct (existsb (String.eqb n) ks) eqn:E; [|reflexivity].
  apply existsb_exists in E. destruct E as (k & Hk & E).
  apply String.eqb_eq in E. subst k.
  rewrite Forall_forall in Hks. rewrite (Hks n Hk) in Hn. discriminate.
Qed.

Lemma na_mask_frame (ks : list string) (w : wframe) (df : frame) :
  (forall k, In k ks -> get k w = option_map Col (get k df)) ->
  na_mask ks w = missing_rows_of ks df.
Proof.
  induction ks as [|k ks IH]; simpl; intros H; [reflexivity|].
  rewrite (H k) by auto. rewrite IH by auto.
  destruct (get k df); reflexivity.
Qed.

Lemma outlier_rows_of_masks (ks : list string) (df : frame) :
  outlier_rows_of ks df = or_masks (map (flags_of df) ks).
Proof.
  induction ks as [|k ks IH]; simpl; [reflexivity|].
  unfold flags_of at 1. rewrite IH. destruct (get k df); reflexivity.
Qed.

(** *** The loops complete on target columns that cast to float *)

Lemma zscore_fold_complete (ks : list string) (w : wframe) :
  Forall (fun k => derived k = false) ks ->
  (forall k, In k ks ->
     exists s xs, get k w = Some (Col s) /\ as_float s = Some xs) ->
  exists w', foldM zscore_col ks w = inr w'.
Proof.
  revert w; induction ks as [|k ks IH]; simpl; intros w Hd Hk.
  - eauto.
  - inversion Hd as [|? ? Hd0 Hdr]; subst.
    destruct (Hk k) as (s & xs & G & C); auto.
    assert (Hstep : exists w1, zscore_col w k = inr w1).
    { unfold zscore_col. rewrite G. simpl. rewrite C. simpl. eauto. }
    destruct Hstep as [w1 H1]. rewrite H1. simpl.
    apply IH; [assumption|].
    intros k' Hk'. destruct (Hk k') as (s' & xs' & G' & C'); auto.
    exists s', xs'. split; [|assumption].
    rewrite Forall_forall in Hdr.
    destruct (@not_derived_names k' k (Hdr k' Hk')).
    rewrite (zscore_col_get _ _ H1); assumption.
Qed.

Lemma impute_col_columns (w w1 : wframe) (k : string) :
  impute_col w k = inr w1 -> columns w1 = columns w.
Proof.
  unfold impute_col. destruct (get k w) as [s|] eqn:G.
  - destruct (Nat.ltb 0 (count_true (wisna s))).
    + intros H. bind_inv H. injection H as <-.
      eapply columns_set_present; eauto.
    + intros [= <-]. reflexivity.
  - intros [= <-]. reflexivity.
Qed.

Lemma impute_fold_columns (ks : list string) (w w' : wframe) :
  foldM impute_col ks w = inr w' -> columns w' = columns w.
Proof.
  revert w; induction ks as [|k ks IH]; simpl; intros w H.
  - injection H as <-. reflexivity.
  - bind_inv H. rewrite (IH _ H). eapply impute_col_columns; eauto.
Qed.

Lemma impute_fold_complete (ks : list string) (w : wframe) :
  (forall k, In k ks -> exists s, get k w = Some (Col s)) ->
  exists w', foldM impute_col ks w = inr w'.
Proof.
  revert w; induction ks as [|k ks IH]; simpl; intros w Hk.
  - eauto.
  - destruct (Hk k) as (s & G); auto.
    assert (Hstep : exists w1, impute_col w k = inr w1 /\
                      (w1 = w \/ w1 = set_col k (Col (fill s)) w)).
    { unfold impute_col. rewrite G.
      destruct (Nat.ltb 0 (count_true (wisna (Col s)))); simpl; eauto. }
    destruct Hstep as (w1 & H1 & Hw1). rewrite H1. simpl.
    apply IH. intros k' Hk'. destruct (Hk k') as (s' & G'); auto.
    destruct Hw1 as [-> | ->]; [eauto|].
    destruct (String.eqb k' k) eqn:E.
    + apply String.eqb_eq in E. subst k'. rewrite get_set_same. eauto.
    + apply String.eqb_neq in E. rewrite get_set_other by assumption. eauto.
Qed.

Lemma has_columns (S : Type) (k : string) (w : list (string * S)) :
  has k w = true <-> In k (columns w).
Proof.
  unfold has. destruct (get k w) eqn:G.
  - split; [|reflexivity]. intros _.
    apply get_In in G. change k with (fst (k, s)). apply in_map. assumption.
  - apply get_None_columns in G. split; [discriminate | contradiction].
Qed.

(** *** The pass as a whole *)

Lemma ready_castable (df : frame) :
  targets_ready df = true ->
  forall k, In k key_cols ->
    exists s xs, get k df = Some s /\ as_float s = Some xs.
Proof.
  unfold targets_ready. rewrite forallb_forall. intros H k Hk.
  specialize (H k Hk). unfold castable in H.
  destruct (get k df) as [s|]; [|discriminate].
  destruct (as_float s) as [xs|] eqn:E; [|discriminate]. eauto.
Qed.

(** On a frame whose target columns are all present and cast to float,
    the cells of the notebook compute the frame and the counts of the
    specification. *)
Theorem clean_ready (df : frame) :
  unique_columns df = true -> targets_ready df = true ->
  clean df = inr (cleaned df, Report (missing_report df) (counts df)).
Proof.
  intros Hu Hr. pose proof (ready_castable df Hr) as Hk.
  destruct key_cols_good as [Hnd Hder].
  assert (Hw0 : forall k, In k key_cols ->
            exists s xs, get k (of_frame df) = Some (Col s) /\
                         as_float s = Some xs).
  { intros k Hin. destruct (Hk k Hin) as (s & xs & G & C).
    exists s, xs. rewrite get_of_frame, G. auto. }
  destruct (@zscore_fold_complete key_cols (of_frame df) Hder Hw0) as [w1 H1].
  assert (Hget1 : forall n, derived n = false ->
            get n w1 = get n (of_frame df)).
  { intros n Hn. apply (@zscore_fold_get key_cols _ _ n H1).
    intros k _. apply not_derived_names; assumption. }
  assert (Hfl : forall k, In k key_cols ->
            get (k ++ "_outlier") w1 = Some (Col (Bools (flags_of df k)))).
  { intros k Hin. destruct (Hk k Hin) as (s & xs & G & C).
    assert (G0 : get k (of_frame df) = Some (Col s))
      by (rewrite get_of_frame, G; reflexivity).
    destruct (@zscore_fold_flags key_cols _ _ k _ key_cols_good H1 Hin G0)
      as (xs' & C' & F).
    simpl in C'. rewrite C in C'. injection C' as <-.
    rewrite F. unfold flags_of, outlier_flags. rewrite G, C. reflexivity. }
  assert (Hnd1 : NoDup (columns w1)).
  { apply (@zscore_fold_NoDup key_cols _ _ H1).
    unfold of_frame. rewrite columns_map_snd. apply distinct_NoDup. exact Hu. }
  assert (Hcol1 : forall k, In k key_cols -> exists s, get k w1 = Some (Col s)).
  { intros k Hin. destruct (Hw0 k Hin) as (s & xs & G & _). exists s.
    rewrite Hget1; [assumption|]. rewrite Forall_forall in Hder. auto. }
  destruct (@impute_fold_complete key_cols w1 Hcol1) as [w2 H2].
  pose proof (@impute_fold_map key_cols w1 w2 Hnd Hnd1 H2) as E2.
  assert (Hna : na_mask key_cols w2 = missing_rows (imputed df)).
  { apply na_mask_frame. intros k Hin. subst w2.
    rewrite get_fill_keys, get_imputed.
    rewrite Hget1 by (rewrite Forall_forall in Hder; auto).
    rewrite get_of_frame.
    assert (X : existsb (String.eqb k) key_cols = true)
      by (apply is_key_In; assumption).
    unfold is_key. rewrite X. destruct (get k df); reflexivity. }
  unfold clean, zscore_cell. rewrite H1. cbn [bind].
  unfold outlier_counts. rewrite (@outlier_counts_flags key_cols w1 _ Hfl).
  cbn [bind]. unfold impute. rewrite H2. cbn [bind].
  rewrite dropna_present.
  2:{ intros k Hin. unfold has. subst w2. rewrite get_fill_keys.
      destruct (Hcol1 k Hin) as (s & ->). reflexivity. }
  cbn [bind]. unfold remove_outliers.
  rewrite (@remove_fold key_cols _
             (fun k => drop (na_mask key_cols w2) (flags_of df k))).
  2:{ intros k Hin. rewrite get_drop_rows. subst w2. rewrite get_fill_keys.
      rewrite (@existsb_keys_derived key_cols _ Hder (derived_outlier k)).
      rewrite Hfl by assumption. reflexivity. }
  cbn [bind]. rewrite or_masks_drop, drop_rows_drop_rows, drop_derived_drop_rows.
  rewrite Hna. subst w2. rewrite drop_derived_fill_keys.
  rewrite (@zscore_fold_derived key_cols _ _ H1), drop_derived_of_frame,
    fill_keys_of_frame, drop_rows_of_frame, to_frame_of_frame.
  cbn [bind]. rewrite cleaned_eq. unfold removed_rows, outlier_rows.
  rewrite outlier_rows_of_masks. reflexivity.
Qed.

(** When the cells complete, every target column was present and cast
    to float. *)
Theorem clean_inr_ready (df : frame) (out : frame) (rep : report) :
  clean df = inr (out, rep) -> targets_ready df = true.
Proof.
  unfold clean. intros H.
  apply bind_inr in H. destruct H as (w1 & H1 & H).
  apply bind_inr in H. destruct H as (cs & _ & H).
  apply bind_inr in H. destruct H as (w2 & H2 & H).
  apply bind_inr in H. destruct H as (w3 & H3 & _).
  apply dropna_inv in H3. destruct H3 as [Hhas _].
  destruct key_cols_good as [Hnd Hder]. rewrite Forall_forall in Hder.
  unfold targets_ready. apply forallb_forall. intros k Hin.
  specialize (Hhas k Hin). apply has_columns in Hhas.
  rewrite (@impute_fold_columns key_cols _ _ H2) in Hhas.
  apply has_columns in Hhas. unfold has in Hhas.
  assert (G1 : get k w1 = get k (of_frame df)).
  { apply (@zscore_fold_get key_cols _ _ k H1).
    intros k' _. apply not_derived_names. auto. }
  rewrite G1, get_of_frame in Hhas. unfold castable.
  destruct (get k df) as [s|] eqn:G; [|discriminate].
  assert (G0 : get k (of_frame df) = Some (Col s))
    by (rewrite get_of_frame, G; reflexivity).
  destruct (@zscore_fold_flags key_cols _ _ k _ key_cols_good H1 Hin G0)
    as (xs & C & _).
  simpl in C. destruct (as_float s); [reflexivity | discriminate].
Qed.

End PassFacts.

(** ** Mean, variance and median *)

Module StatsFacts.

Import Stats.

Local Open Scope Q_scope.

Lemma Qlt_bool_true (a b : Q) : Qlt_bool a b = true <-> a < b.
Proof.
  unfold Qlt_bool. rewrite negb_true_iff. split.
  - intros H. apply Qnot_le_lt. intros L. apply Qle_bool_iff in L. congruence.
  - intros H. destruct (Qle_bool b a) eqn:E; [|reflexivity].
    apply Qle_bool_iff in E. exfalso. apply (Qlt_not_le _ _ H E).
Qed.

Lemma Qlt_bool_false (a b : Q) : Qlt_bool a b = false <-> b <= a.
Proof.
  unfold Qlt_bool. rewrite negb_false_iff. apply Qle_bool_iff.
Qed.

Lemma sq_nonneg (x : Q) : 0 <= sq x.
Proof. unfold sq. nra. Qed.

Lemma Qlen_nil : Qlen [] == 0.
Proof. reflexivity. Qed.

Lemma Qlen_cons (x : Q) (xs : list Q) : Qlen (x :: xs) == 1 + Qlen xs.
Proof.
  unfold Qlen. simpl length. rewrite Nat2Z.inj_succ, <- Z.add_1_l.
  rewrite inject_Z_plus. reflexivity.
Qed.

Lemma Qlen_nonneg (xs : list Q) : 0 <= Qlen xs.
Proof.
  induction xs as [|x xs IH]; [rewrite Qlen_nil; lra|].
  rewrite Qlen_cons. lra.
Qed.

Lemma Qlen_pos (x : Q) (xs : list Q) : 0 < Qlen (x :: xs).
Proof. rewrite Qlen_cons. pose proof (Qlen_nonneg xs). lra. Qed.

Lemma Qlen_app (xs ys : list Q) : Qlen (xs ++ ys) == Qlen xs + Qlen ys.
Proof.
  induction xs as [|x xs IH]; simpl app.
  - rewrite Qlen_nil. lra.
  - rewrite !Qlen_cons, IH. lra.
Qed.

Lemma Qsum_app (xs ys : list Q) : Qsum (xs ++ ys) == Qsum xs + Qsum ys.
Proof.
  induction xs as [|x xs IH]; simpl; [lra | rewrite IH; lra].
Qed.

Lemma Qsum_perm (xs ys : list Q) : Permutation xs ys -> Qsum xs == Qsum ys.
Proof.
  induction 1; simpl; try lra.
Qed.

Lemma Qsum_nonneg (f : Q -> Q) (xs : list Q) :
  (forall x, In x xs -> 0 <= f x) -> 0 <= Qsum (map f xs).
Proof.
  induction xs as [|x xs IH]; simpl; intros H; [lra|].
  assert (0 <= f x) by auto. assert (0 <= Qsum (map f xs)) by auto. lra.
Qed.

(** A sum of terms that are all at least [t]. *)
Lemma Qsum_lower (f : Q -> Q) (t : Q) (xs : list Q) :
  (forall x, In x xs -> t <= f x) -> Qlen xs * t <= Qsum (map f xs).
Proof.
  induction xs as [|x xs IH]; intros H.
  - simpl. rewrite Qlen_nil. lra.
  - rewrite Qlen_cons. simpl.
    assert (t <= f x) by (apply H; left; reflexivity).
    assert (Qlen xs * t <= Qsum (map f xs)) by (apply IH; intros; apply H; right; assumption).
    lra.
Qed.

Lemma Qsum_member (f : Q -> Q) (xs : list Q) (x : Q) :
  (forall y, In y xs -> 0 <= f y) -> In x xs -> f x <= Qsum (map f xs).
Proof.
  induction xs as [|y xs IH]; simpl; intros H Hin; [contradiction|].
  destruct Hin as [-> | Hin].
  - assert (0 <= Qsum (map f xs)) by (apply Qsum_nonneg; auto). lra.
  - assert (0 <= f y) by auto. assert (f x <= Qsum (map f xs)) by auto. lra.
Qed.

(** The sum of the squared deviations is the variance times the number of
    values. *)
Lemma var_sum (y : Q) (ys : list Q) :
  Qsum (map (fun x => sq (x - mean (y :: ys))) (y :: ys)) ==
  var (y :: ys) * Qlen (y :: ys).
Proof.
  unfold var. pose proof (Qlen_pos y ys). field. lra.
Qed.

Lemma var_nonneg (ys : list Q) : 0 <= var ys.
Proof.
  destruct ys as [|y ys].
  - vm_compute. discriminate.
  - pose proof (var_sum y ys) as E. pose proof (Qlen_pos y ys) as P.
    assert (S : 0 <= Qsum (map (fun x => sq (x - mean (y :: ys))) (y :: ys)))
      by (apply Qsum_nonneg; intros; apply sq_nonneg).
    rewrite E in S. clear E.
    set (v := var (y :: ys)) in *. set (l := Qlen (y :: ys)) in *. nra.
Qed.

(** A value deviates from the mean by no more than the whole sum. *)
Lemma deviation_le_sum (ys : list Q) (x : Q) :
  In x ys -> sq (x - mean ys) <= var ys * Qlen ys.
Proof.
  intros Hin. destruct ys as [|y ys]; [contradiction|].
  rewrite <- var_sum.
  apply (Qsum_member (fun x => sq (x - mean (y :: ys)))); [|assumption].
  intros; apply sq_nonneg.
Qed.

(** Without variance, every value is the mean. *)
Lemma deviation_zero_var (ys : list Q) (x : Q) :
  In x ys -> var ys <= 0 -> sq (x - mean ys) <= 9 * var ys.
Proof.
  intros Hin Hv. pose proof (deviation_le_sum ys x Hin) as D.
  pose proof (var_nonneg ys) as V. pose proof (Qlen_nonneg ys) as L.
  assert (E : var ys == 0) by lra. rewrite E in *. lra.
Qed.

(** *** Sorting *)

Lemma insert_perm (x : Q) (s : list Q) : Permutation (insert x s) (x :: s).
Proof.
  induction s as [|y s IH]; simpl; [reflexivity|].
  destruct (Qle_bool x y); [reflexivity|].
  rewrite IH. apply perm_swap.
Qed.

Lemma sort_perm (ys : list Q) : Permutation (sort ys) ys.
Proof.
  induction ys as [|y ys IH]; simpl; [reflexivity|].
  rewrite insert_perm, IH. reflexivity.
Qed.

Lemma insert_sorted (x : Q) (s : list Q) :
  StronglySorted Qle s -> StronglySorted Qle (insert x s).
Proof.
  induction 1 as [|y s Hs IH Hy]; simpl.
  - repeat constructor.
  - destruct (Qle_bool x y) eqn:E.
    + apply Qle_bool_iff in E. constructor; [constructor; assumption|].
      constructor; [assumption|].
      rewrite Forall_forall in *. intros z Hz.
      apply Qle_trans with y; auto.
    + assert (L : y <= x).
      { apply Qlt_le_weak, Qnot_le_lt. intros C.
        apply Qle_bool_iff in C. congruence. }
      constructor; [assumption|].
      rewrite Forall_forall in *. intros z Hz.
      apply (Permutation_in _ (insert_perm x s)) in Hz.
      destruct Hz as [<- | Hz]; auto.
Qed.

Lemma sort_sorted (ys : list Q) : StronglySorted Qle (sort ys).
Proof.
  induction ys as [|y ys IH]; simpl; [constructor|].
  apply insert_sorted. assumption.
Qed.

(** In a sorted list, what comes from position [u] on is at least the
    entry at [u], and what comes up to position [l] is at most the entry
    at [l]. *)
Lemma sorted_skipn (u : nat) (s : list Q) (y : Q) :
  StronglySorted Qle s -> (u < length s)%nat ->
  In y (skipn u s) -> nth u s 0 <= y.
Proof.
  intros Hs. revert u. induction Hs as [|x s Hs IH Hx]; intros u Hu Hin.
  - simpl in Hu. lia.
  - destruct u as [|u]; simpl in *.
    + destruct Hin as [<- | Hin]; [apply Qle_refl|].
      rewrite Forall_forall in Hx. auto.
    + apply IH; [lia | assumption].
Qed.

Lemma sorted_firstn (l : nat) (s : list Q) (y : Q) :
  StronglySorted Qle s -> (l < length s)%nat ->
  In y (firstn (S l) s) -> y <= nth l s 0.
Proof.
  intros Hs. revert l. induction Hs as [|x s Hs IH Hx]; intros l Hl Hin.
  - simpl in Hl. lia.
  - destruct l as [|l].
    + simpl in Hin. destruct Hin as [<- | []]. apply Qle_refl.
    + change (firstn (S (S l)) (x :: s)) with (x :: firstn (S l) s) in Hin.
      simpl in Hl. simpl nth. destruct Hin as [<- | Hin].
      * rewrite Forall_forall in Hx. apply Hx. apply nth_In. lia.
      * apply IH; [lia | assumption].
Qed.

Lemma sorted_nth_le (i j : nat) (s : list Q) :
  StronglySorted Qle s -> (i <= j)%nat -> (j < length s)%nat ->
  nth i s 0 <= nth j s 0.
Proof.
  intros Hs Hij Hj. apply sorted_skipn; [assumption | lia|].
  rewrite <- (firstn_skipn i s) at 1.
  assert (Hl : length (firstn i s) = i) by (rewrite length_firstn; lia).
  rewrite app_nth2 by lia. rewrite Hl. apply nth_In.
  rewrite length_skipn. lia.
Qed.

Lemma Qlen_le (xs ys : list Q) :
  (length xs <= length ys)%nat -> Qlen xs <= Qlen ys.
Proof.
  intros H. unfold Qlen. rewrite <- Zle_Qle. lia.
Qed.

Ltac div2 x :=
  pose proof (Nat.div_mod_eq x 2);
  pose proof (Nat.mod_upper_bound x 2 ltac:(lia)).

(** *** The median *)

(** The median lies between the two middle entries of the sorted
    values. *)
Lemma median_between (ys : list Q) (m : Q) :
  median ys = Some m ->
  (0 < length (sort ys))%nat /\
  nth ((length (sort ys) - 1) / 2) (sort ys) 0 <= m /\
  m <= nth (length (sort ys) / 2) (sort ys) 0.
Proof.
  unfold median.
  assert (Hs : StronglySorted Qle (sort ys)) by apply sort_sorted.
  revert Hs. generalize (sort ys). intros s Hs.
  destruct (length s) as [|n'] eqn:En; [discriminate|].
  rewrite <- En. assert (Hn : (0 < length s)%nat) by lia. clear En n'.
  div2 (length s). div2 (length s - 1)%nat.
  destruct (Nat.even (length s)) eqn:E; intros [= <-].
  - apply Nat.even_spec in E. destruct E as [k E].
    assert (E1 : (length s / 2 - 1 = (length s - 1) / 2)%nat) by lia.
    change (fst (Nat.divmod (length s) 1 0 1)) with (length s / 2)%nat.
    rewrite E1. split; [assumption|].
    assert (L : nth ((length s - 1) / 2) s 0 <= nth (length s / 2) s 0)
      by (apply sorted_nth_le; [assumption | lia | lia]).
    split; [apply Qle_shift_div_l | apply Qle_shift_div_r]; lra.
  - assert (O : Nat.odd (length s) = true)
      by (rewrite <- Nat.negb_even, E; reflexivity).
    apply Nat.odd_spec in O. destruct O as [k O].
    assert (E1 : ((length s - 1) / 2 = length s / 2)%nat) by lia.
    change (fst (Nat.divmod (length s) 1 0 1)) with (length s / 2)%nat.
    rewrite E1. split; [assumption|]. split; apply Qle_refl.
Qed.

Lemma var_sum_pos (ys : list Q) :
  (0 < length ys)%nat ->
  Qsum (map (fun x => sq (x - mean ys)) ys) == var ys * Qlen ys /\
  0 < Qlen ys.
Proof.
  destruct ys as [|y ys]; simpl length; [lia|]. intros _.
  split; [apply var_sum | apply Qlen_pos].
Qed.

(** Half of the values, all at a squared distance of at least [t] from
    the mean, bound [t] by twice the variance. *)
Lemma half_bound (V N A H T S1 S2 : Q) :
  0 <= V -> 0 < N -> 0 <= A -> A <= H -> N == A + H -> 0 <= T ->
  0 <= S1 -> H * T <= S2 -> S1 + S2 == V * N -> T <= 9 * V.
Proof.
  intros HV HN HA HAH EN HT HS1 HS2 E.
  assert (B : N * T <= 2 * (V * N)) by nra.
  destruct (Qlt_le_dec (2 * V) T) as [C|C]; [|lra].
  assert (N * (2 * V) < N * T) by nra. lra.
Qed.

(** The median is within three standard deviations of the mean (within
    the square root of two of them, in fact). *)
Lemma median_bound (ys : list Q) (m : Q) :
  median ys = Some m -> sq (m - mean ys) <= 9 * var ys.
Proof.
  intros Hm. destruct (median_between ys Hm) as (Hn & Hlo & Hhi).
  pose proof (sort_sorted ys) as Hs. pose proof (sort_perm ys) as P.
  revert Hn Hlo Hhi Hs P. generalize (sort ys). intros s Hn Hlo Hhi Hs P.
  assert (Hlen : length s = length ys) by (apply Permutation_length; exact P).
  destruct (@var_sum_pos ys) as [E1 HN]; [lia|].
  set (f := fun x => sq (x - mean ys)) in *.
  assert (E2 : Qsum (map f s) == Qsum (map f ys))
    by (apply Qsum_perm, Permutation_map; exact P).
  assert (Lq : Qlen s = Qlen ys) by (unfold Qlen; rewrite Hlen; reflexivity).
  pose proof (var_nonneg ys) as HV.
  div2 (length s). div2 (length s - 1)%nat.
  destruct (Qlt_le_dec m (mean ys)) as [C|C].
  - set (l := ((length s - 1) / 2)%nat) in *.
    assert (Hsplit : Qsum (map f s) ==
              Qsum (map f (firstn (S l) s)) + Qsum (map f (skipn (S l) s))).
    { rewrite <- (firstn_skipn (S l) s) at 1. rewrite map_app. apply Qsum_app. }
    assert (HQ : Qlen s == Qlen (skipn (S l) s) + Qlen (firstn (S l) s)).
    { rewrite <- (firstn_skipn (S l) s) at 1. rewrite Qlen_app. lra. }
    apply (@half_bound (var ys) (Qlen ys) (Qlen (skipn (S l) s))
             (Qlen (firstn (S l) s)) (sq (m - mean ys))
             (Qsum (map f (skipn (S l) s))) (Qsum (map f (firstn (S l) s))));
      try assumption.
    + apply Qlen_nonneg.
    + apply Qlen_le. rewrite length_skipn, length_firstn. unfold l. lia.
    + rewrite <- Lq. exact HQ.
    + apply sq_nonneg.
    + apply Qsum_nonneg. intros; apply sq_nonneg.
    + apply Qsum_lower. intros x Hx.
      assert (x <= nth l s 0) by (apply sorted_firstn; [assumption | unfold l; lia | assumption]).
      unfold f, sq. nra.
    + rewrite <- E1, <- E2, Hsplit. lra.
  - set (u := (length s / 2)%nat) in *.
    assert (Hsplit : Qsum (map f s) ==
              Qsum (map f (firstn u s)) + Qsum (map f (skipn u s))).
    { rewrite <- (firstn_skipn u s) at 1. rewrite map_app. apply Qsum_app. }
    assert (HQ : Qlen s == Qlen (firstn u s) + Qlen (skipn u s)).
    { rewrite <- (firstn_skipn u s) at 1. apply Qlen_app. }
    apply (@half_bound (var ys) (Qlen ys) (Qlen (firstn u s))
             (Qlen (skipn u s)) (sq (m - mean ys))
             (Qsum (map f (firstn u s))) (Qsum (map f (skipn u s))));
      try assumption.
    + apply Qlen_nonneg.
    + apply Qlen_le. rewrite length_skipn, length_firstn. unfold u. lia.
    + rewrite <- Lq. exact HQ.
    + apply sq_nonneg.
    + apply Qsum_nonneg. intros; apply sq_nonneg.
    + apply Qsum_lower. intros x Hx.
      assert (nth u s 0 <= x) by (apply sorted_skipn; [assumption | unfold u; lia | assumption]).
      unfold f, sq. nra.
    + rewrite <- E1, <- E2, Hsplit. lra.
Qed.

(** *** Columns without variance *)

Lemma Qsum_const (f : Q -> Q) (t : Q) (ys : list Q) :
  (forall y, In y ys -> f y == t) -> Qsum (map f ys) == Qlen ys * t.
Proof.
  induction ys as [|y ys IH]; intros H.
  - simpl. rewrite Qlen_nil. lra.
  - rewrite Qlen_cons. simpl. rewrite (H y) by (left; reflexivity).
    rewrite IH by (intros; apply H; right; assumption). lra.
Qed.

Lemma constant_var (ys : list Q) (c : Q) :
  (forall y, In y ys -> y == c) -> var ys == 0.
Proof.
  intros H. destruct ys as [|y0 ys]; [reflexivity|].
  pose proof (Qlen_pos y0 ys) as P.
  assert (M : mean (y0 :: ys) == c).
  { assert (S : Qsum (y0 :: ys) == Qlen (y0 :: ys) * c).
    { rewrite <- (map_id (y0 :: ys)) at 1.
      apply (@Qsum_const (fun y => y)). exact H. }
    unfold mean. rewrite S. field. lra. }
  unfold var.
  rewrite (@Qsum_const (fun y => sq (y - mean (y0 :: ys))) 0).
  - field. lra.
  - intros y Hy. cbv beta. unfold sq. rewrite M, (H y Hy). ring.
Qed.

(** The z-scores of a column without variance are NaN, and none is
    flagged. *)
Lemma constant_flags (xs : list (option Q)) :
  (forall a b, In a (omit xs) -> In b (omit xs) -> a == b) ->
  map abs_gt_3 (zscore xs) = map (fun _ => false) xs.
Proof.
  intros H. unfold zscore. cbv zeta. rewrite map_map. apply map_ext.
  intros [q|]; [|reflexivity].
  assert (V : var (omit xs) == 0).
  { destruct (omit xs) as [|c ys] eqn:E; [reflexivity|].
    apply constant_var with (c := c). intros y Hy. apply H; [assumption|].
    left; reflexivity. }
  assert (L : Qlt_bool 0 (var (omit xs)) = false)
    by (apply Qlt_bool_false; lra).
  rewrite L. reflexivity.
Qed.

(** *** What a cleaned column holds *)

(** An entry of the filled column is a value of the column, with its
    flag, or the fill value. *)
Lemma nth_filled (value : option Q) (g : option Q -> option root)
  (xs : list (option Q)) (i : nat) (y : Q) :
  nth_error (fillna value xs) i = Some (Some y) ->
  nth i (map abs_gt_3 (map g xs)) false = false ->
  (In y (omit xs) /\ abs_gt_3 (g (Some y)) = false) \/
  (value = Some y /\ nth_error xs i = Some None).
Proof.
  revert i; induction xs as [|x xs IH]; intros i Hn Hf.
  - destruct value, i; discriminate.
  - destruct i as [|i].
    + destruct value as [m|], x as [q|]; simpl in *;
        try discriminate; injection Hn as <-; auto.
    + assert (Hn' : nth_error (fillna value xs) i = Some (Some y))
        by (destruct value; exact Hn).
      destruct (IH i Hn' Hf) as [[H1 H2] | H]; [left | right; assumption].
      split; [|assumption]. destruct x; [right|]; assumption.
Qed.

(** Every number of the filled column that keeps its row is within three
    standard deviations of the mean before imputation. *)
Lemma kept_value_bound (xs : list (option Q)) (i : nat) (y : Q) :
  nth_error (fillna (median (omit xs)) xs) i = Some (Some y) ->
  nth i (map abs_gt_3 (zscore xs)) false = false ->
  sq (y - mean (omit xs)) <= 9 * var (omit xs).
Proof.
  intros Hn Hf. unfold zscore in Hf. cbv zeta in Hf.
  destruct (@nth_filled _ _ _ _ _ Hn Hf) as [[Hin Ha] | [Hm _]].
  - destruct (Qlt_bool 0 (var (omit xs))) eqn:L.
    + simpl in Ha. apply Qlt_bool_false in Ha. exact Ha.
    + apply Qlt_bool_false in L. apply deviation_zero_var; assumption.
  - apply median_bound. assumption.
Qed.

End StatsFacts.

(** ** The cleaned frame *)

Module CleanedFacts.

Import Stats Frame Notebook Reference.
Import MaskFacts FrameFacts NameFacts PassFacts StatsFacts.

Lemma count_true_zero (bs : list bool) :
  count_true bs = O <-> Forall (fun b => b = false) bs.
Proof.
  unfold count_true. induction bs as [|[|] bs IH]; simpl.
  - split; [constructor | reflexivity].
  - split; [discriminate | intros H; inversion H; discriminate].
  - rewrite IH. split; [constructor; auto | intros H; inversion H; auto].
Qed.

Lemma Forall_nth_false (bs : list bool) (i : nat) :
  Forall (fun b => b = false) bs -> nth i bs false = false.
Proof.
  intros H. revert i. induction H as [|b bs Hb _ IH]; intros [|i]; simpl; auto.
Qed.

Lemma sisna_sdrop (m : list bool) (s : series) :
  sisna (sdrop m s) = drop m (sisna s).
Proof.
  destruct s as [xs|bs|ts]; simpl; unfold isna; rewrite drop_map; reflexivity.
Qed.

Lemma nth_missing_rows (ks : list string) (df : frame) (k : string)
  (s : series) (i : nat) :
  In k ks -> get k df = Some s ->
  nth i (missing_rows_of ks df) false = false ->
  nth i (sisna s) false = false.
Proof.
  induction ks as [|k0 ks IH]; simpl; [contradiction|].
  intros [-> | Hin] G H.
  - rewrite G, nth_or_mask in H. apply orb_false_iff in H. tauto.
  - apply IH; try assumption.
    destruct (get k0 df); [|assumption].
    rewrite nth_or_mask in H. apply orb_false_iff in H. tauto.
Qed.

Lemma nth_outlier_rows (ks : list string) (df : frame) (k : string)
  (i : nat) :
  In k ks -> nth i (outlier_rows_of ks df) false = false ->
  nth i (flags_of df k) false = false.
Proof.
  induction ks as [|k0 ks IH]; simpl; [contradiction|].
  unfold flags_of. intros [-> | Hin] H.
  - destruct (get k df); [|destruct i; reflexivity].
    rewrite nth_or_mask in H. apply orb_false_iff in H. tauto.
  - apply IH; try assumption.
    destruct (get k0 df); [|assumption].
    rewrite nth_or_mask in H. apply orb_false_iff in H. tauto.
Qed.

Lemma get_without_derived (n : string) (df : frame) :
  derived n = false -> get n (without_derived df) = get n df.
Proof.
  intros Hn. unfold without_derived.
  induction df as [|[n0 s0] df IH]; simpl; [reflexivity|].
  destruct (derived n0) eqn:D; simpl.
  - destruct (String.eqb n n0) eqn:E; [|exact IH].
    apply String.eqb_eq in E. congruence.
  - rewrite IH. reflexivity.
Qed.

Lemma get_without_rows (n : string) (m : list bool) (df : frame) :
  get n (without_rows m df) = option_map (sdrop m) (get n df).
Proof. apply get_map_snd. Qed.

(** A target column of the cleaned frame is the column of the input,
    filled, without the removed rows. *)
Lemma get_cleaned_key (df : frame) (k : string) :
  In k key_cols ->
  get k (cleaned df) =
  option_map (fun s => sdrop (removed_rows df) (fill s)) (get k df).
Proof.
  intros Hk. unfold cleaned.
  rewrite get_without_derived by (apply key_not_derived; assumption).
  rewrite get_without_rows, get_imputed.
  apply is_key_In in Hk. rewrite Hk. destruct (get k df); reflexivity.
Qed.

Lemma as_float_filled (m : list bool) (s : series) (xs : list (option Q)) :
  as_float s = Some xs ->
  as_float (sdrop m (fill s)) =
  Some (drop m (fillna (median (omit xs)) xs)).
Proof.
  destruct s as [ys|bs|ts]; simpl; intros [= <-].
  - reflexivity.
  - rewrite fillna_noop.
    + rewrite drop_map. reflexivity.
    + induction bs as [|b bs IH]; [reflexivity | exact IH].
Qed.

(** A target column of the cleaned frame has no missing entry. *)
Lemma cleaned_key_no_missing (df : frame) (col : string) (s : series) :
  In col key_cols -> get col (cleaned df) = Some s -> count_na s = O.
Proof.
  intros Hk G. rewrite get_cleaned_key in G by assumption.
  destruct (get col df) as [s0|] eqn:G0; [|discriminate].
  injection G as <-. unfold count_na. apply count_true_zero.
  rewrite sisna_sdrop. apply Forall_forall. intros b Hb.
  destruct b; [|reflexivity]. exfalso.
  apply In_drop in Hb. destruct Hb as (i & Hn & Hm).
  unfold removed_rows in Hm. rewrite nth_or_mask in Hm.
  apply orb_false_iff in Hm. destruct Hm as [Hm _].
  apply (nth_missing_rows key_cols (imputed df) col (s := fill s0)) in Hm;
    try assumption.
  - apply (nth_error_nth _ _ false) in Hn. congruence.
  - rewrite get_imputed, G0. apply is_key_In in Hk. rewrite Hk. reflexivity.
Qed.

(** What the pass returns, when it returns. *)
Lemma clean_inr (df out : frame) (rep : report) :
  unique_columns df = true -> clean df = inr (out, rep) ->
  targets_ready df = true /\
  out = cleaned df /\
  rep = Report (missing_report df) (counts df).
Proof.
  intros Hu H. pose proof (clean_inr_ready df H) as Hr.
  rewrite (clean_ready df Hu Hr) in H. injection H as <- <-. auto.
Qed.

End CleanedFacts.

(** ** The errors the pass can raise *)

Module ErrorFacts.

Import Stats Frame Notebook Reference.
Import MaskFacts FrameFacts NameFacts PassFacts.

Local Open Scope string_scope.

Lemma In_set_col (S : Type) (c : string * S) (n : string) (s : S)
  (w : list (string * S)) :
  In c (set_col n s w) -> c = (n, s) \/ In c w.
Proof.
  induction w as [|[n0 s0] w IH]; simpl.
  - intros [<- | []]. auto.
  - destruct (String.eqb n n0) eqn:E; simpl.
    + apply String.eqb_eq in E. subst n0. intros [<- | H]; auto.
    + intros [<- | H]; auto. destruct (IH H); auto.
Qed.

Lemma zscores_named_set_zscore (w : wframe) (k : string)
  (zs : list (option root)) :
  zscores_named w -> zscores_named (set_col (k ++ "_zscore") (ZScores zs) w).
Proof.
  intros I n zs' Hin. apply In_set_col in Hin. destruct Hin as [E | Hin].
  - injection E as -> _. apply endswith_append.
  - eapply I; eauto.
Qed.

Lemma zscores_named_set_col (w : wframe) (n : string) (s : series) :
  zscores_named w -> zscores_named (set_col n (Col s) w).
Proof.
  intros I n' zs Hin. apply In_set_col in Hin. destruct Hin as [E | Hin].
  - discriminate.
  - eapply I; eauto.
Qed.

Lemma zscores_named_drop_rows (w : wframe) (m : list bool) :
  zscores_named w -> zscores_named (drop_rows m w).
Proof.
  intros I n zs Hin. unfold drop_rows in Hin. apply in_map_iff in Hin.
  destruct Hin as ([n0 s0] & E & Hin). simpl in E.
  destruct s0 as [s0|zs0]; simpl in E; [discriminate|].
  injection E as -> _. eapply I; eauto.
Qed.

Lemma zscores_named_of_frame (df : frame) : zscores_named (of_frame df).
Proof.
  intros n zs Hin. unfold of_frame in Hin. apply in_map_iff in Hin.
  destruct Hin as (c & E & _). discriminate.
Qed.

Lemma not_derived_not_zscore (n : string) :
  derived n = false -> endswith n "_zscore" = false.
Proof. unfold derived. intros H. apply orb_false_iff in H. tauto. Qed.

Lemma outlier_not_zscore (k : string) :
  endswith (k ++ "_outlier") "_zscore" = false.
Proof.
  unfold endswith. rewrite list_ascii_app, rev_app_distr. reflexivity.
Qed.

(** A column that is not named as a column of z-scores is not one. *)
Lemma get_not_zscores (w : wframe) (n : string) (zs : list (option root)) :
  zscores_named w -> endswith n "_zscore" = false ->
  get n w <> Some (ZScores zs).
Proof.
  intros I Hn G. apply get_In in G. apply I in G. congruence.
Qed.

Lemma zscore_col_step (w : wframe) (k : string) :
  zscores_named w -> derived k = false ->
  match zscore_col w k with
  | inl e => raised e
  | inr w1 => zscores_named w1
  end.
Proof.
  intros I Hk. unfold zscore_col.
  destruct (get k w) as [[s|zs]|] eqn:G; simpl.
  - destruct (as_float s); simpl.
    + apply zscores_named_set_col, zscores_named_set_zscore. exact I.
    + right. eauto.
  - exfalso. apply (@get_not_zscores w k zs I); [|exact G].
    apply not_derived_not_zscore. exact Hk.
  - exact I.
Qed.

Lemma zscore_fold_step (ks : list string) (w : wframe) :
  zscores_named w -> Forall (fun k => derived k = false) ks ->
  match foldM zscore_col ks w with
  | inl e => raised e
  | inr w1 => zscores_named w1
  end.
Proof.
  intros I Hks. revert w I. induction Hks as [|k ks Hk _ IH]; intros w I.
  - exact I.
  - simpl. pose proof (zscore_col_step k I Hk) as Hs.
    destruct (zscore_col w k) as [e|w1]; simpl; [exact Hs | apply IH; exact Hs].
Qed.

Lemma outlier_counts_step (ks : list string) (w : wframe) :
  zscores_named w ->
  match outlier_counts_of ks w with
  | inl e => raised e
  | inr _ => True
  end.
Proof.
  intros I. induction ks as [|k ks IH]; simpl; [exact Logic.I|].
  destruct (get (k ++ "_outlier") w) as [[[xs|bs|ts]|zs]|] eqn:G; simpl;
    try (destruct (outlier_counts_of ks w); simpl; [exact IH | exact Logic.I]).
  - right. eauto.
  - exfalso. apply (@get_not_zscores w (k ++ "_outlier") zs I); [|exact G].
    apply outlier_not_zscore.
Qed.

Lemma impute_col_step (w : wframe) (k : string) :
  zscores_named w -> derived k = false ->
  exists w1, impute_col w k = inr w1 /\ zscores_named w1.
Proof.
  intros I Hk. unfold impute_col.
  destruct (get k w) as [[s|zs]|] eqn:G.
  - destruct (Nat.ltb 0 (count_true (wisna (Col s)))); simpl.
    + eexists. split; [reflexivity|]. apply zscores_named_set_col. exact I.
    + eauto.
  - exfalso. apply (@get_not_zscores w k zs I); [|exact G].
    apply not_derived_not_zscore. exact Hk.
  - eauto.
Qed.

(** The imputation loop raises nothing. *)
Lemma impute_fold_step (ks : list string) (w : wframe) :
  zscores_named w -> Forall (fun k => derived k = false) ks ->
  exists w1, foldM impute_col ks w = inr w1 /\ zscores_named w1.
Proof.
  intros I Hks. revert w I. induction Hks as [|k ks Hk _ IH]; intros w I.
  - simpl. eauto.
  - simpl. destruct (impute_col_step k I Hk) as (w1 & -> & I1). simpl.
    apply IH. exact I1.
Qed.

Lemma dropna_step (ks : list string) (w : wframe) :
  zscores_named w ->
  match dropna ks w with
  | inl e => raised e
  | inr w1 => zscores_named w1
  end.
Proof.
  intros I. unfold dropna.
  destruct (filter (fun col => negb (has col w)) ks).
  - apply zscores_named_drop_rows. exact I.
  - left. eauto.
Qed.

Lemma remove_fold_step (ks : list string) (w : wframe) :
  zscores_named w ->
  match foldM remove_outliers_col ks w with
  | inl e => raised e
  | inr w1 => zscores_named w1
  end.
Proof.
  revert w. induction ks as [|k ks IH]; intros w I; [exact I|].
  simpl. unfold remove_outliers_col at 1.
  destruct (get (k ++ "_outlier") w) as [[[xs|bs|ts]|zs]|]; simpl;
    try (right; eauto; fail).
  - apply IH. apply zscores_named_drop_rows. exact I.
  - apply IH. exact I.
Qed.

Lemma to_frame_step (w : wframe) :
  zscores_named w -> exists df, to_frame (drop_derived w) = inr df.
Proof.
  intros I. induction w as [|[n s] w IH]; simpl; [eauto|].
  assert (Iw : zscores_named w)
    by (intros n' zs H; apply (I n' zs); right; exact H).
  destruct (derived n) eqn:D; simpl; [auto|].
  destruct s as [s|zs].
  - destruct (IH Iw) as (df & ->). simpl. eauto.
  - exfalso. apply not_derived_not_zscore in D.
    rewrite (I n zs) in D by (left; reflexivity). discriminate.
Qed.

(** The pass raises [KeyError] or [TypeError], as pandas does; it never
    comes to arithmetic on a column of z-scores. *)
Theorem clean_error_kinds (df : frame) (e : error) :
  clean df = inl e -> raised e.
Proof.
  destruct key_cols_good as [_ Hder]. unfold clean.
  pose proof (zscore_fold_step (zscores_named_of_frame df) Hder) as H1.
  unfold zscore_cell.
  destruct (foldM zscore_col key_cols (of_frame df)) as [e1|w1]; simpl;
    [intros [= <-]; exact H1|].
  pose proof (outlier_counts_step key_cols H1) as H2. unfold outlier_counts.
  destruct (outlier_counts_of key_cols w1) as [e2|cs]; simpl;
    [intros [= <-]; exact H2|].
  destruct (impute_fold_step H1 Hder) as (w2 & E2 & I2).
  unfold impute. rewrite E2. simpl.
  pose proof (dropna_step key_cols I2) as H3.
  destruct (dropna key_cols w2) as [e3|w3]; simpl;
    [intros [= <-]; exact H3|].
  pose proof (remove_fold_step key_cols H3) as H4. unfold remove_outliers.
  destruct (foldM remove_outliers_col key_cols w3) as [e4|w4]; simpl;
    [intros [= <-]; exact H4|].
  destruct (to_frame_step H4) as (out & ->). simpl. discriminate.
Qed.

End ErrorFacts.

(** ** The test on the squares is the test on the z-score *)

Module RealFacts.

Import Stats StatsFacts.
Import Reals Qreals Lra.

Local Open Scope R_scope.

(** For a positive variance [v], the flag of the entry [Root d v] is set
    when the absolute value of the real number [d / sqrt v] exceeds 3. *)
Lemma abs_gt_3_real (d v : Q) :
  (0 < v)%Q ->
  abs_gt_3 (Some (Root d v)) = true <-> Rabs (Q2R d / sqrt (Q2R v)) > 3.
Proof.
  intros Hv. unfold abs_gt_3. rewrite Qlt_bool_true. unfold sq.
  assert (Hv' : 0 < Q2R v)
    by (rewrite <- RMicromega.Q2R_0; apply Qlt_Rlt; exact Hv).
  pose proof (sqrt_lt_R0 _ Hv') as Hr.
  pose proof (sqrt_sqrt (Q2R v) (Rlt_le _ _ Hv')) as Hrr.
  set (r := sqrt (Q2R v)) in *.
  assert (E : Rabs (Q2R d / r) = Rabs (Q2R d) / r).
  { unfold Rdiv. rewrite Rabs_mult, Rabs_inv, (Rabs_right r);
      [reflexivity | lra]. }
  rewrite E.
  assert (Hsq : Q2R d * Q2R d = Rabs (Q2R d) * Rabs (Q2R d)).
  { unfold Rabs. destruct (Rcase_abs (Q2R d)); ring. }
  pose proof (Rabs_pos (Q2R d)) as Ha.
  set (a := Rabs (Q2R d)) in *.
  assert (Q9 : Q2R 9 = 9) by (unfold Q2R; simpl; lra).
  split.
  - intros H. apply Qlt_Rlt in H. rewrite !Q2R_mult, Q9, Hsq, <- Hrr in H.
    apply Rlt_gt. apply Rmult_lt_reg_r with r; [exact Hr|].
    unfold Rdiv. rewrite Rmult_assoc, Rinv_l by lra. nra.
  - intros H. apply Rlt_Qlt. rewrite !Q2R_mult, Q9, Hsq, <- Hrr.
    assert (3 * r < a).
    { apply Rgt_lt in H.
      apply Rmult_lt_compat_r with (r := r) in H; [|exact Hr].
      unfold Rdiv in H. rewrite Rmult_assoc, Rinv_l in H by lra. lra. }
    nra.
Qed.

End RealFacts.

(** ** Rows and columns *)

Module RowFacts.

Import Stats Frame Reference Rows MaskFacts.

Lemma cells_sdrop (m : list bool) (s : series) :
  cells (sdrop m s) = drop m (cells s).
Proof. destruct s; simpl; rewrite drop_map; reflexivity. Qed.

Lemma add_column_nil_r (name : string) (cs : list cell) :
  add_column name cs [] = [].
Proof. destruct cs; reflexivity. Qed.

Lemma drop_add_column (m : list bool) (name : string) (cs : list cell)
  (rs : list row) :
  drop m (add_column name cs rs) = add_column name (drop m cs) (drop m rs).
Proof.
  revert cs rs; induction m as [|b m IH]; intros cs rs; [reflexivity|].
  destruct cs as [|c cs].
  - reflexivity.
  - destruct rs as [|r rs].
    + simpl add_column at 1. rewrite !drop_nil, add_column_nil_r.
      reflexivity.
    + simpl. destruct b; simpl; rewrite IH; reflexivity.
Qed.

Lemma rows_from_drop (m : list bool) (base : list row) (df : frame) :
  rows_from (drop m base) (without_rows m df) = drop m (rows_from base df).
Proof.
  induction df as [|[n s] df IH]; simpl; [reflexivity|].
  rewrite drop_add_column, cells_sdrop. f_equal. exact IH.
Qed.

Lemma length_drop_same (A B : Type) (m : list bool) (xs : list A)
  (ys : list B) :
  length xs = length ys -> length (drop m xs) = length (drop m ys).
Proof.
  revert xs ys; induction m as [|b m IH]; intros [|x xs] [|y ys];
    simpl; try discriminate; auto.
  intros [= H]. destruct b; simpl; auto.
Qed.

Lemma drop_repeat (A : Type) (m : list bool) (x : A) (n : nat) :
  drop m (repeat x n) = repeat x (length (drop m (repeat x n))).
Proof.
  revert n; induction m as [|b m IH]; intros [|n]; simpl; try reflexivity.
  - rewrite repeat_length. reflexivity.
  - destruct b; simpl; [apply IH | f_equal; apply IH].
Qed.

Lemma slen_sdrop (m : list bool) (s : series) (A : Type) (xs : list A) :
  length xs = slen s -> slen (sdrop m s) = length (drop m xs).
Proof.
  destruct s; simpl; intros H; apply length_drop_same; auto.
Qed.

(** Removing rows of a frame removes these rows. *)
Lemma rows_without_rows (m : list bool) (df : frame) :
  rows (without_rows m df) = drop m (rows df).
Proof.
  unfold rows. rewrite <- rows_from_drop. f_equal.
  rewrite drop_repeat. f_equal.
  destruct df as [|[n s] df]; simpl.
  - destruct m; reflexivity.
  - apply slen_sdrop. apply repeat_length.
Qed.

Lemma drop_subseq (A : Type) (m : list bool) (xs : list A) :
  subseq (drop m xs) xs.
Proof.
  revert m; induction xs as [|x xs IH]; intros m.
  - rewrite drop_nil. constructor.
  - destruct m as [|b m]; simpl.
    + constructor. apply (IH []).
    + destruct b; constructor; apply IH.
Qed.

End RowFacts.

(** ** The median is the middle value *)

Module MedianFacts.

Import Stats Frame Notebook Reference Checks.
Import StatsFacts.

Local Open Scope Q_scope.

Lemma filter_length_perm (p : Q -> bool) (l l' : list Q) :
  Permutation l l' -> length (filter p l) = length (filter p l').
Proof.
  induction 1 as [|x l l' _ IH|x y l|l l' l'' _ IH1 _ IH2]; simpl.
  - reflexivity.
  - destruct (p x); simpl; congruence.
  - destruct (p x), (p y); reflexivity.
  - congruence.
Qed.

Lemma filter_all (p : Q -> bool) (l : list Q) :
  (forall y, In y l -> p y = true) -> filter p l = l.
Proof.
  induction l as [|x l IH]; intros H; simpl; [reflexivity|].
  rewrite (H x (or_introl eq_refl)), IH; [reflexivity|].
  intros y Hy. apply H. right. exact Hy.
Qed.

Lemma filter_none (p : Q -> bool) (l : list Q) :
  (forall y, In y l -> p y = false) -> filter p l = [].
Proof.
  induction l as [|x l IH]; intros H; simpl; [reflexivity|].
  rewrite (H x (or_introl eq_refl)). apply IH.
  intros y Hy. apply H. right. exact Hy.
Qed.

Lemma filter_shorter (p : Q -> bool) (l : list Q) :
  (length (filter p l) <= length l)%nat.
Proof. induction l as [|x l IH]; simpl; [lia|]. destruct (p x); simpl; lia. Qed.

(** In a sorted list, the entry at position [k] has at most [k] entries
    below it and at least [k + 1] entries not above it. *)
Lemma sorted_count_lt (s : list Q) (k : nat) :
  StronglySorted Qle s -> (k < length s)%nat ->
  (count_lt (nth k s 0%Q) s <= k)%nat.
Proof.
  intros Hs Hk. unfold count_lt.
  assert (Hn : forall y, In y (skipn k s) ->
                 Qlt_bool y (nth k s 0) = false).
  { intros y Hy. apply Qlt_bool_false. apply sorted_skipn; assumption. }
  assert (Hl : (length (firstn k s) <= k)%nat)
    by (rewrite length_firstn; lia).
  revert Hn Hl. generalize (nth k s 0). intros v Hn Hl.
  rewrite <- (firstn_skipn k s) at 1.
  rewrite filter_app, length_app, (@filter_none (fun y => Qlt_bool y v) _ Hn). simpl.
  pose proof (filter_shorter (fun y => Qlt_bool y v) (firstn k s)). lia.
Qed.

Lemma sorted_count_le (s : list Q) (k : nat) :
  StronglySorted Qle s -> (k < length s)%nat ->
  (k + 1 <= count_le (nth k s 0%Q) s)%nat.
Proof.
  intros Hs Hk. unfold count_le.
  assert (Ha : forall y, In y (firstn (S k) s) ->
                 Qle_bool y (nth k s 0) = true).
  { intros y Hy. apply Qle_bool_iff. apply sorted_firstn; assumption. }
  assert (Hl : length (firstn (S k) s) = S k)
    by (rewrite length_firstn; lia).
  revert Ha Hl. generalize (nth k s 0). intros v Ha Hl.
  rewrite <- (firstn_skipn (S k) s) at 1.
  rewrite filter_app, length_app, (@filter_all (fun y => Qle_bool y v) _ Ha), Hl. lia.
Qed.

Lemma sorted_rank (s : list Q) (k : nat) :
  StronglySorted Qle s -> (k < length s)%nat ->
  is_rank (S k) (nth k s 0) s.
Proof.
  intros Hs Hk. split; [apply nth_In; exact Hk|].
  pose proof (sorted_count_lt Hs Hk). pose proof (sorted_count_le Hs Hk).
  lia.
Qed.

Lemma rank_perm (j : nat) (v : Q) (l l' : list Q) :
  Permutation l l' -> is_rank j v l -> is_rank j v l'.
Proof.
  intros P (Hin & Hlt & Hle). unfold is_rank, count_lt, count_le in *.
  rewrite <- (filter_length_perm _ P), <- (filter_length_perm _ P).
  split; [eapply Permutation_in; eassumption | split; assumption].
Qed.

(** The value that [median] gives is the middle value of the column, or
    the mean of its two middle values. *)
Lemma median_is_median (ys : list Q) (m : Q) :
  median ys = Some m -> is_median m ys.
Proof.
  unfold median, is_median.
  assert (Hs : StronglySorted Qle (sort ys)) by apply sort_sorted.
  pose proof (sort_perm ys) as P.
  rewrite <- (Permutation_length P).
  revert Hs P. generalize (sort ys). intros s Hs P.
  destruct (length s) as [|n'] eqn:En; [discriminate|].
  rewrite <- En. assert (Hn : (0 < length s)%nat) by lia. clear En n'.
  div2 (length s). div2 (length s + 1)%nat.
  destruct (Nat.even (length s)) eqn:E; intros [= <-].
  - apply Nat.even_spec in E. destruct E as [k E].
    change (fst (Nat.divmod (length s) 1 0 1)) with (length s / 2)%nat.
    exists (nth (length s / 2 - 1) s 0), (nth (length s / 2) s 0).
    split; [|split; [|reflexivity]]; apply (rank_perm P).
    + replace ((length s + 1) / 2)%nat with (S (length s / 2 - 1)) by lia.
      apply sorted_rank; [assumption | lia].
    + replace (length s / 2 + 1)%nat with (S (length s / 2)) by lia.
      apply sorted_rank; [assumption | lia].
  - assert (O : Nat.odd (length s) = true)
      by (rewrite <- Nat.negb_even, E; reflexivity).
    apply Nat.odd_spec in O. destruct O as [k O].
    change (fst (Nat.divmod (length s) 1 0 1)) with (length s / 2)%nat.
    exists (nth (length s / 2) s 0), (nth (length s / 2) s 0).
    split; [|split; [|field]]; apply (rank_perm P).
    + replace ((length s + 1) / 2)%nat with (S (length s / 2)) by lia.
      apply sorted_rank; [assumption | lia].
    + replace (length s / 2 + 1)%nat with (S (length s / 2)) by lia.
      apply sorted_rank; [assumption | lia].
Qed.

(** A column that has a value has a median. *)
Lemma median_defined (ys : list Q) :
  ys <> [] -> exists m, median ys = Some m.
Proof.
  intros H. unfold median.
  pose proof (Permutation_length (sort_perm ys)) as L.
  destruct ys as [|y ys]; [congruence|].
  destruct (length (sort (y :: ys))) as [|n] eqn:E; [discriminate L|].
  rewrite <- E. destruct (Nat.even (length (sort (y :: ys)))); eauto.
Qed.

(** What [fillna] leaves at each position. *)
Lemma nth_error_fillna (value : option Q) (xs : list (option Q)) (i : nat) :
  nth_error (fillna value xs) i =
  match nth_error xs i with
  | Some (Some q) => Some (Some q)
  | Some None => Some value
  | None => None
  end.
Proof.
  revert i. induction xs as [|x xs IH]; intros [|i]; destruct value as [m|];
    simpl; try reflexivity.
  - destruct x; reflexivity.
  - destruct x; reflexivity.
  - apply (IH i).
  - destruct (nth_error xs i) as [[q|]|]; reflexivity.
Qed.

End MedianFacts.

(** ** What each step does to a row and to an entry *)

Module StepFacts.

Import Stats Frame Notebook Reference Checks.
Import MaskFacts FrameFacts NameFacts PassFacts StatsFacts CleanedFacts.
Import MedianFacts.

(** A row is in the mask of [dropna] when an entry of a target column is
    missing in it. *)
Lemma missing_row_iff (ks : list string) (d : frame) (i : nat) :
  nth i (missing_rows_of ks d) false = true <->
  exists k s, In k ks /\ get k d = Some s /\ nth i (sisna s) false = true.
Proof.
  induction ks as [|k0 ks IH]; simpl.
  - split; [destruct i; discriminate | intros (k & s & [] & _)].
  - destruct (get k0 d) as [s0|] eqn:G.
    + rewrite nth_or_mask, orb_true_iff, IH. split.
      * intros [H | (k & s & Hk & Hg & Hn)].
        -- exists k0, s0. auto.
        -- exists k, s. auto.
      * intros (k & s & [<- | Hk] & Hg & Hn).
        -- left. rewrite G in Hg. injection Hg as <-. exact Hn.
        -- right. exists k, s. auto.
    + rewrite IH. split.
      * intros (k & s & Hk & Hg & Hn). exists k, s. auto.
      * intros (k & s & [<- | Hk] & Hg & Hn); [congruence|].
        exists k, s. auto.
Qed.

(** A row is in the mask of the outlier filters when a target column
    flags it. *)
Lemma outlier_row_iff (ks : list string) (df : frame) (i : nat) :
  nth i (outlier_rows_of ks df) false = true <->
  exists k, In k ks /\ nth i (flags_of df k) false = true.
Proof.
  induction ks as [|k0 ks IH]; simpl.
  - split; [destruct i; discriminate | intros (k & [] & _)].
  - assert (E : nth i (outlier_rows_of (k0 :: ks) df) false =
                nth i (flags_of df k0) false
                || nth i (outlier_rows_of ks df) false).
    { simpl. unfold flags_of. destruct (get k0 df).
      - apply nth_or_mask.
      - destruct i; reflexivity. }
    simpl in E. rewrite E, orb_true_iff, IH. split.
    + intros [H | (k & Hk & Hn)]; [exists k0; auto | exists k; auto].
    + intros (k & [<- | Hk] & Hn); [left; exact Hn | right; exists k; auto].
Qed.


Lemma filled_no_na (m : Q) (xs : list (option Q)) :
  count_true (isna (fillna (Some m) xs)) = O.
Proof.
  unfold count_true, isna, fillna. rewrite map_map.
  induction xs as [|[x|] xs IH]; simpl; auto.
Qed.

Lemma flags_no_na (bs : list bool) :
  count_true (map (fun _ : bool => false) bs) = O.
Proof. unfold count_true. induction bs; simpl; auto. Qed.

(** Step 2 on a target column: an entry that is a number stays, a
    missing entry becomes the median of the numbers of the column, and
    nothing is missing afterwards when the column has a number. *)
Lemma imputed_target (df : frame) (col : string) (s : series)
  (xs : list (option Q)) :
  In col key_cols -> get col df = Some s -> as_float s = Some xs ->
  exists s' ys,
    get col (imputed df) = Some s' /\ as_float s' = Some ys /\
    (forall i, nth_error ys i =
               match nth_error xs i with
               | Some (Some q) => Some (Some q)
               | Some None => Some (median (omit xs))
               | None => None
               end) /\
    (omit xs <> [] -> count_na s' = O).
Proof.
  intros Hk G C. exists (fill s).
  assert (Gi : get col (imputed df) = Some (fill s)).
  { rewrite get_imputed, G. simpl.
    rewrite (proj2 (is_key_In col) Hk). reflexivity. }
  destruct s as [zs|bs|ts]; simpl in C; [| |discriminate].
  - injection C as <-. exists (fillna (median (omit zs)) zs).
    split; [exact Gi|]. split; [reflexivity|]. split.
    + intros i. apply nth_error_fillna.
    + intros Hne. destruct (median_defined Hne) as [m Hm].
      unfold count_na. simpl. rewrite Hm. apply filled_no_na.
  - injection C as <-.
    exists (map (fun b : bool => Some (if b then 1 else 0)%Q) bs).
    split; [exact Gi|]. split; [reflexivity|]. split.
    + intros i. rewrite nth_error_map.
      destruct (nth_error bs i); reflexivity.
    + intros _. unfold count_na. simpl. apply flags_no_na.
Qed.

End StepFacts.

(** * The claims *)

Import Stats Frame Notebook Reference Rows Examples Checks MoreExamples.
Import MaskFacts FrameFacts NameFacts PassFacts StatsFacts CleanedFacts.
Import RowFacts MedianFacts StepFacts.

Local Open Scope string_scope.

(** C1.  After the pass has completed, a target column of the cleaned
    frame holds no missing value: what the median did not fill went with
    its row. *)
Theorem C1_no_missing_value (df out : frame) (rep : report) (col : string)
  (s : series) :
  unique_columns df = true ->
  clean df = inr (out, rep) ->
  In col key_cols ->
  get col out = Some s ->
  count_na s = O.
Proof.
  intros Hu H Hk G. destruct (clean_inr df Hu H) as (_ & -> & _).
  eapply cleaned_key_no_missing; eauto.
Qed.

Lemma C1_witness :
  unique_columns sample = true /\
  clean sample = inr (run sample) /\
  In "GHI" key_cols /\
  get "GHI" (fst (run sample)) =
    Some (Floats (repeat (Some 0%Q) 10 ++ [Some 10%Q; Some (0 # 2)%Q])%list) /\
  count_na (Floats (repeat (Some 0%Q) 10 ++ [Some 10%Q; Some (0 # 2)%Q])%list)
    = O.
Proof.
  assert (H : clean sample = inr (fst (run sample), snd (run sample)))
    by (vm_compute; reflexivity).
  assert (G : get "GHI" (fst (run sample)) =
              Some (Floats (repeat (Some 0%Q) 10
                              ++ [Some 10%Q; Some (0 # 2)%Q])%list))
    by (vm_compute; reflexivity).
  assert (K : In "GHI" key_cols) by (left; reflexivity).
  split; [reflexivity|]. split; [vm_compute; reflexivity|].
  split; [exact K|]. split; [exact G|].
  exact (@C1_no_missing_value sample _ _ "GHI" _ eq_refl H K G).
Defined.



Lemma columns_cleaned (df : frame) :
  columns (cleaned df) = filter (fun c => negb (derived c)) (columns df).
Proof.
  unfold cleaned. generalize (removed_rows df). intros m.
  unfold without_derived, without_rows, imputed, columns.
  induction df as [|[n s] df IH]; simpl; [reflexivity|].
  destruct (is_key n); simpl; destruct (derived n); simpl; rewrite IH;
    reflexivity.
Qed.

(** C9, as the code has it.  The cleaned frame, and the header of the
    exported file, hold the columns of the input whose name does not end
    in [_zscore] or [_outlier], in their order: the derived columns are
    gone, and so is a column of the input that carries such a name.  When
    no column of the input does, the columns are those of the input. *)
Theorem C9_columns_without_derived_names (df out : frame) (rep : report) :
  unique_columns df = true ->
  clean df = inr (out, rep) ->
  columns out = filter (fun c => negb (derived c)) (columns df) /\
  to_csv_header out = filter (fun c => negb (derived c)) (columns df) /\
  (forallb (fun c => negb (derived c)) (columns df) = true ->
   columns out = columns df).
Proof.
  intros Hu H. destruct (clean_inr df Hu H) as (_ & -> & _).
  unfold to_csv_header. rewrite columns_cleaned.
  split; [reflexivity|]. split; [reflexivity|].
  intros Hall. rewrite forallb_forall in Hall.
  induction (columns df) as [|c cs IH]; simpl; [reflexivity|].
  rewrite (Hall c) by (left; reflexivity). f_equal.
  apply IH. intros x Hx. apply Hall. right. assumption.
Qed.

Lemma C9_witness :
  unique_columns sample = true /\
  clean sample = inr (run sample) /\
  columns (fst (run sample)) =
    ["Timestamp"; "GHI"; "DNI"; "DHI"; "ModA"; "ModB"; "Cleaning"; "WS";
     "WSgust"] /\
  columns (fst (run sample)) = columns sample.
Proof.
  assert (H : clean sample = inr (fst (run sample), snd (run sample)))
    by (vm_compute; reflexivity).
  split; [reflexivity|]. split; [vm_compute; reflexivity|].
  split.
  - exact (proj1 (@C9_columns_without_derived_names sample _ _ eq_refl H)).
  - exact (proj2 (proj2 (@C9_columns_without_derived_names sample _ _
                           eq_refl H)) eq_refl).
Defined.

(** C9 as stated fails on an input that has a column named like a derived
    one: the column is not in the cleaned frame. *)
Lemma C9_counterexample :
  unique_columns with_flag_column = true /\
  clean with_flag_column = inr (run with_flag_column) /\
  In "rain_outlier" (columns with_flag_column) /\
  ~ In "rain_outlier" (columns (fst (run with_flag_column))) /\
  columns (fst (run with_flag_column)) <> columns with_flag_column.
Proof.
  split; [reflexivity|]. split; [vm_compute; reflexivity|].
  split; [vm_compute; tauto|].
  split.
  - vm_compute. intros H.
    repeat (destruct H as [H | H]; [discriminate H|]). exact H.
  - vm_compute. discriminate.
Qed.

Lemma without_derived_all (df : frame) :
  forallb (fun c => negb (derived c)) (columns df) = true ->
  without_derived df = df.
Proof.
  unfold without_derived, columns.
  induction df as [|[n s] df IH]; simpl; [reflexivity|].
  intros H. apply andb_prop in H. destruct H as [H1 H2].
  rewrite H1. f_equal. apply IH. exact H2.
Qed.

(** C10.  The pass only removes rows.  The rows of the cleaned frame are
    rows of the input, in their order, none added, none twice: there is
    one set of row positions such that every column of the cleaned frame
    is the column of the same name of the input, filled if it is a target
    column, without the entries at these positions.  Filling changes the
    missing entries of a target column and no other entry: a column that
    is not a target, or has no missing entry, is as it was, and in a
    float target column a number stays and a missing entry becomes the
    median of the numbers of the column before the pass.  That median is
    the middle one of these numbers by rank, or the mean of the two
    middle ones. *)
Theorem C10_rows_only_removed (df out : frame) (rep : report) :
  unique_columns df = true ->
  clean df = inr (out, rep) ->
  exists m : list bool,
    out = without_rows m (without_derived (imputed df)) /\
    rows out = drop m (rows (without_derived (imputed df))) /\
    subseq (rows out) (rows (without_derived (imputed df))) /\
    (forallb (fun c => negb (derived c)) (columns df) = true ->
     subseq (rows out) (rows (imputed df))) /\
    (forall col s, get col (imputed df) = Some s ->
       exists s0, get col df = Some s0 /\
         s = (if is_key col then fill s0 else s0)) /\
    (forall col s, get col df = Some s ->
       is_key col = false \/ count_na s = O ->
       get col (imputed df) = Some s) /\
    (forall col xs, In col key_cols -> get col df = Some (Floats xs) ->
       exists ys,
         get col (imputed df) = Some (Floats ys) /\
         (forall i, nth_error ys i =
                    match nth_error xs i with
                    | Some (Some q) => Some (Some q)
                    | Some None => Some (median (omit xs))
                    | None => None
                    end) /\
         (forall v, median (omit xs) = Some v -> is_median v (omit xs)) /\
         (omit xs <> [] -> exists v, median (omit xs) = Some v)).
Proof.
  intros Hu H. destruct (clean_inr df Hu H) as (_ & -> & _).
  assert (E : cleaned df =
              without_rows (removed_rows df) (without_derived (imputed df)))
    by (unfold cleaned; apply without_derived_without_rows).
  exists (removed_rows df).
  split; [exact E|]. split; [|split; [|split; [|split; [|split]]]].
  - rewrite E at 1. apply rows_without_rows.
  - rewrite E at 1. rewrite rows_without_rows. apply drop_subseq.
  - intros Hall. rewrite E at 1. rewrite rows_without_rows.
    rewrite without_derived_all; [apply drop_subseq|].
    unfold imputed, columns. rewrite map_map.
    unfold columns in Hall. erewrite map_ext; [exact Hall|].
    intros [n s]. simpl. destruct (is_key n); reflexivity.
  - intros col s G. rewrite get_imputed in G.
    destruct (get col df) as [s0|]; [|discriminate].
    exists s0. injection G as <-. auto.
  - intros col s G Hc. rewrite get_imputed, G. simpl.
    destruct (is_key col); [|reflexivity].
    destruct Hc as [Hc | Hc]; [discriminate Hc|].
    assert (F : fill s = s).
    { unfold count_na in Hc. destruct s as [xs|bs|ts]; simpl in *;
        try reflexivity; rewrite fillna_noop; auto. }
    rewrite F. reflexivity.
  - intros col xs Hk G.
    exists (fillna (median (omit xs)) xs). split; [|split; [|split]].
    + rewrite get_imputed, G. simpl.
      rewrite (proj2 (is_key_In col) Hk). reflexivity.
    + intros i. apply nth_error_fillna.
    + intros v Hv. apply median_is_median. exact Hv.
    + intros Hne. apply median_defined. exact Hne.
Qed.

Lemma C10_witness :
  let out :=
    [("GHI",
      Floats [Some 7%Q; Some 5%Q; Some 1%Q; Some 4%Q; Some 3%Q; Some 9%Q;
              Some 2%Q; Some 8%Q; Some 6%Q; Some 5%Q; Some 0%Q]);
     ("DNI", zeros 11); ("DHI", zeros 11); ("ModA", zeros 11);
     ("ModB", zeros 11); ("WS", zeros 11); ("WSgust", zeros 11)] in
  let rep :=
    Report [("GHI", (1%nat, (100 # 12)%Q))]
      [("GHI", 0%Q); ("DNI", 1%Q); ("DHI", 0%Q); ("ModA", 0%Q);
       ("ModB", 0%Q); ("WS", 0%Q); ("WSgust", 0%Q)] in
  unique_columns unsorted = true /\
  clean unsorted = inr (out, rep) /\
  length (rows unsorted) = 12%nat /\
  length (rows out) = 11%nat /\
  subseq (rows out) (rows (imputed unsorted)) /\
  get "GHI" (imputed unsorted) =
    Some (Floats [Some 7%Q; Some 5%Q; Some 1%Q; Some 4%Q; Some 3%Q;
                  Some 9%Q; Some 2%Q; Some 8%Q; Some 6%Q; Some 5%Q;
                  Some 10%Q; Some 0%Q]) /\
  is_median 5 [7%Q; 1%Q; 4%Q; 3%Q; 9%Q; 2%Q; 8%Q; 6%Q; 5%Q; 10%Q; 0%Q].
Proof.
  intros out rep.
  assert (H : clean unsorted = inr (out, rep)) by (vm_compute; reflexivity).
  assert (K : In "GHI" key_cols) by (left; reflexivity).
  split; [reflexivity|]. split; [exact H|].
  split; [vm_compute; reflexivity|]. split; [vm_compute; reflexivity|].
  destruct (@C10_rows_only_removed unsorted out rep eq_refl H)
    as (m & _ & _ & _ & S & _ & _ & F).
  split; [exact (S eq_refl)|]. split; [vm_compute; reflexivity|].
  destruct (F "GHI" _ K eq_refl) as (ys & _ & _ & M & _).
  exact (M 5%Q eq_refl).
Defined.

(** C5, as the code has it.  The pass has no test for an empty input and
    no error of its own: on a frame with distinct column names in which
    every target column is present with a dtype that casts to float, it
    completes, whatever the number of rows and whatever the values. *)
Theorem C5_completes_on_ready_targets (df : frame) :
  unique_columns df = true ->
  targets_ready df = true ->
  exists out rep, clean df = inr (out, rep).
Proof.
  intros Hu Hr. rewrite (clean_ready df Hu Hr). eauto.
Qed.

Lemma C5_witness :
  unique_columns no_rows = true /\
  targets_ready no_rows = true /\
  nrows no_rows = O /\
  exists out rep, clean no_rows = inr (out, rep).
Proof.
  split; [reflexivity|]. split; [reflexivity|]. split; [reflexivity|].
  exact (@C5_completes_on_ready_targets no_rows eq_refl eq_refl).
Defined.

(** C5 as stated fails on the empty frame: the pass returns it. *)
Lemma C5_counterexample :
  nrows no_rows = O /\
  clean no_rows =
  inr (no_rows,
       Report []
         [("GHI", 0%Q); ("DNI", 0%Q); ("DHI", 0%Q); ("ModA", 0%Q);
          ("ModB", 0%Q); ("WS", 0%Q); ("WSgust", 0%Q)]).
Proof. split; vm_compute; reflexivity. Qed.

Lemma nth_outlier_rows_true (ks : list string) (df : frame) (i : nat) :
  nth i (outlier_rows_of ks df) false = true ->
  exists k, In k ks /\ nth i (flags_of df k) false = true.
Proof.
  induction ks as [|k0 ks IH]; simpl.
  - destruct i; discriminate.
  - intros H.
    assert (Hor : nth i (flags_of df k0) false = true \/
                  nth i (outlier_rows_of ks df) false = true).
    { unfold flags_of. destruct (get k0 df); [|right; assumption].
      rewrite nth_or_mask in H. apply orb_true_iff in H. exact H. }
    destruct Hor as [H0 | H1].
    + exists k0. auto.
    + destruct (IH H1) as (k & Hk & Hn). exists k. auto.
Qed.

Lemma count_true_all_false (A : Type) (xs : list A) :
  count_true (map (fun _ => false) xs) = O.
Proof. induction xs; simpl; auto. Qed.

(** C7.  A target column whose values are all the same has no standard
    deviation and its z-scores are undefined.  The pass completes; the
    column gets no flag, in the notebook's [_outlier] column as in the
    report, where its count is 0.  When the column has a value, its
    missing entries are filled with it and no row goes on account of the
    column: every row that is removed misses a value in another target
    column after imputation, or is flagged in another target column. *)
Theorem C7_zero_variance_column (df : frame) (col : string) (s : series)
  (xs : list (option Q)) :
  unique_columns df = true ->
  targets_ready df = true ->
  In col key_cols ->
  get col df = Some s -> as_float s = Some xs ->
  (forall a b, In a (omit xs) -> In b (omit xs) -> a == b) ->
  exists out rep,
    clean df = inr (out, rep) /\
    (forall w, zscore_cell (of_frame df) = inr w ->
       get (col ++ "_outlier") w =
       Some (Col (Bools (map (fun _ => false) xs)))) /\
    In (col, 0%Q) (outliers rep) /\
    (omit xs <> [] ->
     (exists s', get col (imputed df) = Some s' /\ count_na s' = O) /\
     (forall i, nth i (removed_rows df) false = true ->
        exists k, In k key_cols /\ k <> col /\
          ((exists sk, get k (imputed df) = Some sk /\
                       nth i (sisna sk) false = true) \/
           nth i (flags_of df k) false = true))).
Proof.
  intros Hu Hr Hk G C Hc.
  assert (F : flags_of df col = map (fun _ => false) xs).
  { unfold flags_of, outlier_flags. rewrite G, C.
    apply constant_flags. exact Hc. }
  assert (Fn : forall i, nth i (flags_of df col) false = false).
  { intros i. rewrite F. apply Forall_nth_false.
    apply Forall_forall. intros b Hb. apply in_map_iff in Hb.
    destruct Hb as (_ & <- & _). reflexivity. }
  exists (cleaned df), (Report (missing_report df) (counts df)).
  split; [apply clean_ready; assumption|]. split; [|split].
  - intros w Hw.
    assert (G0 : get col (of_frame df) = Some (Col s))
      by (rewrite get_of_frame, G; reflexivity).
    destruct (@zscore_fold_flags key_cols _ _ col _ key_cols_good Hw Hk G0)
      as (xs' & C' & Fw).
    simpl in C'. rewrite C in C'. injection C' as <-.
    rewrite Fw, constant_flags by exact Hc. reflexivity.
  - simpl. unfold counts.
    apply (in_map (fun c => (c, inject_Z (Z.of_nat (count_true (flags_of df c))))))
      in Hk.
    rewrite F in Hk.
    replace (count_true (map (fun _ : option Q => false) xs)) with O in Hk;
      [exact Hk|].
    symmetry. apply count_true_zero. apply Forall_forall.
    intros b Hb. apply in_map_iff in Hb. destruct Hb as (_ & <- & _).
    reflexivity.
  - intros Hne.
    destruct (imputed_target df Hk G C) as (s' & ys & Gi & _ & _ & Hfull).
    specialize (Hfull Hne).
    split; [exists s'; split; assumption|].
    intros i Hi. unfold removed_rows in Hi.
    rewrite nth_or_mask in Hi. apply orb_true_iff in Hi.
    destruct Hi as [Hi | Hi].
    + unfold missing_rows in Hi. apply missing_row_iff in Hi.
      destruct Hi as (k & sk & Hin & Gk & Hn).
      exists k. split; [exact Hin|]. split; [|left; exists sk; auto].
      intros ->. rewrite Gi in Gk. injection Gk as <-.
      unfold count_na in Hfull. apply count_true_zero in Hfull.
      rewrite (Forall_nth_false i Hfull) in Hn. discriminate Hn.
    + unfold outlier_rows in Hi. apply outlier_row_iff in Hi.
      destruct Hi as (k & Hin & Hn).
      exists k. split; [exact Hin|]. split; [|right; exact Hn].
      intros ->. rewrite Fn in Hn. discriminate Hn.
Qed.

Lemma C7_witness :
  let xs := (Some 5%Q :: None :: repeat (Some 5%Q) 10) in
  let out :=
    [("GHI", Floats (repeat (Some 5%Q) 11));
     ("DNI", zeros 11); ("DHI", zeros 11); ("ModA", zeros 11);
     ("ModB", zeros 11); ("WS", zeros 11); ("WSgust", zeros 11)] in
  let rep :=
    Report [("GHI", (1%nat, (100 # 12)%Q))]
      [("GHI", 0%Q); ("DNI", 1%Q); ("DHI", 0%Q); ("ModA", 0%Q);
       ("ModB", 0%Q); ("WS", 0%Q); ("WSgust", 0%Q)] in
  unique_columns steady = true /\
  targets_ready steady = true /\
  In "GHI" key_cols /\
  get "GHI" steady = Some (Floats xs) /\
  (forall a b, In a (omit xs) -> In b (omit xs) -> a == b) /\
  clean steady = inr (out, rep) /\
  removed_rows steady = (repeat false 10 ++ [true; false])%list /\
  flags_of steady "DNI" = (repeat false 10 ++ [true; false])%list /\
  (exists out' rep',
     clean steady = inr (out', rep') /\ In ("GHI", 0%Q) (outliers rep')) /\
  (forall i, nth i (removed_rows steady) false = true ->
     exists k, In k key_cols /\ k <> "GHI" /\
       ((exists sk, get k (imputed steady) = Some sk /\
                    nth i (sisna sk) false = true) \/
        nth i (flags_of steady k) false = true)).
Proof.
  intros xs out rep.
  assert (K : In "GHI" key_cols) by (left; reflexivity).
  assert (Hc : forall a b, In a (omit xs) -> In b (omit xs) -> a == b).
  { intros a b Ha Hb. simpl in Ha, Hb.
    repeat (destruct Ha as [<- | Ha]); try contradiction;
      repeat (destruct Hb as [<- | Hb]); try contradiction; reflexivity. }
  assert (Hne : omit xs <> []) by (vm_compute; discriminate).
  split; [reflexivity|]. split; [reflexivity|]. split; [exact K|].
  split; [reflexivity|]. split; [exact Hc|].
  split; [vm_compute; reflexivity|]. split; [vm_compute; reflexivity|].
  split; [vm_compute; reflexivity|].
  destruct (@C7_zero_variance_column steady "GHI" (Floats xs) xs
              eq_refl eq_refl K eq_refl eq_refl Hc)
    as (out' & rep' & H & _ & Hin & Hrest).
  split; [exists out', rep'; split; assumption|].
  exact (proj2 (Hrest Hne)).
Defined.

(** C6, as the code has it.  On the scenario of the specification, with
    the other target columns present and without missing value or
    outlier, the NaN becomes the median 11.5 and no row is removed: four
    values cannot be three standard deviations apart, and 1000 is not
    flagged.  The column has five rows, no missing value, and no value
    further than three standard deviations from the mean of the four
    original values. *)
Theorem C6_scenario_keeps_its_rows :
  clean scenario =
  inr (("GHI",
        Floats [Some 10%Q; Some 12%Q; Some 11%Q; Some 1000%Q; Some (23 # 2)%Q])
         :: others 5,
       Report [("GHI", (1%nat, (100 # 5)%Q))]
         [("GHI", 0%Q); ("DNI", 0%Q); ("DHI", 0%Q); ("ModA", 0%Q);
          ("ModB", 0%Q); ("WS", 0%Q); ("WSgust", 0%Q)]) /\
  median (omit ghi_scenario) = Some (23 # 2)%Q /\
  flags_of scenario "GHI" = [false; false; false; false; false] /\
  Forall (fun y => (sq (y - mean (omit ghi_scenario))
                    <= 9 * var (omit ghi_scenario))%Q)
    [10%Q; 12%Q; 11%Q; 1000%Q; (23 # 2)%Q].
Proof.
  split; [vm_compute; reflexivity|]. split; [vm_compute; reflexivity|].
  split; [vm_compute; reflexivity|].
  repeat constructor; vm_compute; discriminate.
Qed.

(** C6 as stated fails: the row of 1000 is in the cleaned frame, which
    has five rows and not four. *)
Lemma C6_counterexample :
  clean scenario = inr (run scenario) /\
  get "GHI" (fst (run scenario)) =
    Some (Floats [Some 10%Q; Some 12%Q; Some 11%Q; Some 1000%Q;
                  Some (23 # 2)%Q]) /\
  nrows (fst (run scenario)) = 5%nat /\
  nrows (fst (run scenario)) <> 4%nat /\
  In ("GHI", 0%Q) (outliers (snd (run scenario))).
Proof.
  split; [vm_compute; reflexivity|]. split; [vm_compute; reflexivity|].
  split; [vm_compute; reflexivity|]. split; [vm_compute; discriminate|].
  vm_compute. left. reflexivity.
Qed.

(** C8: the pass on a frame that lacks target columns.  The two loops
    skip them, and [dropna(subset=key_cols)] raises [KeyError] on them;
    the report of missing values, made before, has no line for them. *)
Theorem C8_absent_column_raises :
  clean only_ghi = inl (KeyError ["DNI"; "DHI"; "ModA"; "ModB"; "WS"; "WSgust"])
  /\ (exists w1 w2,
        zscore_cell (of_frame only_ghi) = inr w1 /\
        impute w1 = inr w2 /\
        dropna key_cols w2 =
        inl (KeyError ["DNI"; "DHI"; "ModA"; "ModB"; "WS"; "WSgust"]))
  /\ missing_report only_ghi = [].
Proof.
  split; [vm_compute; reflexivity|]. split; [|vm_compute; reflexivity].
  eexists. eexists.
  split; [vm_compute; reflexivity|]. split; vm_compute; reflexivity.
Qed.

(** The same on every frame: an absent target column makes the pass
    fail. *)
Lemma absent_target_fails (df : frame) (k : string) :
  In k key_cols -> get k df = None -> exists e, clean df = inl e.
Proof.
  intros Hk G. destruct (clean df) as [e|[out rep]] eqn:H; [eauto|].
  apply clean_inr_ready in H. unfold targets_ready in H.
  rewrite forallb_forall in H. specialize (H k Hk).
  unfold castable in H. rewrite G in H. discriminate.
Qed.

(** *** Running the pass on its own output *)

Lemma unique_cleaned (df : frame) :
  unique_columns df = true -> unique_columns (cleaned df) = true.
Proof.
  unfold unique_columns. intros H. apply NoDup_distinct.
  rewrite columns_cleaned. apply NoDup_filter. apply distinct_NoDup. exact H.
Qed.

Lemma ready_cleaned (df : frame) :
  targets_ready df = true -> targets_ready (cleaned df) = true.
Proof.
  intros Hr. pose proof (ready_castable df Hr) as Hk.
  unfold targets_ready. apply forallb_forall. intros k Hin.
  destruct (Hk k Hin) as (s & xs & G & C).
  unfold castable. rewrite get_cleaned_key, G by assumption. simpl.
  rewrite (as_float_filled _ _ C). reflexivity.
Qed.

Lemma fill_full (s : series) : count_na s = O -> fill s = s.
Proof.
  unfold count_na. destruct s as [xs|bs|ts]; simpl; intros H;
    try reflexivity; rewrite fillna_noop; auto.
Qed.

(** Nothing is left to fill in a cleaned frame. *)
Lemma imputed_cleaned (df : frame) :
  unique_columns df = true -> imputed (cleaned df) = cleaned df.
Proof.
  intros Hu. apply unique_cleaned in Hu. apply distinct_NoDup in Hu.
  unfold imputed. rewrite <- (map_id (cleaned df)) at 2.
  apply map_ext_in. intros [n s] Hin. simpl.
  destruct (is_key n) eqn:K; [|reflexivity].
  apply is_key_In in K. apply In_get in Hin; [|exact Hu].
  rewrite fill_full; [reflexivity|].
  eapply cleaned_key_no_missing; eauto.
Qed.

Lemma or_mask_false (a b : list bool) :
  Forall (fun x => x = false) a -> Forall (fun x => x = false) b ->
  Forall (fun x => x = false) (or_mask a b).
Proof.
  intros Ha. revert b. induction Ha as [|x a Hx Ha IH]; intros b Hb.
  - exact Hb.
  - destruct Hb as [|y b Hy Hb]; simpl.
    + constructor; assumption.
    + constructor; [subst; reflexivity | apply IH; assumption].
Qed.

Lemma missing_rows_cleaned (df : frame) :
  Forall (fun b => b = false) (missing_rows (cleaned df)).
Proof.
  unfold missing_rows.
  assert (H : forall ks, incl ks key_cols ->
            Forall (fun b => b = false) (missing_rows_of ks (cleaned df))).
  { induction ks as [|k ks IH]; intros Hks; simpl; [constructor|].
    assert (Hk : In k key_cols) by (apply Hks; left; reflexivity).
    assert (Hr : incl ks key_cols)
      by (intros x Hx; apply Hks; right; assumption).
    destruct (get k (cleaned df)) as [s|] eqn:G; [|auto].
    apply or_mask_false; [|auto].
    apply count_true_zero. eapply cleaned_key_no_missing; eauto. }
  apply H. apply incl_refl.
Qed.

Lemma drop_or_mask_false (A : Type) (a b : list bool) (xs : list A) :
  Forall (fun x => x = false) a -> drop (or_mask a b) xs = drop b xs.
Proof.
  intros Ha. revert b xs. induction Ha as [|x a Hx Ha IH]; intros b xs.
  - reflexivity.
  - subst x. destruct b as [|y b].
    + simpl or_mask. rewrite drop_all_false by (constructor; auto).
      reflexivity.
    + destruct xs as [|z xs]; [reflexivity|]. simpl.
      rewrite IH. reflexivity.
Qed.

Lemma without_rows_or_mask_false (a b : list bool) (df : frame) :
  Forall (fun x => x = false) a ->
  without_rows (or_mask a b) df = without_rows b df.
Proof.
  intros Ha. unfold without_rows. apply map_ext. intros [n [xs|bs|ts]];
    simpl; rewrite drop_or_mask_false by assumption; reflexivity.
Qed.

Lemma without_rows_all_false (m : list bool) (df : frame) :
  Forall (fun x => x = false) m -> without_rows m df = df.
Proof.
  intros Hm. unfold without_rows. rewrite <- (map_id df) at 2.
  apply map_ext. intros [n [xs|bs|ts]]; simpl;
    rewrite drop_all_false by assumption; reflexivity.
Qed.

Lemma without_derived_cleaned (df : frame) :
  without_derived (cleaned df) = cleaned df.
Proof.
  unfold cleaned. generalize (without_rows (removed_rows df) (imputed df)).
  intros d. unfold without_derived.
  induction d as [|[n s] d IH]; simpl; [reflexivity|].
  destruct (derived n) eqn:D; simpl; [exact IH|].
  rewrite D. simpl. rewrite IH. reflexivity.
Qed.

(** The cleaned frame of a cleaned frame: the rows that are outliers
    against its own statistics are removed, and nothing else changes. *)
Lemma cleaned_cleaned (df : frame) :
  unique_columns df = true ->
  cleaned (cleaned df) =
  without_rows (outlier_rows (cleaned df)) (cleaned df).
Proof.
  intros Hu. unfold cleaned at 1. unfold removed_rows.
  rewrite (imputed_cleaned df Hu).
  rewrite without_rows_or_mask_false by apply missing_rows_cleaned.
  rewrite without_derived_without_rows, without_derived_cleaned.
  reflexivity.
Qed.

(** C3, as the code has it.  The pass completes on its own output, fills
    nothing and removes no row for a missing value: it removes the rows
    that are outliers against the mean and the standard deviation of the
    output itself, and returns the output unchanged when there is no such
    row. *)
Theorem C3_second_pass (df out : frame) (rep : report) :
  unique_columns df = true ->
  clean df = inr (out, rep) ->
  exists rep',
    clean out = inr (without_rows (outlier_rows out) out, rep') /\
    imputed out = out /\
    Forall (fun b => b = false) (missing_rows out) /\
    (Forall (fun b => b = false) (outlier_rows out) ->
     clean out = inr (out, rep')).
Proof.
  intros Hu H. destruct (clean_inr df Hu H) as (Hr & -> & _).
  pose proof (clean_ready (cleaned df) (unique_cleaned df Hu)
                (ready_cleaned df Hr)) as H2.
  rewrite (cleaned_cleaned df Hu) in H2.
  eexists. split; [exact H2|]. split; [apply imputed_cleaned; exact Hu|].
  split; [apply missing_rows_cleaned|].
  intros Hf. rewrite H2. rewrite without_rows_all_false by exact Hf.
  reflexivity.
Qed.

Lemma C3_witness :
  unique_columns scenario = true /\
  clean scenario = inr (run scenario) /\
  Forall (fun b => b = false) (outlier_rows (fst (run scenario))) /\
  exists rep', clean (fst (run scenario)) = inr (fst (run scenario), rep').
Proof.
  assert (H : clean scenario = inr (fst (run scenario), snd (run scenario)))
    by (vm_compute; reflexivity).
  assert (F : Forall (fun b => b = false) (outlier_rows (fst (run scenario))))
    by (vm_compute; repeat constructor).
  split; [reflexivity|]. split; [vm_compute; reflexivity|].
  split; [exact F|].
  destruct (@C3_second_pass scenario _ _ eq_refl H) as (rep' & _ & _ & _ & E).
  exists rep'. exact (E F).
Defined.

(** C3 as stated fails: the pass removes a row of its own output.  Without
    the row of 1000, the value 10 is an outlier among the zeros. *)
Lemma C3_counterexample :
  clean twice = inr (run twice) /\
  clean (fst (run twice)) = inr (run (fst (run twice))) /\
  nrows (fst (run twice)) = 11%nat /\
  nrows (fst (run (fst (run twice)))) = 10%nat /\
  fst (run (fst (run twice))) <> fst (run twice).
Proof.
  split; [vm_compute; reflexivity|]. split; [vm_compute; reflexivity|].
  split; [vm_compute; reflexivity|]. split; [vm_compute; reflexivity|].
  intros E. apply (f_equal nrows) in E. vm_compute in E. discriminate.
Qed.

(** * More properties of the cells *)

Unset Implicit Arguments.

(** ** Which error the pass raises *)

Module ErrorMore.

Import Stats Frame Notebook Reference Checks.
Import MaskFacts FrameFacts NameFacts PassFacts ErrorFacts.

Local Open Scope string_scope.

(** A step of the first loop on a column that is absent or casts to
    float. *)
Lemma zscore_col_castable (df : frame) (w : wframe) (k : string) :
  get k w = option_map Col (get k df) -> uncastable df k = false ->
  exists w1, zscore_col w k = inr w1.
Proof.
  intros G U. unfold zscore_col. rewrite G. unfold uncastable in U.
  destruct (get k df) as [s|]; simpl; [|eauto].
  destruct (as_float s); [simpl; eauto | discriminate].
Qed.

(** The first loop stops at the first target column that is present and
    does not cast to float. *)
Lemma zscore_fold_type_error (df : frame) (ks : list string) (w : wframe)
  (k : string) :
  Forall (fun k => derived k = false) ks ->
  (forall k', In k' ks -> get k' w = option_map Col (get k' df)) ->
  find (uncastable df) ks = Some k ->
  foldM zscore_col ks w = inl (TypeError k).
Proof.
  intros Hks. revert w. induction Hks as [|k0 ks Hk0 Hks IH]; intros w Hw.
  - discriminate.
  - simpl. destruct (uncastable df k0) eqn:U.
    + intros [= <-]. unfold zscore_col. rewrite (Hw k0) by (left; reflexivity).
      unfold uncastable in U. destruct (get k0 df) as [s|]; [|discriminate].
      simpl. destruct (as_float s); [discriminate | reflexivity].
    + intros F.
      destruct (zscore_col_castable df w k0 (Hw k0 (or_introl eq_refl)) U)
        as [w1 H1].
      rewrite H1. simpl. apply IH; [|exact F].
      intros k' Hk'. rewrite Forall_forall in Hks.
      destruct (@not_derived_names k' k0 (Hks k' Hk')).
      rewrite (zscore_col_get _ _ H1) by assumption.
      apply Hw. right. exact Hk'.
Qed.

Lemma zscore_fold_castable (df : frame) (ks : list string) (w : wframe) :
  Forall (fun k => derived k = false) ks ->
  (forall k', In k' ks -> get k' w = option_map Col (get k' df)) ->
  find (uncastable df) ks = None ->
  exists w', foldM zscore_col ks w = inr w'.
Proof.
  intros Hks. revert w. induction Hks as [|k0 ks Hk0 Hks IH]; intros w Hw.
  - simpl. eauto.
  - simpl. destruct (uncastable df k0) eqn:U; [discriminate|]. intros F.
    destruct (zscore_col_castable df w k0 (Hw k0 (or_introl eq_refl)) U)
      as [w1 H1].
    rewrite H1. simpl. apply IH; [|exact F].
    intros k' Hk'. rewrite Forall_forall in Hks.
    destruct (@not_derived_names k' k0 (Hks k' Hk')).
    rewrite (zscore_col_get _ _ H1) by assumption.
    apply Hw. right. exact Hk'.
Qed.

Lemma get_derived_plain (df : frame) (n : string) :
  plain_names df = true -> derived n = true -> get n df = None.
Proof.
  unfold plain_names, columns. intros Hp Hn.
  induction df as [|[n0 s0] df IH]; simpl in *; [reflexivity|].
  apply andb_prop in Hp. destruct Hp as [H0 Hp].
  destruct (String.eqb n n0) eqn:E; [|auto].
  apply String.eqb_eq in E. subst n0. rewrite Hn in H0. discriminate.
Qed.

Lemma flags_only_of_frame (df : frame) :
  plain_names df = true -> flags_only (of_frame df).
Proof.
  intros Hp k. left. rewrite get_of_frame.
  rewrite (get_derived_plain df _ Hp (derived_outlier k)). reflexivity.
Qed.

Lemma flags_only_zscore_col (w w1 : wframe) (k : string) :
  flags_only w -> zscore_col w k = inr w1 -> flags_only w1.
Proof.
  intros Hw H. apply zscore_col_inv in H.
  destruct H as [[_ ->] | (s & xs & _ & _ & ->)]; [exact Hw|].
  intros k'. destruct (String.eqb (k' ++ "_outlier") (k ++ "_outlier")) eqn:E.
  - apply String.eqb_eq in E. rewrite E, get_set_same. right. eauto.
  - apply String.eqb_neq in E. rewrite get_set_other by exact E.
    rewrite get_set_other; [apply Hw|].
    intros C. symmetry in C. revert C. apply zscore_not_outlier.
Qed.

Lemma flags_only_zscore_fold (ks : list string) (w w' : wframe) :
  flags_only w -> foldM zscore_col ks w = inr w' -> flags_only w'.
Proof.
  revert w. induction ks as [|k ks IH]; simpl; intros w Hw H.
  - injection H as <-. exact Hw.
  - apply bind_inr in H. destruct H as (w1 & H1 & H).
    apply (IH w1); [|exact H]. eapply flags_only_zscore_col; eauto.
Qed.

Lemma outlier_counts_flags_only (ks : list string) (w : wframe) :
  flags_only w -> exists cs, outlier_counts_of ks w = inr cs.
Proof.
  intros Hw. induction ks as [|k ks IH]; simpl; [eauto|].
  destruct IH as [cs IH].
  destruct (Hw k) as [-> | [bs ->]]; [eauto|].
  simpl. rewrite IH. simpl. eauto.
Qed.

(** The first two loops and the imputation skip the absent target
    columns; [dropna] meets them. *)
Lemma clean_absent_targets (df : frame) :
  plain_names df = true ->
  find (uncastable df) key_cols = None ->
  absent_targets df <> [] ->
  clean df = inl (KeyError (absent_targets df)).
Proof.
  intros Hp Hf Ha. destruct key_cols_good as [_ Hder].
  assert (Hw0 : forall k, In k key_cols ->
            get k (of_frame df) = option_map Col (get k df))
    by (intros; apply get_of_frame).
  destruct (zscore_fold_castable df key_cols (of_frame df) Hder Hw0 Hf)
    as [w1 H1].
  pose proof (flags_only_zscore_fold key_cols _ _ (flags_only_of_frame df Hp) H1)
    as F1.
  destruct (outlier_counts_flags_only key_cols _ F1) as [cs Hc].
  pose proof (zscore_fold_step (zscores_named_of_frame df) Hder) as Z1.
  rewrite H1 in Z1.
  destruct (impute_fold_step Z1 Hder) as (w2 & H2 & _).
  unfold clean, zscore_cell, outlier_counts, impute.
  rewrite H1. cbn [bind]. rewrite Hc. cbn [bind]. rewrite H2. cbn [bind].
  assert (E : filter (fun col => negb (has col w2)) key_cols =
              absent_targets df).
  { unfold absent_targets. apply filter_ext_in. intros k Hk. f_equal.
    rewrite Forall_forall in Hder.
    assert (G : get k w1 = get k (of_frame df)).
    { apply (@zscore_fold_get key_cols _ _ k H1).
      intros k' _. apply not_derived_names. auto. }
    assert (C : columns w2 = columns w1)
      by (apply (@impute_fold_columns key_cols); exact H2).
    destruct (has k w2) eqn:E2.
    - apply has_columns in E2. rewrite C in E2. apply has_columns in E2.
      unfold has in *. rewrite G, get_of_frame in E2.
      destruct (get k df); [reflexivity | discriminate].
    - destruct (has k df) eqn:E0; [|reflexivity].
      assert (E1 : has k w1 = true).
      { unfold has in *. rewrite G, get_of_frame.
        destruct (get k df); [reflexivity | discriminate]. }
      apply has_columns in E1. rewrite <- C in E1. apply has_columns in E1.
      congruence. }
  unfold dropna. rewrite E.
  destruct (absent_targets df) as [|a l]; [contradiction | reflexivity].
Qed.

Lemma clean_uncastable (df : frame) (k : string) :
  find (uncastable df) key_cols = Some k -> clean df = inl (TypeError k).
Proof.
  intros Hf. destruct key_cols_good as [_ Hder]. unfold clean, zscore_cell.
  rewrite (zscore_fold_type_error df key_cols (of_frame df) k Hder);
    [reflexivity | | exact Hf].
  intros; apply get_of_frame.
Qed.

End ErrorMore.

(** ** More on the z-scores and the flags *)

Module StatsMore.

Import Stats Checks StatsFacts.

Local Open Scope Q_scope.

Lemma In_omit (xs : list (option Q)) (q : Q) :
  In (Some q) xs -> In q (omit xs).
Proof.
  induction xs as [|[x|] xs IH]; simpl; [tauto| |].
  - intros [[= ->] | H]; auto.
  - intros [[=] | H]; auto.
Qed.

Lemma Qsum_ext (f g : Q -> Q) (l : list Q) :
  (forall y, In y l -> f y == g y) -> Qsum (map f l) == Qsum (map g l).
Proof.
  induction l as [|x l IH]; intros H; simpl; [reflexivity|].
  rewrite (H x) by (left; reflexivity).
  rewrite IH by (intros; apply H; right; assumption). reflexivity.
Qed.

Lemma Qsum_scale (c : Q) (f : Q -> Q) (l : list Q) :
  Qsum (map (fun y => c * f y) l) == c * Qsum (map f l).
Proof.
  induction l as [|x l IH]; simpl; [lra | rewrite IH; lra].
Qed.

Lemma Qsum_shift (c : Q) (l : list Q) :
  Qsum (map (fun y => y - c) l) == Qsum l - Qlen l * c.
Proof.
  induction l as [|x l IH]; [simpl; rewrite Qlen_nil; lra|].
  rewrite Qlen_cons. simpl. rewrite IH. lra.
Qed.

Lemma Qlen_map (f : Q -> Q) (l : list Q) : Qlen (map f l) = Qlen l.
Proof. unfold Qlen. rewrite length_map. reflexivity. Qed.

(** The deviations from the mean sum to zero. *)
Lemma deviations_sum (y : Q) (ys : list Q) :
  Qsum (map (fun x => x - mean (y :: ys)) (y :: ys)) == 0.
Proof.
  rewrite Qsum_shift. unfold mean. pose proof (Qlen_pos y ys). field. lra.
Qed.

(** The square of a sum is at most the number of terms times the sum of
    the squares. *)
Lemma sum_sq_bound (l : list Q) : sq (Qsum l) <= Qlen l * Qsum (map sq l).
Proof.
  induction l as [|x l IH].
  - simpl. rewrite Qlen_nil. unfold sq. lra.
  - rewrite Qlen_cons. simpl Qsum. simpl map. simpl Qsum.
    assert (Hq : 0 <= Qsum (map sq l))
      by (apply Qsum_nonneg; intros; apply sq_nonneg).
    destruct l as [|x0 l].
    + simpl. rewrite Qlen_nil. unfold sq. lra.
    + pose proof (Qlen_pos x0 l) as Hn.
      set (n := Qlen (x0 :: l)) in *. set (s := Qsum (x0 :: l)) in *.
      set (q := Qsum (map sq (x0 :: l))) in *. unfold sq in *.
      clearbody n s q.
      assert (A : 0 <= (n * x - s) * (n * x - s))
        by (apply (sq_nonneg (n * x - s))).
      assert (B : 0 <= n * (n * (x * x) - 2 * (x * s) + q)) by nra.
      assert (C : 0 <= n * (x * x) - 2 * (x * s) + q) by nra.
      nra.
Qed.

(** No value is further from the mean than the square root of [n - 1]
    standard deviations, [n] being the number of values. *)
Lemma deviation_bound (ys : list Q) (y : Q) :
  In y ys -> sq (y - mean ys) <= (Qlen ys - 1) * var ys.
Proof.
  intros Hin. destruct ys as [|y0 ys0]; [contradiction|].
  pose proof (var_sum y0 ys0) as S. pose proof (Qlen_pos y0 ys0) as Hn.
  pose proof (deviations_sum y0 ys0) as Z.
  revert Hin S Hn Z. generalize (mean (y0 :: ys0)). generalize (var (y0 :: ys0)).
  generalize (y0 :: ys0). clear y0 ys0. intros ys v c Hin S Hn Z.
  apply in_split in Hin. destruct Hin as (l1 & l2 & ->).
  unfold sq in *.
  rewrite map_app, Qsum_app in S, Z. simpl in S, Z.
  rewrite Qlen_app, Qlen_cons in *.
  pose proof (sum_sq_bound (map (fun x => x - c) (l1 ++ l2))) as B.
  unfold sq in B.
  rewrite Qlen_map, Qlen_app, map_map, !map_app, !Qsum_app in B.
  pose proof (Qlen_nonneg l1) as P1. pose proof (Qlen_nonneg l2) as P2.
  set (n1 := Qlen l1) in *. set (n2 := Qlen l2) in *.
  set (s1 := Qsum (map (fun x => x - c) l1)) in *.
  set (s2 := Qsum (map (fun x => x - c) l2)) in *.
  set (q1 := Qsum (map (fun x => (x - c) * (x - c)) l1)) in *.
  set (q2 := Qsum (map (fun x => (x - c) * (x - c)) l2)) in *.
  set (d := y - c) in *. clearbody n1 n2 s1 s2 q1 q2 d.
  assert (E : s1 + s2 == - d) by lra.
  assert (B' : d * d <= (n1 + n2) * (q1 + q2)).
  { assert (X : (s1 + s2) * (s1 + s2) == d * d) by (rewrite E; ring).
    rewrite <- X. exact B. }
  assert (T : (n1 + (1 + n2)) * (d * d) <=
              (n1 + (1 + n2) - 1) * (v * (n1 + (1 + n2)))) by nra.
  set (n := n1 + (1 + n2)) in *.
  destruct (Qlt_le_dec ((n - 1) * v) (d * d)) as [C|C]; [|exact C].
  assert (n * ((n - 1) * v) < n * (d * d)) by nra. nra.
Qed.

(** With ten values or fewer, no exact z-score is above 3; with ten, a
    single deviating value is at 3 itself. *)
Lemma few_values_no_flag (xs : list (option Q)) :
  (count_values xs <= 10)%nat ->
  map abs_gt_3 (zscore xs) = map (fun _ => false) xs.
Proof.
  unfold count_values. intros Hn. unfold zscore. cbv zeta.
  rewrite map_map. apply map_ext_in. intros [q|] Hq; [|reflexivity].
  destruct (Qlt_bool 0 (var (omit xs))) eqn:V; [|reflexivity].
  simpl. apply Qlt_bool_false. apply Qlt_bool_true in V.
  pose proof (deviation_bound (omit xs) q (In_omit xs q Hq)) as D.
  assert (L : Qlen (omit xs) <= 10).
  { unfold Qlen. change 10 with (inject_Z 10). rewrite <- Zle_Qle. lia. }
  set (v := var (omit xs)) in *. set (n := Qlen (omit xs)) in *.
  set (d := sq (q - mean (omit xs))) in *.
  assert ((n - 1) * v <= 9 * v) by nra. lra.
Qed.

Lemma Qsum_filter_le (f : Q -> Q) (p : Q -> bool) (l : list Q) :
  (forall y, In y l -> 0 <= f y) ->
  Qsum (map f (filter p l)) <= Qsum (map f l).
Proof.
  induction l as [|x l IH]; intros H; simpl; [lra|].
  assert (0 <= f x) by (apply H; left; reflexivity).
  assert (Qsum (map f (filter p l)) <= Qsum (map f l))
    by (apply IH; intros; apply H; right; assumption).
  destruct (p x); simpl; lra.
Qed.

(** The flags of a column of positive variance, counted on its values. *)
Lemma count_flags (xs : list (option Q)) (m v : Q) :
  count_true
    (map abs_gt_3
       (map (fun x => match x with
                      | Some q => Some (Root (q - m) v)
                      | None => None
                      end) xs)) =
  length (filter (fun q => Qlt_bool (9 * v) (sq (q - m))) (omit xs)).
Proof.
  unfold count_true. induction xs as [|[q|] xs IH]; simpl; [reflexivity| |].
  - destruct (Qlt_bool (9 * v) (sq (q - m))); simpl; rewrite IH; reflexivity.
  - exact IH.
Qed.

(** At most one value in nine is flagged. *)
Lemma flag_count_bound (xs : list (option Q)) :
  9 * inject_Z (Z.of_nat (count_true (map abs_gt_3 (zscore xs))))
  <= Qlen (omit xs).
Proof.
  unfold zscore. cbv zeta.
  destruct (Qlt_bool 0 (var (omit xs))) eqn:V.
  - rewrite count_flags. apply Qlt_bool_true in V.
    set (p := fun q => Qlt_bool (9 * var (omit xs)) (sq (q - mean (omit xs)))).
    set (f := fun q => sq (q - mean (omit xs))).
    assert (L : Qlen (filter p (omit xs)) * (9 * var (omit xs))
                <= Qsum (map f (filter p (omit xs)))).
    { apply Qsum_lower. intros x Hx. apply filter_In in Hx.
      destruct Hx as [_ Hx]. unfold p in Hx. apply Qlt_bool_true in Hx.
      unfold f. lra. }
    assert (U : Qsum (map f (filter p (omit xs))) <= Qsum (map f (omit xs)))
      by (apply Qsum_filter_le; intros; apply sq_nonneg).
    assert (S : Qsum (map f (omit xs)) == var (omit xs) * Qlen (omit xs)).
    { destruct (omit xs) as [|y ys]; [|apply var_sum].
      exfalso. vm_compute in V. discriminate. }
    fold (Qlen (filter p (omit xs))).
    set (c := Qlen (filter p (omit xs))) in *.
    set (n := Qlen (omit xs)) in *. set (v := var (omit xs)) in *.
    clearbody c n v.
    destruct (Qlt_le_dec n (9 * c)) as [C|C]; [|exact C].
    assert (v * n < v * (9 * c)) by nra. lra.
  - assert (E : map abs_gt_3
                  (map (fun x : option Q =>
                          match x with
                          | Some _ => None
                          | None => None
                          end) xs) = map (fun _ => false) xs).
    { rewrite map_map. apply map_ext. intros [q|]; reflexivity. }
    rewrite E, count_true_all_false.
    change (inject_Z (Z.of_nat 0)) with 0.
    pose proof (Qlen_nonneg (omit xs)). lra.
Qed.

(** *** Filling *)

Lemma median_some (y : Q) (ys : list Q) : exists m, median (y :: ys) = Some m.
Proof.
  unfold median.
  pose proof (Permutation_length (sort_perm (y :: ys))) as L.
  destruct (length (sort (y :: ys))) as [|n]; [simpl in L; discriminate|].
  destruct (Nat.even (S n)); eauto.
Qed.

Lemma fillna_full (m : Q) (xs : list (option Q)) :
  count_true (isna (fillna (Some m) xs)) = O.
Proof.
  unfold count_true, isna. simpl. induction xs as [|[q|] xs IH]; simpl; auto.
Qed.

Lemma omit_nil_isna (xs : list (option Q)) :
  omit xs = [] -> isna xs = map (fun _ => true) xs.
Proof.
  induction xs as [|[q|] xs IH]; simpl; [reflexivity|discriminate|].
  intros H. rewrite IH by exact H. reflexivity.
Qed.

End StatsMore.

(** ** The shape of the cleaned frame *)

Module ShapeMore.

Import Stats Frame Notebook Reference Checks.
Import MaskFacts FrameFacts NameFacts PassFacts StatsFacts CleanedFacts.
Import RowFacts StatsMore.

Lemma length_or_mask (a b : list bool) :
  length (or_mask a b) = Nat.max (length a) (length b).
Proof.
  revert b; induction a as [|x a IH]; intros [|y b]; simpl; auto.
Qed.

Lemma length_sisna (s : series) : length (sisna s) = slen s.
Proof.
  destruct s; simpl; unfold isna; apply length_map.
Qed.

Lemma length_fillna (value : option Q) (xs : list (option Q)) :
  length (fillna value xs) = length xs.
Proof. destruct value; simpl; [apply length_map | reflexivity]. Qed.

Lemma slen_fill (s : series) : slen (fill s) = slen s.
Proof. destruct s; simpl; try apply length_fillna; reflexivity. Qed.

Lemma as_float_length (s : series) (xs : list (option Q)) :
  as_float s = Some xs -> length xs = slen s.
Proof.
  destruct s; simpl; intros [= <-]; [reflexivity | apply length_map].
Qed.

Lemma length_outlier_flags (s : series) (xs : list (option Q)) :
  as_float s = Some xs -> length (outlier_flags s) = slen s.
Proof.
  intros C. unfold outlier_flags. rewrite C. unfold zscore.
  rewrite !length_map. apply as_float_length. exact C.
Qed.

Lemma rectangular_slen (df : frame) (n : string) (s : series) :
  rectangular df = true -> get n df = Some s -> slen s = nrows df.
Proof.
  unfold rectangular. rewrite forallb_forall. intros H G.
  apply get_In in G. apply H in G. apply Nat.eqb_eq in G. exact G.
Qed.

Lemma length_missing_rows (ks : list string) (d : frame) (n : nat) :
  (forall k, In k ks -> exists s, get k d = Some s /\ slen s = n) ->
  length (missing_rows_of ks d) = match ks with [] => O | _ => n end.
Proof.
  induction ks as [|k ks IH]; intros H; [reflexivity|].
  simpl. destruct (H k) as (s & -> & L); [left; reflexivity|].
  rewrite length_or_mask, length_sisna, L, IH
    by (intros; apply H; right; assumption).
  destruct ks; lia.
Qed.

Lemma length_outlier_rows (ks : list string) (df : frame) (n : nat) :
  (forall k, In k ks ->
     exists s xs, get k df = Some s /\ as_float s = Some xs /\ slen s = n) ->
  length (outlier_rows_of ks df) = match ks with [] => O | _ => n end.
Proof.
  induction ks as [|k ks IH]; intros H; [reflexivity|].
  simpl. destruct (H k) as (s & xs & -> & C & L); [left; reflexivity|].
  rewrite length_or_mask, (length_outlier_flags s xs C), L, IH
    by (intros; apply H; right; assumption).
  destruct ks; lia.
Qed.

(** On a rectangular frame, the mask of the removed rows has one bit for
    every row. *)
Lemma length_removed_rows (df : frame) :
  rectangular df = true -> targets_ready df = true ->
  length (removed_rows df) = nrows df.
Proof.
  intros Hr Ht. pose proof (ready_castable df Ht) as Hk.
  unfold removed_rows, missing_rows, outlier_rows.
  rewrite length_or_mask.
  rewrite (length_missing_rows key_cols (imputed df) (nrows df)).
  - rewrite (length_outlier_rows key_cols df (nrows df)).
    + simpl. lia.
    + intros k Hin. destruct (Hk k Hin) as (s & xs & G & C).
      exists s, xs. split; [exact G|]. split; [exact C|].
      eapply rectangular_slen; eauto.
  - intros k Hin. destruct (Hk k Hin) as (s & xs & G & C).
    exists (fill s). rewrite get_imputed, G. split.
    + simpl. apply is_key_In in Hin. rewrite Hin. reflexivity.
    + rewrite slen_fill. eapply rectangular_slen; eauto.
Qed.

Lemma length_drop_count (A : Type) (m : list bool) (xs : list A) :
  length m = length xs ->
  (length (drop m xs) + count_true m = length xs)%nat.
Proof.
  unfold count_true. revert xs; induction m as [|b m IH]; intros [|x xs];
    simpl; try discriminate; [reflexivity|].
  intros [= H]. specialize (IH xs H). destruct b; simpl; lia.
Qed.

Lemma slen_removed (m : list bool) (s : series) :
  length m = slen s -> (slen (sdrop m s) + count_true m = slen s)%nat.
Proof.
  intros H. rewrite (@slen_sdrop m s bool m H).
  rewrite <- H. apply length_drop_count. reflexivity.
Qed.

(** Every column of the cleaned frame has lost the removed rows. *)
Lemma slen_cleaned (df : frame) (n : string) (s : series) :
  rectangular df = true -> targets_ready df = true ->
  In (n, s) (cleaned df) ->
  (slen s + count_true (removed_rows df) = nrows df)%nat.
Proof.
  intros Hr Ht Hin. unfold cleaned, without_derived in Hin.
  apply filter_In in Hin. destruct Hin as [Hin _].
  unfold without_rows in Hin. apply in_map_iff in Hin.
  destruct Hin as ([n1 s1] & E & Hin). simpl in E. injection E as -> <-.
  unfold imputed in Hin. apply in_map_iff in Hin.
  destruct Hin as ([n0 s0] & E & Hin). simpl in E.
  assert (L0 : slen s0 = nrows df).
  { unfold rectangular in Hr. rewrite forallb_forall in Hr.
    apply Hr in Hin. apply Nat.eqb_eq in Hin. exact Hin. }
  assert (L1 : slen s1 = nrows df).
  { destruct (is_key n0); injection E as _ <-; [rewrite slen_fill|];
      exact L0. }
  rewrite <- L1. apply slen_removed.
  rewrite length_removed_rows by assumption. symmetry. exact L1.
Qed.

Lemma cleaned_has_ghi (df : frame) :
  targets_ready df = true -> cleaned df <> [].
Proof.
  intros Ht.
  assert (K : In "GHI"%string key_cols) by (left; reflexivity).
  destruct (@ready_castable df Ht "GHI"%string K) as (s & xs & G & _).
  intros E. pose proof (@get_cleaned_key df "GHI"%string K) as X.
  rewrite E, G in X. discriminate X.
Qed.

(** The cleaned frame is rectangular, and its rows are those of the input
    less the removed ones. *)
Lemma cleaned_shape (df : frame) :
  rectangular df = true -> targets_ready df = true ->
  rectangular (cleaned df) = true /\
  (nrows (cleaned df) + count_true (removed_rows df) = nrows df)%nat.
Proof.
  intros Hr Ht. pose proof (slen_cleaned df) as H.
  pose proof (cleaned_has_ghi df Ht) as Hne.
  destruct (cleaned df) as [|[n s] r] eqn:E; [contradiction|].
  assert (H0 : (slen s + count_true (removed_rows df) = nrows df)%nat)
    by (apply (H n s Hr Ht); left; reflexivity).
  split; [|exact H0].
  unfold rectangular. apply forallb_forall. intros [n1 s1] Hin.
  simpl. apply Nat.eqb_eq.
  specialize (H n1 s1 Hr Ht Hin). lia.
Qed.

(** *** A target column without any value *)

Lemma nth_missing_rows_true (ks : list string) (d : frame) (k : string)
  (s : series) (i : nat) :
  In k ks -> get k d = Some s -> nth i (sisna s) false = true ->
  nth i (missing_rows_of ks d) false = true.
Proof.
  induction ks as [|k0 ks IH]; simpl; [contradiction|].
  intros [-> | Hin] G H.
  - rewrite G, nth_or_mask, H. reflexivity.
  - specialize (IH Hin G H). destruct (get k0 d); [|exact IH].
    rewrite nth_or_mask, IH. apply orb_true_r.
Qed.

Lemma all_true_count (m : list bool) :
  (forall i, (i < length m)%nat -> nth i m false = true) ->
  count_true m = length m.
Proof.
  unfold count_true. induction m as [|b m IH]; intros H; [reflexivity|].
  assert (b = true) by (apply (H O); simpl; lia). subst b. simpl.
  f_equal. apply IH. intros i Hi. apply (H (S i)). simpl. lia.
Qed.

Lemma nth_all_true (A : Type) (xs : list A) (i : nat) :
  (i < length xs)%nat -> nth i (map (fun _ => true) xs) false = true.
Proof.
  revert i; induction xs as [|x xs IH]; intros [|i]; simpl; try lia; auto.
  intros H. apply IH. lia.
Qed.

Lemma removed_rows_hollow (df : frame) (k : string) (xs : list (option Q)) :
  rectangular df = true -> targets_ready df = true ->
  In k key_cols -> get k df = Some (Floats xs) -> omit xs = [] ->
  count_true (removed_rows df) = nrows df.
Proof.
  intros Hr Ht Hk G Hx.
  rewrite <- (length_removed_rows df Hr Ht). apply all_true_count.
  intros i Hi. rewrite (length_removed_rows df Hr Ht) in Hi.
  unfold removed_rows. rewrite nth_or_mask.
  rewrite (nth_missing_rows_true key_cols (imputed df) k (Floats xs));
    [reflexivity | exact Hk | |].
  - rewrite get_imputed, G. simpl. apply is_key_In in Hk. rewrite Hk.
    simpl. rewrite Hx. reflexivity.
  - simpl. rewrite (omit_nil_isna xs Hx).
    assert (L : length xs = nrows df)
      by (apply (rectangular_slen df k (Floats xs) Hr G)).
    apply nth_all_true. lia.
Qed.

(** A target column that is missing in every row takes every row with
    it. *)
Lemma cleaned_hollow (df : frame) (k : string) (xs : list (option Q)) :
  rectangular df = true -> targets_ready df = true ->
  In k key_cols -> get k df = Some (Floats xs) -> omit xs = [] ->
  nrows (cleaned df) = O /\
  (forall n s, In (n, s) (cleaned df) -> slen s = O).
Proof.
  intros Hr Ht Hk G Hx.
  pose proof (removed_rows_hollow df k xs Hr Ht Hk G Hx) as C.
  destruct (cleaned_shape df Hr Ht) as [_ N]. split; [lia|].
  intros n s Hin. pose proof (slen_cleaned df n s Hr Ht Hin). lia.
Qed.

(** *** Target columns that all have a value *)

Lemma valued_ready (df : frame) :
  targets_valued df = true -> targets_ready df = true.
Proof.
  unfold targets_valued, targets_ready. rewrite !forallb_forall.
  intros H k Hk. specialize (H k Hk). unfold has_value in H.
  unfold castable. destruct (get k df) as [s|]; [|discriminate].
  destruct (as_float s); [reflexivity | discriminate].
Qed.

Lemma missing_rows_none (ks : list string) (d : frame) :
  (forall k s, In k ks -> get k d = Some s -> count_na s = O) ->
  Forall (fun b => b = false) (missing_rows_of ks d).
Proof.
  induction ks as [|k ks IH]; intros H; simpl; [constructor|].
  assert (IH' : Forall (fun b => b = false) (missing_rows_of ks d))
    by (apply IH; intros k' s' Hk'; apply H; right; exact Hk').
  destruct (get k d) as [s|] eqn:G; [|exact IH'].
  apply or_mask_false; [|exact IH'].
  apply count_true_zero. apply (H k s); [left; reflexivity | exact G].
Qed.

Lemma count_na_filled (s : series) (xs : list (option Q)) :
  as_float s = Some xs -> (0 < count_values xs)%nat -> count_na (fill s) = O.
Proof.
  unfold count_na, count_values. destruct s as [ys|bs|ts]; simpl;
    intros [= <-] Hn.
  - destruct (omit ys) as [|y l]; [simpl in Hn; lia|].
    destruct (median_some y l) as [m ->]. apply fillna_full.
  - clear Hn. induction bs; simpl; auto.
Qed.

(** When every target column has a value, no value is missing after
    imputation. *)
Lemma missing_rows_valued (df : frame) :
  targets_valued df = true ->
  Forall (fun b => b = false) (missing_rows (imputed df)).
Proof.
  intros Hv. unfold targets_valued in Hv. rewrite forallb_forall in Hv.
  apply missing_rows_none. intros k s Hk G.
  specialize (Hv k Hk). unfold has_value in Hv.
  rewrite get_imputed in G. destruct (get k df) as [s0|]; [|discriminate].
  apply is_key_In in Hk. rewrite Hk in G. injection G as <-.
  destruct (as_float s0) as [xs|] eqn:C; [|discriminate].
  apply (count_na_filled s0 xs C). apply Nat.ltb_lt. exact Hv.
Qed.

Lemma cleaned_valued (df : frame) :
  targets_valued df = true ->
  cleaned df = without_derived (without_rows (outlier_rows df) (imputed df)).
Proof.
  intros Hv. unfold cleaned, removed_rows.
  rewrite without_rows_or_mask_false by (apply missing_rows_valued; exact Hv).
  reflexivity.
Qed.

(** *** How many rows are removed *)

Lemma count_or_mask (a b : list bool) :
  (count_true (or_mask a b) <= count_true a + count_true b)%nat.
Proof.
  unfold count_true. revert b; induction a as [|x a IH]; intros [|y b];
    simpl; try lia.
  specialize (IH b). destruct x, y; simpl; lia.
Qed.

Lemma count_outlier_rows (ks : list string) (df : frame) :
  (count_true (outlier_rows_of ks df)
   <= list_sum (map (fun k => count_true (flags_of df k)) ks))%nat.
Proof.
  induction ks as [|k ks IH]; simpl; [unfold count_true; simpl; lia|].
  unfold flags_of at 1. destruct (get k df) as [s|].
  - pose proof (count_or_mask (outlier_flags s) (outlier_rows_of ks df)). lia.
  - unfold count_true at 2. simpl. lia.
Qed.

Lemma Qsum_counts (df : frame) (ks : list string) :
  Qsum (map snd
          (map (fun col =>
                  (col, inject_Z (Z.of_nat (count_true (flags_of df col)))))
             ks)) ==
  inject_Z (Z.of_nat (list_sum (map (fun k => count_true (flags_of df k)) ks))).
Proof.
  induction ks as [|k ks IH]; simpl Qsum; simpl map; simpl list_sum;
    [reflexivity|].
  simpl Qsum. rewrite IH, Nat2Z.inj_add, inject_Z_plus. reflexivity.
Qed.

(** When every target column has a value, the rows removed are at most
    as many as the flags counted in the report. *)
Lemma removed_rows_bound (df : frame) :
  rectangular df = true -> targets_valued df = true ->
  inject_Z (Z.of_nat (nrows df - nrows (cleaned df)))
  <= Qsum (map snd (counts df)).
Proof.
  intros Hr Hv. pose proof (valued_ready df Hv) as Ht.
  destruct (cleaned_shape df Hr Ht) as [_ N].
  unfold counts. rewrite Qsum_counts. rewrite <- Zle_Qle.
  apply Nat2Z.inj_le.
  pose proof (count_or_mask (missing_rows (imputed df)) (outlier_rows df)) as A.
  pose proof (count_outlier_rows key_cols df) as B.
  pose proof (missing_rows_valued df Hv) as M.
  apply count_true_zero in M.
  unfold removed_rows, outlier_rows in *. lia.
Qed.

(** *** A frame with nothing to clean *)

Lemma full_ready_col (df : frame) (n : string) (s : series) :
  unique_columns df = true -> targets_full df = true ->
  In (n, s) df -> is_key n = true -> count_na s = O.
Proof.
  intros Hu Hf Hin Hk. unfold targets_full in Hf.
  rewrite forallb_forall in Hf. apply is_key_In in Hk.
  specialize (Hf n Hk). unfold is_full in Hf.
  apply In_get in Hin; [|apply distinct_NoDup; exact Hu].
  rewrite Hin in Hf. apply Nat.eqb_eq in Hf. exact Hf.
Qed.

Lemma imputed_full (df : frame) :
  unique_columns df = true -> targets_full df = true -> imputed df = df.
Proof.
  intros Hu Hf. unfold imputed. rewrite <- (map_id df) at 2.
  apply map_ext_in. intros [n s] Hin. simpl.
  destruct (is_key n) eqn:K; [|reflexivity].
  rewrite fill_full; [reflexivity|].
  apply (full_ready_col df n s Hu Hf Hin K).
Qed.

Lemma missing_rows_full (df : frame) :
  targets_full df = true ->
  Forall (fun b => b = false) (missing_rows df).
Proof.
  intros Hf. unfold targets_full in Hf. rewrite forallb_forall in Hf.
  apply missing_rows_none. intros k s Hk G. specialize (Hf k Hk).
  unfold is_full in Hf. rewrite G in Hf. apply Nat.eqb_eq in Hf. exact Hf.
Qed.

Lemma no_outlier_false (df : frame) :
  no_outlier df = true -> Forall (fun b => b = false) (outlier_rows df).
Proof.
  unfold no_outlier. rewrite forallb_forall. intros H.
  apply Forall_forall. intros b Hb. apply H in Hb.
  destruct b; [discriminate | reflexivity].
Qed.

Lemma cleaned_tidy (df : frame) :
  unique_columns df = true -> plain_names df = true ->
  targets_full df = true -> no_outlier df = true ->
  cleaned df = df.
Proof.
  intros Hu Hp Hf Ho. unfold cleaned, removed_rows.
  rewrite (imputed_full df Hu Hf).
  rewrite without_rows_or_mask_false by (apply missing_rows_full; exact Hf).
  rewrite without_rows_all_false by (apply no_outlier_false; exact Ho).
  apply without_derived_all. exact Hp.
Qed.

End ShapeMore.

(** ** The report of missing values *)

Module ReportMore.

Import Stats Frame Notebook Reference Checks.
Import FrameFacts StatsFacts.

Local Open Scope Q_scope.

Lemma count_true_le (bs : list bool) : (count_true bs <= length bs)%nat.
Proof.
  unfold count_true. induction bs as [|[|] bs IH]; simpl; lia.
Qed.

Lemma count_na_le (s : series) : (count_na s <= slen s)%nat.
Proof.
  unfold count_na. pose proof (count_true_le (sisna s)) as H.
  destruct s; simpl in *; unfold isna in H; rewrite length_map in H; exact H.
Qed.

(** The lines of the report are the columns with a missing value. *)
Lemma missing_report_lines (df : frame) (n : string) (c : nat) (p : Q) :
  In (n, (c, p)) (missing_report df) <->
  exists s, In (n, s) df /\ c = count_na s /\ (0 < c)%nat /\
            p = missing_pct df c.
Proof.
  unfold missing_report. rewrite filter_In, in_map_iff. simpl. split.
  - intros [([n0 s] & E & Hin) Hc]. simpl in E. injection E as -> <- <-.
    exists s. apply Nat.ltb_lt in Hc. auto.
  - intros (s & Hin & -> & Hc & ->). split.
    + exists (n, s). split; [reflexivity | exact Hin].
    + apply Nat.ltb_lt. exact Hc.
Qed.

Lemma pct_bounds (c N : nat) :
  (0 < c)%nat -> (c <= N)%nat ->
  0 < 100 * inject_Z (Z.of_nat c) / inject_Z (Z.of_nat N) <= 100.
Proof.
  intros Hc HN.
  assert (C : 0 < inject_Z (Z.of_nat c))
    by (change 0 with (inject_Z 0); rewrite <- Zlt_Qlt; lia).
  assert (L : inject_Z (Z.of_nat c) <= inject_Z (Z.of_nat N))
    by (rewrite <- Zle_Qle; lia).
  assert (P : 0 < inject_Z (Z.of_nat N)) by lra.
  split.
  - apply Qlt_shift_div_l; [exact P | lra].
  - apply Qle_shift_div_r; [exact P | lra].
Qed.

Lemma pct_over_5 (c N : nat) :
  (0 < N)%nat ->
  (5 < 100 * inject_Z (Z.of_nat c) / inject_Z (Z.of_nat N) <->
   (N < 20 * c)%nat).
Proof.
  intros HN.
  assert (P : 0 < inject_Z (Z.of_nat N))
    by (change 0 with (inject_Z 0); rewrite <- Zlt_Qlt; lia).
  assert (E : inject_Z (Z.of_nat (20 * c)) == 20 * inject_Z (Z.of_nat c)).
  { rewrite Nat2Z.inj_mul, inject_Z_mult. reflexivity. }
  assert (Q' : (N < 20 * c)%nat <->
               inject_Z (Z.of_nat N) < inject_Z (Z.of_nat (20 * c)))
    by (rewrite <- Zlt_Qlt; lia).
  rewrite Q', E. split.
  - intros H.
    destruct (Qlt_le_dec (inject_Z (Z.of_nat N))
                (20 * inject_Z (Z.of_nat c))) as [A|A]; [exact A|].
    exfalso. apply (Qlt_not_le _ _ H).
    apply Qle_shift_div_r; [exact P | lra].
  - intros H. apply Qlt_shift_div_l; [exact P | lra].
Qed.

Lemma report_line_bounds (df : frame) (n : string) (c : nat) (p : Q) :
  rectangular df = true ->
  In (n, (c, p)) (missing_report df) ->
  p = missing_pct df c /\ (0 < c <= nrows df)%nat.
Proof.
  intros Hrect Hin. apply missing_report_lines in Hin.
  destruct Hin as (s & Hs & -> & Hc & ->).
  unfold rectangular in Hrect. rewrite forallb_forall in Hrect.
  specialize (Hrect (n, s) Hs). simpl in Hrect.
  apply Nat.eqb_eq in Hrect. rewrite <- Hrect.
  pose proof (count_na_le s). split; [reflexivity | lia].
Qed.

End ReportMore.

(** ** Looking a column up in the cleaned frame *)

Module LookupMore.

Import Stats Frame Notebook Reference Checks.
Import FrameFacts PassFacts StatsFacts CleanedFacts StatsMore ShapeMore.

Lemma get_cleaned (df : frame) (n : string) :
  derived n = false ->
  get n (cleaned df) =
  option_map (fun s => sdrop (removed_rows df) (if is_key n then fill s else s))
    (get n df).
Proof.
  intros Hn. unfold cleaned.
  rewrite get_without_derived by exact Hn.
  rewrite get_without_rows, get_imputed.
  destruct (get n df); reflexivity.
Qed.

Lemma get_cleaned_derived (df : frame) (n : string) :
  derived n = true -> get n (cleaned df) = None.
Proof.
  intros Hn. apply get_None_columns. rewrite columns_cleaned.
  rewrite filter_In. intros [_ H]. rewrite Hn in H. discriminate H.
Qed.

End LookupMore.

(** ** The group means of cell 0b34f52a *)

Module ImpactMore.

Import Stats Frame Notebook Reference Checks Impact.
Import FrameFacts PassFacts StatsFacts CleanedFacts StatsMore ShapeMore.

Local Open Scope Q_scope.

Lemma uniques_incl (l : list Q) (x : Q) : In x (uniques l) -> In x l.
Proof.
  induction l as [|y l IH]; simpl; [tauto|].
  intros [H|H]; [left; exact H|].
  apply filter_In in H. right. apply IH, H.
Qed.

Lemma omit_In (xs : list (option Q)) (q : Q) :
  In q (omit xs) -> In (Some q) xs.
Proof.
  induction xs as [|[x|] xs IH]; simpl; [tauto| |].
  - intros [->|H]; [left; reflexivity | right; apply IH, H].
  - intros H. right. apply IH, H.
Qed.

(** A label is the key of a row. *)
Lemma labels_In (keys : list (option Q)) (l : Q) :
  In l (labels keys) -> In (Some l) keys.
Proof.
  unfold labels. intros H.
  apply (Permutation_in _ (sort_perm _)) in H.
  apply omit_In, uniques_incl, H.
Qed.

Lemma Qeq_bool_refl' (x : Q) : Qeq_bool x x = true.
Proof. apply Qeq_bool_iff. reflexivity. Qed.

(** The group of the key of a row with a value is not empty. *)
Lemma group_nonempty (l : Q) (keys vals : list (option Q)) :
  In (Some l) keys -> length keys = length vals ->
  Forall (fun v => v <> None) vals ->
  group l keys vals <> [].
Proof.
  revert vals. induction keys as [|k keys IH]; intros vals Hin Hlen Hv.
  - destruct Hin.
  - destruct vals as [|v vals]; [discriminate Hlen|].
    injection Hlen as Hlen. inversion Hv as [|? ? Hv1 Hv2]; subst.
    destruct v as [v|]; [|congruence].
    destruct Hin as [->|Hin]; simpl.
    + rewrite Qeq_bool_refl'. discriminate.
    + destruct k as [k|]; [|apply IH; assumption].
      destruct (Qeq_bool k l); [discriminate | apply IH; assumption].
Qed.

Lemma length_numbers (s : series) : length (numbers s) = slen s.
Proof. destruct s; simpl; [reflexivity | apply length_map | reflexivity]. Qed.

Lemma isna_no_none (A : Type) (xs : list (option A)) :
  count_true (isna xs) = O -> Forall (fun v => v <> None) xs.
Proof.
  intros H. apply count_true_zero in H.
  induction xs as [|[x|] xs IH]; simpl in *.
  - constructor.
  - inversion H; subst. constructor; [discriminate | apply IH; assumption].
  - inversion H; discriminate.
Qed.

Lemma numbers_full (s : series) :
  count_na s = O -> Forall (fun v => v <> None) (numbers s).
Proof.
  unfold count_na. destruct s as [xs|bs|ts]; simpl.
  - apply isna_no_none.
  - intros _. apply Forall_forall. intros v Hv.
    apply in_map_iff in Hv. destruct Hv as (b & <- & _). discriminate.
  - apply isna_no_none.
Qed.

(** Every group mean of a column without missing value is a number. *)
Lemma means_defined (keys vals : list (option Q)) :
  length keys = length vals -> Forall (fun v => v <> None) vals ->
  Forall (fun m => m <> None)
    (map (fun l => group_mean l keys vals) (labels keys)).
Proof.
  intros Hlen Hv. apply Forall_forall. intros m Hm.
  apply in_map_iff in Hm. destruct Hm as (l & <- & Hl).
  unfold group_mean.
  pose proof (group_nonempty l keys vals (labels_In keys l Hl) Hlen Hv) as G.
  destruct (group l keys vals); [congruence | discriminate].
Qed.

(** *** The groups share out the rows that have a key *)

Lemma Qsum_add (f g : Q -> Q) (L : list Q) :
  Qsum (map (fun l => f l + g l) L) == Qsum (map f L) + Qsum (map g L).
Proof.
  induction L as [|l L IH]; simpl; [lra|]. rewrite IH. lra.
Qed.

Lemma Qsum_zero (f : Q -> Q) (L : list Q) :
  (forall l, In l L -> f l == 0) -> Qsum (map f L) == 0.
Proof.
  intros H. induction L as [|l L IH]; simpl; [reflexivity|].
  rewrite (H l (or_introl eq_refl)), IH; [lra|].
  intros l' H'. apply H. right. exact H'.
Qed.

Lemma Qsum_one_label (k v : Q) (L : list Q) :
  NoDupA Qeq L -> InA Qeq k L ->
  Qsum (map (fun l => if Qeq_bool k l then v else 0) L) == v.
Proof.
  induction 1 as [|l L Hl HL IH]; intros Hk.
  - inversion Hk.
  - simpl. destruct (Qeq_bool k l) eqn:E.
    + apply Qeq_bool_iff in E.
      rewrite Qsum_zero; [lra|].
      intros l' Hl'. destruct (Qeq_bool k l') eqn:E'; [|reflexivity].
      exfalso. apply Hl. apply Qeq_bool_iff in E'.
      apply InA_alt. exists l'. split; [|exact Hl'].
      rewrite <- E, E'. reflexivity.
    + inversion Hk as [? ? Hh|? ? Ht]; subst.
      * apply Qeq_bool_iff in Hh. congruence.
      * rewrite (IH Ht). lra.
Qed.

Lemma groups_share (L : list Q) (keys vals : list (option Q)) :
  NoDupA Qeq L ->
  (forall k, In (Some k) keys -> InA Qeq k L) ->
  Qsum (map (fun l => Qsum (group l keys vals)) L) ==
  Qsum (grouped keys vals).
Proof.
  intros HL. revert vals.
  induction keys as [|k keys IH]; intros vals Hk.
  - simpl. apply Qsum_zero. intros; reflexivity.
  - assert (Hk' : forall k', In (Some k') keys -> InA Qeq k' L)
      by (intros k' H'; apply Hk; right; exact H').
    destruct vals as [|v vals].
    + destruct k; simpl; apply Qsum_zero; intros; reflexivity.
    + destruct k as [k|]; [destruct v as [v|]|]; simpl;
        try (apply IH; exact Hk').
      pose proof (Qsum_one_label k v L HL (Hk k (or_introl eq_refl))) as V.
      pose proof (IH vals Hk') as R.
      pose proof (Qsum_add (fun l => if Qeq_bool k l then v else 0)
                    (fun l => Qsum (group l keys vals)) L) as S.
      rewrite <- R, <- V at 1. rewrite <- S.
      apply Qsum_ext. intros l _.
      destruct (Qeq_bool k l); simpl; lra.
Qed.

Lemma InA_filter (p : Q -> bool) (x : Q) (l : list Q) :
  InA Qeq x (filter p l) -> InA Qeq x l.
Proof.
  rewrite !InA_alt. intros (y & E & H). apply filter_In in H.
  exists y. tauto.
Qed.

Lemma NoDupA_filter (p : Q -> bool) (l : list Q) :
  NoDupA Qeq l -> NoDupA Qeq (filter p l).
Proof.
  induction 1 as [|x l Hx Hl IH]; simpl; [constructor|].
  destruct (p x); [|exact IH].
  constructor; [|exact IH]. intros H. apply Hx. eapply InA_filter, H.
Qed.

Lemma uniques_NoDupA (l : list Q) : NoDupA Qeq (uniques l).
Proof.
  induction l as [|x l IH]; simpl; constructor.
  - rewrite InA_alt. intros (y & E & H). apply filter_In in H.
    destruct H as [_ H]. apply Qeq_bool_iff in E. rewrite E in H.
    discriminate H.
  - apply NoDupA_filter, IH.
Qed.

Lemma uniques_cover (l : list Q) (k : Q) : In k l -> InA Qeq k (uniques l).
Proof.
  induction l as [|x l IH]; simpl; [tauto|].
  intros [->|H]; [left; reflexivity|].
  specialize (IH H). apply InA_alt in IH. destruct IH as (u & E & Hu).
  destruct (Qeq_bool x u) eqn:X.
  - left. apply Qeq_bool_iff in X. rewrite E, X. reflexivity.
  - right. apply InA_alt. exists u. split; [exact E|].
    apply filter_In. rewrite X. split; [exact Hu | reflexivity].
Qed.

(** The sums of the groups add up to the sum of the values of the rows
    that have a key. *)
Lemma labels_share (keys vals : list (option Q)) :
  Qsum (map (fun l => Qsum (group l keys vals)) (labels keys)) ==
  Qsum (grouped keys vals).
Proof.
  unfold labels.
  rewrite (Qsum_perm (Permutation_map _ (sort_perm _))).
  apply groups_share; [apply uniques_NoDupA|].
  intros k Hk. apply uniques_cover, In_omit, Hk.
Qed.

Lemma Qlen_mean (g : list Q) : Qlen g * mean g == Qsum g.
Proof.
  destruct g as [|x g].
  - vm_compute. reflexivity.
  - unfold mean. pose proof (Qlen_pos x g) as P.
    field. lra.
Qed.

(** With a key and a value in every row, the values in the groups are all
    the values. *)
Lemma grouped_all (keys vals : list (option Q)) :
  length keys = length vals -> Forall (fun k => k <> None) keys ->
  grouped keys vals = omit vals.
Proof.
  revert vals. induction keys as [|k keys IH]; intros [|v vals] Hlen Hk;
    try discriminate Hlen; [reflexivity|].
  injection Hlen as Hlen. inversion Hk as [|? ? H1 H2]; subst.
  destruct k as [k|]; [|congruence].
  destruct v as [v|]; simpl; rewrite (IH vals Hlen H2); reflexivity.
Qed.

End ImpactMore.

(** ** The pass and the cells after it *)

Module PassMore.

Import Stats Frame Notebook Reference Checks Impact Plots.
Import MaskFacts FrameFacts PassFacts StatsFacts CleanedFacts.
Import StatsMore ShapeMore ReportMore LookupMore ImpactMore.

Local Open Scope string_scope.

Lemma drop_or_mask_false_r (A : Type) (a b : list bool) (xs : list A) :
  Forall (fun x => x = false) b -> drop (or_mask a b) xs = drop a xs.
Proof.
  revert b xs. induction a as [|x a IH]; intros b xs Hb.
  - simpl. rewrite (drop_all_false xs Hb). destruct xs; reflexivity.
  - destruct b as [|y b]; [reflexivity|].
    inversion Hb as [|? ? Hy Hb']; subst.
    destruct xs as [|x0 xs]; [reflexivity|]. simpl.
    rewrite orb_false_r, (IH b xs Hb'). reflexivity.
Qed.

Lemma without_rows_or_mask_false_r (a b : list bool) (df : frame) :
  Forall (fun x => x = false) b ->
  without_rows (or_mask a b) df = without_rows a df.
Proof.
  intros Hb. unfold without_rows. apply map_ext. intros [n s]. simpl.
  f_equal. destruct s; simpl; rewrite drop_or_mask_false_r by exact Hb;
    reflexivity.
Qed.

Lemma or_mask_false_inv (a b : list bool) :
  Forall (fun x => x = false) (or_mask a b) ->
  Forall (fun x => x = false) a /\ Forall (fun x => x = false) b.
Proof.
  revert b. induction a as [|x a IH]; intros b H.
  - split; [constructor | exact H].
  - destruct b as [|y b]; [split; [exact H | constructor]|].
    simpl in H. inversion H as [|? ? Hxy Hr]; subst.
    apply orb_false_iff in Hxy. destruct Hxy as [-> ->].
    destruct (IH b Hr). split; constructor; auto.
Qed.

(** No flag in a column of at most nine values. *)
Lemma few_flags (df : frame) (k : string) :
  few_values df = true -> In k key_cols ->
  Forall (fun b => b = false) (flags_of df k).
Proof.
  unfold few_values. rewrite forallb_forall. intros H Hk.
  specialize (H k Hk). unfold flags_of.
  destruct (get k df) as [s|]; [|constructor].
  unfold outlier_flags. destruct (as_float s) as [xs|]; [|constructor].
  apply Nat.leb_le in H.
  rewrite (few_values_no_flag xs) by (clear - H; lia).
  apply Forall_forall. intros b Hb. apply in_map_iff in Hb.
  destruct Hb as (? & <- & _). reflexivity.
Qed.

Lemma flags_outlier_rows (df : frame) (ks : list string) :
  (forall k, In k ks -> Forall (fun b => b = false) (flags_of df k)) ->
  Forall (fun b => b = false) (outlier_rows_of ks df).
Proof.
  induction ks as [|k ks IH]; simpl; intros H; [constructor|].
  assert (H' : Forall (fun b => b = false) (outlier_rows_of ks df))
    by (apply IH; intros k' Hk'; apply H; right; exact Hk').
  pose proof (H k (or_introl eq_refl)) as Hk. unfold flags_of in Hk.
  destruct (get k df); [|exact H'].
  apply or_mask_false; assumption.
Qed.

Lemma outlier_rows_flags (df : frame) (ks : list string) :
  Forall (fun b => b = false) (outlier_rows_of ks df) ->
  forall k, In k ks -> Forall (fun b => b = false) (flags_of df k).
Proof.
  induction ks as [|k0 ks IH]; simpl; intros H k Hk; [destruct Hk|].
  assert (H' : Forall (fun b => b = false) (flags_of df k0) /\
               Forall (fun b => b = false) (outlier_rows_of ks df)).
  { unfold flags_of. destruct (get k0 df).
    - apply or_mask_false_inv. exact H.
    - split; [constructor | exact H]. }
  destruct Hk as [<-|Hk]; [apply H' | apply IH; [apply H' | exact Hk]].
Qed.

Lemma counts_zero (df : frame) :
  (forall k, In k key_cols -> Forall (fun b => b = false) (flags_of df k)) ->
  counts df = map (fun k => (k, 0%Q)) key_cols.
Proof.
  intros H. unfold counts. apply map_ext_in. intros k Hk.
  pose proof (H k Hk) as F. apply count_true_zero in F.
  rewrite F. reflexivity.
Qed.

(** With at most ten values in every target column the cleaned frame is
    the imputed frame without the rows that miss a target value. *)
Lemma cleaned_few (df : frame) :
  few_values df = true ->
  cleaned df =
  without_derived (without_rows (missing_rows (imputed df)) (imputed df)).
Proof.
  intros H. unfold cleaned, removed_rows.
  rewrite without_rows_or_mask_false_r; [reflexivity|].
  apply flags_outlier_rows. intros k Hk. apply few_flags; assumption.
Qed.

(** *** The cells that read the cleaned frame *)

Lemma time_series_no_stamp (out : frame) :
  get "Timestamp" out = None -> has "GHI" out = true ->
  time_series out = inl (KeyError ["Timestamp"]).
Proof.
  intros Ht Hg. unfold time_series, plot_cols. cbn [foldM].
  unfold plot_col at 1. rewrite Hg, Ht. reflexivity.
Qed.

Lemma time_series_stamp (out : frame) (t g d h : series) :
  get "Timestamp" out = Some t -> get "GHI" out = Some g ->
  get "DNI" out = Some d -> get "DHI" out = Some h ->
  time_series out =
  inr ([Curve "GHI" t g; Curve "DNI" t d; Curve "DHI" t h]
         ++ match get "Tamb" out with
            | Some s => [Curve "Tamb" t s]
            | None => []
            end)%list.
Proof.
  intros Ht Hg Hd Hh. unfold time_series, plot_cols, plot_col, has.
  cbn [foldM bind]. rewrite Ht, Hg. cbn [bind ok app].
  rewrite Hd. cbn [bind ok app]. rewrite Hh. cbn [bind ok app].
  destruct (get "Tamb" out); reflexivity.
Qed.

Lemma mean_column_defined (key v : series) :
  as_float v <> None -> count_na v = O -> slen key = slen v ->
  exists ms, mean_column key v = Floats ms /\
             Forall (fun m => m <> None) ms.
Proof.
  intros Hc Hn Hl.
  assert (F : Forall (fun m => m <> None)
                (map (fun l => group_mean l (numbers key) (numbers v))
                   (labels (numbers key)))).
  { apply means_defined.
    - rewrite !length_numbers. exact Hl.
    - apply numbers_full. exact Hn. }
  unfold mean_column. destruct v; simpl in Hc; try congruence; eauto.
Qed.

Lemma cleaning_group_frame (out : frame) (key a b : series) :
  get "Cleaning" out = Some key -> get "ModA" out = Some a ->
  get "ModB" out = Some b ->
  cleaning_group out =
  Some (inr [("Cleaning", label_column key (labels (numbers key)));
             ("ModA", mean_column key a); ("ModB", mean_column key b)]).
Proof.
  intros Hk Ha Hb. unfold cleaning_group, groupby_mean, has.
  rewrite Hk. cbn [filter flat_map negb]. unfold has.
  rewrite Ha, Hb. reflexivity.
Qed.

(** A target column of the cleaned frame: present, cast to float, without
    missing value. *)
Lemma cleaned_target (df : frame) (k : string) :
  unique_columns df = true -> targets_ready df = true -> In k key_cols ->
  exists s, get k (cleaned df) = Some s /\ as_float s <> None /\
            count_na s = O.
Proof.
  intros Hu Hr Hk.
  destruct (@ready_castable df Hr k Hk) as (s0 & xs & Hg & Hx).
  pose proof (@get_cleaned_key df k Hk) as G. rewrite Hg in G. simpl in G.
  eexists. split; [exact G|]. split.
  - rewrite (@as_float_filled (removed_rows df) s0 xs Hx). discriminate.
  - exact (@cleaned_key_no_missing df k _ Hk G).
Qed.

End PassMore.

(** * The pass on every input, and the cells around it *)

Import Checks Impact Plots MoreExamples.
Import ErrorMore StatsMore ShapeMore ReportMore LookupMore ImpactMore PassMore.

(** X1.  A frame that lacks target columns: when no column is named like
    a derived one and every target column that is present casts to
    float, the pass raises the [KeyError] of [dropna], which lists the
    absent target columns in the order of [key_cols]. *)
Theorem X1_absent_targets_key_error (df : frame) :
  plain_names df = true ->
  find (uncastable df) key_cols = None ->
  absent_targets df <> [] ->
  clean df = inl (KeyError (absent_targets df)).
Proof. exact (clean_absent_targets df). Qed.

Lemma X1_witness :
  plain_names only_ghi = true /\
  find (uncastable only_ghi) key_cols = None /\
  absent_targets only_ghi = ["DNI"; "DHI"; "ModA"; "ModB"; "WS"; "WSgust"] /\
  clean only_ghi = inl (KeyError (absent_targets only_ghi)).
Proof.
  split; [reflexivity|]. split; [reflexivity|]. split; [reflexivity|].
  apply (X1_absent_targets_key_error only_ghi);
    [reflexivity | reflexivity | vm_compute; discriminate].
Defined.

(** X2.  A target column with a dtype that [astype(float)] refuses: the
    pass raises [TypeError] in the z-score loop, at the first such column
    in the order of [key_cols], whatever the rest of the frame. *)
Theorem X2_uncastable_target_type_error (df : frame) (k : string) :
  find (uncastable df) key_cols = Some k -> clean df = inl (TypeError k).
Proof. exact (clean_uncastable df k). Qed.

Lemma X2_witness :
  find (uncastable stamped) key_cols = Some "DNI" /\
  clean stamped = inl (TypeError "DNI").
Proof.
  split; [reflexivity|].
  apply (X2_uncastable_target_type_error stamped "DNI"). reflexivity.
Defined.

(** X3.  When no target column has more than nine values, no value
    comes near three standard deviations from the mean (a value among
    [n] is at most the square root of [n - 1] standard deviations away):
    the report counts no outlier, and the cleaned frame is the imputed
    frame without the rows that still miss a target value.  With ten
    values the bound is three itself, where the rounding of the z-score
    decides. *)
Theorem X3_few_values_no_outlier (df out : frame) (rep : report) :
  unique_columns df = true ->
  few_values df = true ->
  clean df = inr (out, rep) ->
  out = without_derived
          (without_rows (missing_rows (imputed df)) (imputed df)) /\
  outliers rep = map (fun k => (k, 0%Q)) key_cols.
Proof.
  intros Hu Hf Hc.
  destruct (@clean_inr df out rep Hu Hc) as (_ & -> & ->). split.
  - apply cleaned_few. exact Hf.
  - simpl. apply counts_zero. intros k Hk. apply few_flags; assumption.
Qed.

Lemma X3_witness :
  unique_columns scenario = true /\
  few_values scenario = true /\
  clean scenario = inr (run scenario) /\
  outliers (snd (run scenario)) = map (fun k => (k, 0%Q)) key_cols.
Proof.
  assert (H : clean scenario = inr (fst (run scenario), snd (run scenario)))
    by (vm_compute; reflexivity).
  split; [reflexivity|]. split; [reflexivity|].
  split; [vm_compute; reflexivity|].
  exact (proj2 (X3_few_values_no_outlier scenario _ _ eq_refl eq_refl H)).
Defined.

(** X4.  The count of outliers that the report gives for a target column
    is at most one ninth of the number of values of the column. *)
Theorem X4_at_most_a_ninth_flagged (df out : frame) (rep : report)
  (col : string) (c : Q) (s : series) (xs : list (option Q)) :
  unique_columns df = true ->
  clean df = inr (out, rep) ->
  In (col, c) (outliers rep) ->
  get col df = Some s -> as_float s = Some xs ->
  (9 * c <= inject_Z (Z.of_nat (count_values xs)))%Q.
Proof.
  intros Hu Hc Hin Hg Hx.
  destruct (@clean_inr df out rep Hu Hc) as (_ & _ & ->).
  cbn [outliers] in Hin. unfold counts in Hin. apply in_map_iff in Hin.
  destruct Hin as (k & E & _). injection E as -> <-.
  unfold flags_of. rewrite Hg. unfold outlier_flags. rewrite Hx.
  exact (flag_count_bound xs).
Qed.

Lemma X4_witness :
  unique_columns sample = true /\
  clean sample = inr (run sample) /\
  In ("GHI", 1%Q) (outliers (snd (run sample))) /\
  (9 * 1 <= inject_Z 12)%Q.
Proof.
  assert (H : clean sample = inr (fst (run sample), snd (run sample)))
    by (vm_compute; reflexivity).
  assert (I : In ("GHI", 1%Q) (outliers (snd (run sample))))
    by (left; vm_compute; reflexivity).
  split; [reflexivity|]. split; [vm_compute; reflexivity|].
  split; [exact I|].
  exact (X4_at_most_a_ninth_flagged sample _ _ "GHI" 1%Q _ _
           eq_refl H I eq_refl eq_refl).
Defined.

(** X6.  The cleaned frame of a frame whose columns have one length has
    columns of one length again, and its number of rows is that of the
    input less the number of rows that miss a target value after
    imputation or are flagged. *)
Theorem X6_shape_of_the_cleaned_frame (df out : frame) (rep : report) :
  unique_columns df = true ->
  rectangular df = true ->
  clean df = inr (out, rep) ->
  rectangular out = true /\
  (nrows out + count_true (removed_rows df) = nrows df)%nat /\
  (nrows out <= nrows df)%nat.
Proof.
  intros Hu Hrect Hc.
  destruct (@clean_inr df out rep Hu Hc) as (Hr & -> & _).
  destruct (cleaned_shape df Hrect Hr) as [R N].
  split; [exact R|]. split; [exact N | lia].
Qed.

Lemma X6_witness :
  unique_columns sample = true /\
  rectangular sample = true /\
  clean sample = inr (run sample) /\
  nrows sample = 13%nat /\
  rectangular (fst (run sample)) = true /\
  (nrows (fst (run sample)) + count_true (removed_rows sample)
   = nrows sample)%nat /\
  (nrows (fst (run sample)) <= nrows sample)%nat.
Proof.
  assert (H : clean sample = inr (fst (run sample), snd (run sample)))
    by (vm_compute; reflexivity).
  split; [reflexivity|]. split; [reflexivity|].
  split; [vm_compute; reflexivity|]. split; [reflexivity|].
  exact (X6_shape_of_the_cleaned_frame sample _ _ eq_refl eq_refl H).
Defined.

(** X7.  A float target column without any value has no median: nothing
    is filled in it, [dropna] removes every row, and the pass returns a
    frame without rows. *)
Theorem X7_empty_target_empties_the_frame (df out : frame) (rep : report)
  (k : string) (xs : list (option Q)) :
  unique_columns df = true ->
  rectangular df = true ->
  clean df = inr (out, rep) ->
  In k key_cols -> get k df = Some (Floats xs) -> omit xs = [] ->
  nrows out = O /\ (forall n s, In (n, s) out -> slen s = O).
Proof.
  intros Hu Hrect Hc Hk Hg Ho.
  destruct (@clean_inr df out rep Hu Hc) as (Hr & -> & _).
  exact (cleaned_hollow df k xs Hrect Hr Hk Hg Ho).
Qed.

Lemma X7_witness :
  unique_columns hollow = true /\
  rectangular hollow = true /\
  clean hollow = inr (run hollow) /\
  nrows hollow = 3%nat /\
  nrows (fst (run hollow)) = O.
Proof.
  assert (H : clean hollow = inr (fst (run hollow), snd (run hollow)))
    by (vm_compute; reflexivity).
  assert (K : In "GHI" key_cols) by (left; reflexivity).
  split; [reflexivity|]. split; [reflexivity|].
  split; [vm_compute; reflexivity|]. split; [reflexivity|].
  exact (proj1 (X7_empty_target_empties_the_frame hollow _ _ "GHI"
                  [None; None; None] eq_refl eq_refl H K eq_refl eq_refl)).
Defined.

(** X8.  When every target column is present, casts to float and has a
    value, every missing target value is filled and [dropna] removes
    nothing: the pass completes, and the cleaned frame is the imputed
    frame without the flagged rows. *)
Theorem X8_only_flagged_rows_removed (df : frame) :
  unique_columns df = true ->
  targets_valued df = true ->
  clean df =
  inr (without_derived (without_rows (outlier_rows df) (imputed df)),
       Report (missing_report df) (counts df)).
Proof.
  intros Hu Hv.
  rewrite (clean_ready df Hu (valued_ready df Hv)).
  rewrite (cleaned_valued df Hv). reflexivity.
Qed.

Lemma X8_witness :
  unique_columns sample = true /\
  targets_valued sample = true /\
  clean sample =
  inr (without_derived (without_rows (outlier_rows sample) (imputed sample)),
       Report (missing_report sample) (counts sample)).
Proof.
  split; [reflexivity|]. split; [reflexivity|].
  exact (X8_only_flagged_rows_removed sample eq_refl eq_refl).
Defined.

(** X9.  When every target column has a value, the pass removes at most
    as many rows as the outlier counts of its report add up to. *)
Theorem X9_removed_rows_within_the_counts (df out : frame) (rep : report) :
  unique_columns df = true ->
  rectangular df = true ->
  targets_valued df = true ->
  clean df = inr (out, rep) ->
  (inject_Z (Z.of_nat (nrows df - nrows out))
   <= Qsum (map snd (outliers rep)))%Q.
Proof.
  intros Hu Hrect Hv Hc.
  destruct (@clean_inr df out rep Hu Hc) as (_ & -> & ->).
  exact (removed_rows_bound df Hrect Hv).
Qed.

Lemma X9_witness :
  unique_columns sample = true /\
  rectangular sample = true /\
  targets_valued sample = true /\
  clean sample = inr (run sample) /\
  (nrows sample - nrows (fst (run sample)) = 1)%nat /\
  (inject_Z (Z.of_nat (nrows sample - nrows (fst (run sample))))
   <= Qsum (map snd (outliers (snd (run sample)))))%Q.
Proof.
  assert (H : clean sample = inr (fst (run sample), snd (run sample)))
    by (vm_compute; reflexivity).
  split; [reflexivity|]. split; [reflexivity|]. split; [reflexivity|].
  split; [vm_compute; reflexivity|]. split; [vm_compute; reflexivity|].
  exact (X9_removed_rows_within_the_counts sample _ _
           eq_refl eq_refl eq_refl H).
Defined.

(** X10.  A frame with nothing to clean comes back as it is: when no
    column is named like a derived one, every target column casts to
    float and misses no value, and no row is flagged, the pass returns
    the input frame and counts no outlier. *)
Theorem X10_tidy_frame_unchanged (df : frame) :
  unique_columns df = true ->
  plain_names df = true ->
  targets_ready df = true ->
  targets_full df = true ->
  no_outlier df = true ->
  clean df =
  inr (df, Report (missing_report df) (map (fun k => (k, 0%Q)) key_cols)).
Proof.
  intros Hu Hp Hr Hf Hn.
  rewrite (clean_ready df Hu Hr), (cleaned_tidy df Hu Hp Hf Hn).
  rewrite (counts_zero df); [reflexivity|].
  apply outlier_rows_flags. apply no_outlier_false. exact Hn.
Qed.

Lemma X10_witness :
  unique_columns tidy = true /\
  plain_names tidy = true /\
  targets_ready tidy = true /\
  targets_full tidy = true /\
  no_outlier tidy = true /\
  clean tidy =
  inr (tidy, Report (missing_report tidy) (map (fun k => (k, 0%Q)) key_cols)).
Proof.
  split; [reflexivity|]. split; [reflexivity|]. split; [reflexivity|].
  split; [reflexivity|]. split; [reflexivity|].
  exact (X10_tidy_frame_unchanged tidy eq_refl eq_refl eq_refl eq_refl
           eq_refl).
Defined.

(** X11.  A line of the report of missing values is a column of the
    frame with its number of missing values, which is not 0 and at most
    the number of rows, and a percentage above 0 and at most 100. *)
Theorem X11_lines_of_the_missing_report (df : frame) (n : string) (c : nat)
  (p : Q) :
  rectangular df = true ->
  In (n, (c, p)) (missing_report df) ->
  (exists s, In (n, s) df /\ c = count_na s) /\
  (0 < c <= nrows df)%nat /\
  (0 < p <= 100)%Q.
Proof.
  intros Hrect Hin.
  destruct (report_line_bounds df n c p Hrect Hin) as (-> & Hc).
  apply missing_report_lines in Hin.
  destruct Hin as (s & Hs & E & _).
  split; [exists s; split; assumption|].
  split; [exact Hc|].
  unfold missing_pct. apply pct_bounds; lia.
Qed.

Lemma X11_witness :
  rectangular scenario = true /\
  In ("GHI", (1%nat, (100 # 5)%Q)) (missing_report scenario) /\
  (0 < 1 <= nrows scenario)%nat /\
  (0 < 100 # 5 <= 100)%Q.
Proof.
  assert (I : In ("GHI", (1%nat, (100 # 5)%Q)) (missing_report scenario))
    by (left; vm_compute; reflexivity).
  split; [reflexivity|]. split; [exact I|].
  exact (proj2 (X11_lines_of_the_missing_report scenario "GHI" 1%nat
                  (100 # 5)%Q eq_refl I)).
Defined.

(** X12.  The columns listed with more than 5 percent of missing values
    are the lines of the report whose count, times twenty, is more than
    the number of rows. *)
Theorem X12_high_null_columns (df : frame) (n : string) (c : nat) (p : Q) :
  rectangular df = true ->
  (In (n, (c, p)) (high_null_cols df) <->
   In (n, (c, p)) (missing_report df) /\ (nrows df < 20 * c)%nat).
Proof.
  intros Hrect. unfold high_null_cols. rewrite filter_In. simpl.
  split; intros [Hin H]; (split; [exact Hin|]);
    destruct (report_line_bounds df n c p Hrect Hin) as (Hp & Hc);
    rewrite Hp in *; unfold missing_pct in *.
  - apply Qlt_bool_true in H. apply pct_over_5 in H; [exact H | lia].
  - apply Qlt_bool_true. apply pct_over_5; [lia | exact H].
Qed.

Lemma X12_witness :
  rectangular sample = true /\
  (In ("DNI", (1%nat, (100 # 13)%Q)) (high_null_cols sample) <->
   In ("DNI", (1%nat, (100 # 13)%Q)) (missing_report sample) /\
   (nrows sample < 20 * 1)%nat).
Proof.
  split; [reflexivity|].
  exact (X12_high_null_columns sample "DNI" 1%nat (100 # 13)%Q eq_refl).
Defined.

(** X13.  The group means on a cleaned frame.  When the input has a
    [Cleaning] column, the cell that follows the pass finds its three
    columns, raises no [KeyError], and every group mean of [ModA] and of
    [ModB] is a number: each group has a row, and a cleaned target
    column misses no value. *)
Theorem X13_group_means_are_numbers (df out : frame) (rep : report) :
  unique_columns df = true ->
  rectangular df = true ->
  has "Cleaning" df = true ->
  clean df = inr (out, rep) ->
  exists key ma mb,
    get "Cleaning" out = Some key /\
    cleaning_group out =
      Some (inr [("Cleaning", label_column key (labels (numbers key)));
                 ("ModA", Floats ma); ("ModB", Floats mb)]) /\
    Forall (fun m => m <> None) ma /\
    Forall (fun m => m <> None) mb.
Proof.
  intros Hu Hrect Hh Hc.
  destruct (@clean_inr df out rep Hu Hc) as (Hr & -> & _).
  destruct (cleaned_shape df Hrect Hr) as [R _].
  assert (Hkey : exists key, get "Cleaning" (cleaned df) = Some key).
  { rewrite (get_cleaned df "Cleaning" eq_refl).
    unfold has in Hh. destruct (get "Cleaning" df) as [s|];
      [eexists; reflexivity | discriminate Hh]. }
  destruct Hkey as [key Hkey].
  assert (KA : In "ModA" key_cols) by (do 3 right; left; reflexivity).
  assert (KB : In "ModB" key_cols) by (do 4 right; left; reflexivity).
  destruct (cleaned_target df "ModA" Hu Hr KA) as (a & Ga & Ca & Na).
  destruct (cleaned_target df "ModB" Hu Hr KB) as (b & Gb & Cb & Nb).
  assert (L : forall n s, get n (cleaned df) = Some s -> slen key = slen s).
  { intros n s G.
    rewrite (rectangular_slen (cleaned df) "Cleaning" key R Hkey).
    rewrite (rectangular_slen (cleaned df) n s R G). reflexivity. }
  destruct (mean_column_defined key a Ca Na (L _ _ Ga)) as (ma & Ea & Fa).
  destruct (mean_column_defined key b Cb Nb (L _ _ Gb)) as (mb & Eb & Fb).
  exists key, ma, mb. split; [exact Hkey|]. split; [|split; assumption].
  rewrite (cleaning_group_frame (cleaned df) key a b Hkey Ga Gb).
  rewrite Ea, Eb. reflexivity.
Qed.

Lemma X13_witness :
  unique_columns sample = true /\
  rectangular sample = true /\
  has "Cleaning" sample = true /\
  clean sample = inr (run sample) /\
  exists key ma mb,
    get "Cleaning" (fst (run sample)) = Some key /\
    cleaning_group (fst (run sample)) =
      Some (inr [("Cleaning", label_column key (labels (numbers key)));
                 ("ModA", Floats ma); ("ModB", Floats mb)]) /\
    Forall (fun m => m <> None) ma /\
    Forall (fun m => m <> None) mb.
Proof.
  assert (H : clean sample = inr (fst (run sample), snd (run sample)))
    by (vm_compute; reflexivity).
  split; [reflexivity|]. split; [reflexivity|]. split; [reflexivity|].
  split; [vm_compute; reflexivity|].
  exact (X13_group_means_are_numbers sample _ _ eq_refl eq_refl eq_refl H).
Defined.

(** X14.  The groups share out the rows.  The group means, each weighted
    by the number of values of its group, add up to the sum of the values
    of the rows that have a key; and these are all the values of the
    column when no key is missing. *)
Theorem X14_groups_share_the_rows (keys vals : list (option Q)) :
  (Qsum (map (fun l =>
                match group_mean l keys vals with
                | Some m => Qlen (group l keys vals) * m
                | None => 0
                end) (labels keys))
   == Qsum (grouped keys vals))%Q /\
  (length keys = length vals -> Forall (fun k => k <> None) keys ->
   grouped keys vals = omit vals).
Proof.
  split; [|apply grouped_all].
  rewrite <- (labels_share keys vals). apply Qsum_ext. intros l _.
  unfold group_mean. destruct (group l keys vals) as [|x g] eqn:E.
  - reflexivity.
  - apply Qlen_mean.
Qed.

(** X15.  The time series after the pass.  The cell reads
    [df['Timestamp']] for every curve it draws, and a cleaned frame has
    the columns [GHI], [DNI] and [DHI]: without a [Timestamp] column in
    the input the cell raises [KeyError]; with one, it draws these three
    curves and that of [Tamb] when the input has it, each against the
    timestamps of the rows that are left. *)
Theorem X15_time_series_needs_the_timestamps (df out : frame)
  (rep : report) :
  unique_columns df = true ->
  clean df = inr (out, rep) ->
  (get "Timestamp" df = None ->
   time_series out = inl (KeyError ["Timestamp"])) /\
  (forall t, get "Timestamp" df = Some t ->
     exists curves,
       time_series out = inr curves /\
       map label curves =
         ("GHI" :: "DNI" :: "DHI"
            :: (if has "Tamb" df then ["Tamb"] else []))%list /\
       Forall (fun c => get "Timestamp" out = Some (xdata c) /\
                        get (label c) out = Some (ydata c)) curves).
Proof.
  intros Hu Hc.
  destruct (@clean_inr df out rep Hu Hc) as (Hr & -> & _).
  assert (KG : In "GHI" key_cols) by (left; reflexivity).
  assert (KN : In "DNI" key_cols) by (right; left; reflexivity).
  assert (KH : In "DHI" key_cols) by (do 2 right; left; reflexivity).
  destruct (cleaned_target df "GHI" Hu Hr KG) as (g & Gg & _).
  destruct (cleaned_target df "DNI" Hu Hr KN) as (d & Gd & _).
  destruct (cleaned_target df "DHI" Hu Hr KH) as (h & Gh & _).
  pose proof (get_cleaned df "Timestamp" eq_refl) as GT.
  pose proof (get_cleaned df "Tamb" eq_refl) as GA.
  split.
  - intros Ht. rewrite Ht in GT. apply time_series_no_stamp.
    + exact GT.
    + unfold has. rewrite Gg. reflexivity.
  - intros t Ht. rewrite Ht in GT. cbn [option_map] in GT.
    rewrite (time_series_stamp (cleaned df) _ g d h GT Gg Gd Gh).
    eexists. split; [reflexivity|]. unfold has.
    destruct (get "Tamb" df) as [s|]; cbn [option_map] in GA;
      rewrite GA; cbn [app map label]; (split; [reflexivity|]);
      repeat constructor; cbn [label xdata ydata]; assumption.
Qed.

Lemma X15_witness :
  unique_columns sample = true /\
  clean sample = inr (run sample) /\
  exists curves,
    time_series (fst (run sample)) = inr curves /\
    map label curves = ["GHI"; "DNI"; "DHI"] /\
    Forall (fun c => get "Timestamp" (fst (run sample)) = Some (xdata c) /\
                     get (label c) (fst (run sample)) = Some (ydata c))
      curves.
Proof.
  assert (H : clean sample = inr (fst (run sample), snd (run sample)))
    by (vm_compute; reflexivity).
  split; [reflexivity|]. split; [vm_compute; reflexivity|].
  exact (proj2 (X15_time_series_needs_the_timestamps sample _ _ eq_refl H)
           _ eq_refl).
Defined.
